(** * Verification of the rich-text HTML validation service

    Shallow embedding of [core/domain/html_validation_service.py]:
    the character repair table, the tag grammar validator, the SVG
    sanitizer, the math schema migration and the sibling wrapping
    utility, followed by the properties established about them. *)

From stdpp Require Import base option list strings gmap.
From Stdlib Require Import NArith Lia Ascii.

Set Warnings "-register-all".

Local Open Scope list_scope.

(** ** Python strings

    A Python [str] is a sequence of Unicode code points; the repair
    table needs code points far above one byte, so a string is a list
    of [N].  [py] reads an ASCII literal. *)

Abbreviation str := (list N).

Definition py (s : string) : str :=
  N_of_ascii <$> String.list_ascii_of_string s.

Fixpoint startswith (old s : str) : bool :=
  match old, s with
  | [], _ => true
  | _ :: _, [] => false
  | o :: old', c :: s' => if N.eqb o c then startswith old' s' else false
  end.

(** [str.replace] scans left to right and never lets two replaced
    occurrences overlap: after a match the next [length old - 1]
    characters belong to it and are passed over. *)
Fixpoint replace_from (old new : str) (skip : nat) (s : str) : str :=
  match s with
  | [] => []
  | c :: s' =>
      match skip with
      | S k => replace_from old new k s'
      | O =>
          if startswith old s
          then new ++ replace_from old new (length old - 1) s'
          else c :: replace_from old new 0 s'
      end
  end.

(** With an empty [old], Python puts [new] before every character and
    at the end. *)
Definition str_replace (old new s : str) : str :=
  match old with
  | [] => new ++ flat_map (λ c, c :: new) s
  | _ :: _ => replace_from old new 0 s
  end.

(** ** The character repair table (lines 89-391) *)

Definition CHAR_MAPPINGS : list (str * str) := [
  ([0xa0], [0xa0]);
  ([0xa1], [0xa1]);
  ([0xa2], [0xa2]);
  ([0xa3], [0xa3]);
  ([0xa4], [0xa4]);
  ([0xa5], [0xa5]);
  ([0xa6], [0xa6]);
  ([0xa7], [0xa7]);
  ([0xa8], [0xa8]);
  ([0xa9], [0xa9]);
  ([0xaa], [0xaa]);
  ([0xab], [0xab]);
  ([0xac], [0xac]);
  ([0xad], [0xad]);
  ([0xae], [0xae]);
  ([0xaf], [0xaf]);
  ([0xc0], [0xc0]);
  ([0xc1], [0xc1]);
  ([0xc2], [0xc2]);
  ([0xc3], [0xc3]);
  ([0xc4], [0xc4]);
  ([0xc5], [0xc5]);
  ([0xc6], [0xc6]);
  ([0xc7], [0xc7]);
  ([0xc8], [0xc8]);
  ([0xc9], [0xc9]);
  ([0xca], [0xca]);
  ([0xcb], [0xcb]);
  ([0xcc], [0xcc]);
  ([0xcd], [0xcd]);
  ([0xce], [0xce]);
  ([0xcf], [0xcf]);
  ([0xe0], [0xe0]);
  ([0xe1], [0xe1]);
  ([0xe2], [0xe2]);
  ([0xe3], [0xe3]);
  ([0xe4], [0xe4]);
  ([0xe5], [0xe5]);
  ([0xe6], [0xe6]);
  ([0xe7], [0xe7]);
  ([0xe8], [0xe8]);
  ([0xe9], [0xe9]);
  ([0xea], [0xea]);
  ([0xeb], [0xeb]);
  ([0xec], [0xec]);
  ([0xed], [0xed]);
  ([0xee], [0xee]);
  ([0xef], [0xef]);
  ([0xf0], [0xf0]);
  ([0xf1], [0xf1]);
  ([0xf2], [0xf2]);
  ([0xf3], [0xf3]);
  ([0xf4], [0xf4]);
  ([0xf5], [0xf5]);
  ([0xc2], []);
  ([0xe0; 0x192], [0xc3]);
  ([0xc3; 0xa0], [0xe0]);
  ([0xc3; 0xa1], [0xe1]);
  ([0xc3; 0xa2], [0xe2]);
  ([0xc3; 0xa3], [0xe3]);
  ([0xc3; 0xa4], [0xe4]);
  ([0xc3; 0xa5], [0xe5]);
  ([0xc3; 0xa6], [0xe6]);
  ([0xc3; 0xa7], [0xe7]);
  ([0xc3; 0xa8], [0xe8]);
  ([0xc3; 0xa9], [0xe9]);
  ([0xc3; 0xaa], [0xea]);
  ([0xc3; 0xab], [0xeb]);
  ([0xc3; 0xac], [0xec]);
  ([0xc3; 0xad], [0xed]);
  ([0xc3; 0xae], [0xee]);
  ([0xc3; 0xaf], [0xef]);
  ([0xc3; 0xb0], [0xf0]);
  ([0xc3; 0xb1], [0xf1]);
  ([0xc3; 0xb2], [0xf2]);
  ([0xc3; 0xb3], [0xf3]);
  ([0xc3; 0xb4], [0xf4]);
  ([0xc3; 0xb5], [0xf5]);
  ([0xc3; 0xb6], [0xf6]);
  ([0xc3; 0xb7], [0xf7]);
  ([0xc3; 0xb8], [0xf8]);
  ([0xc3; 0xb9], [0xf9]);
  ([0xc3; 0xba], [0xfa]);
  ([0xc3; 0xbb], [0xfb]);
  ([0xc3; 0xbc], [0xfc]);
  ([0xc3; 0xbd], [0xfd]);
  ([0xc3; 0xbe], [0xfe]);
  ([0xc3; 0xbf], [0xff]);
  ([0xc3; 0x2013], [0xd6]);
  ([0xc3; 0x2014], [0xd7]);
  ([0xc3; 0x2018], [0xd1]);
  ([0xc3; 0x201c], [0xd3]);
  ([0xc3; 0x201e], [0xc4]);
  ([0xc3; 0x2021], [0xc7]);
  ([0xc3; 0x2022], [0xd5]);
  ([0xc3; 0x20ac], [0xc0]);
  ([0xc3; 0x153], [0xdc]);
  ([0xc3; 0x178], [0xdf]);
  ([0x192; 0xa0], []);
  ([0xc3; 0x160], [0xca]);
  ([0xc3; 0x161], [0xda]);
  ([0xc3; 0x192; 0xa1], [0xe1]);
  ([0xc3; 0x192; 0xa2], [0xe2]);
  ([0xc3; 0x192; 0xa4], [0xe4]);
  ([0xc3; 0x192; 0xa7], [0xe7]);
  ([0xc3; 0x192; 0xa8], [0xe8]);
  ([0xc3; 0x192; 0xa9], [0xe9]);
  ([0xc3; 0x192; 0xaa], [0xea]);
  ([0xc3; 0x192; 0xad], [0xed]);
  ([0xc3; 0x192; 0xb3], [0xf3]);
  ([0xc3; 0x192; 0xb5], [0xf5]);
  ([0xc3; 0x192; 0xb6], [0xf6]);
  ([0xc3; 0x192; 0xba], [0xfa]);
  ([0xc3; 0x192; 0xbb], [0xfb]);
  ([0xc3; 0x192; 0xbc], [0xfc]);
  ([0xc3; 0x192; 0xc5; 0x201c], [0xdc]);
  ([0xc3; 0x192; 0xe2; 0x20ac; 0xa2], [0xd5]);
  ([0xc3; 0x201a], []);
  ([0xc3; 0x2026; 0xc5; 0xb8], [0x15f]);
  ([0xc3; 0x2030; 0xe2; 0x20ac; 0xba], [0x25b]);
  ([0xc3; 0x2030], [0xc9]);
  ([0xc3], [0xe0]);
  ([0xc4; 0x20ac], [0x100]);
  ([0xc4; 0x2026], [0x105]);
  ([0xc4; 0x2021], [0x107]);
  ([0xc4; 0x2122], [0x119]);
  ([0xc4; 0x152], [0x10c]);
  ([0xc4; 0x17e], [0x11e]);
  ([0xc4; 0x178], [0x11f]);
  ([0xc4; 0xc5; 0xb8], [0x11f]);
  ([0xc4; 0xab], [0x12b]);
  ([0xc4; 0xb0], [0x130]);
  ([0xc4; 0xb1], [0x131]);
  ([0xc4; 0xbb], [0x13b]);
  ([0xc5; 0xba], [0x17a]);
  ([0xc5; 0xbe], [0x17e]);
  ([0xc5; 0x17e], [0x15e]);
  ([0xc5; 0x203a], [0x15b]);
  ([0xc5; 0x178], [0x15f]);
  ([0xc5; 0x2018], [0x151]);
  ([0xc9; 0x203a], [0x25b]);
  ([0xcc; 0x20ac], [0x300]);
  ([0xce; 0x201d], [0x394]);
  ([0xcf; 0x20ac], [0x3c0]);
  ([0xd1; 0x2c6], [0x448]);
  ([0xd7; 0x2018], [0x5d1]);
  ([0xd8; 0x178], [0x61f]);
  ([0xd8; 0xb5], [0x635]);
  ([0xd8; 0xad], [0x62d]);
  ([0xd8; 0xa4], [0x624]);
  ([0xd9; 0x160], [0x64a]);
  ([0xd9; 0x2026], [0x645]);
  ([0xd9; 0x2c6], [0x648]);
  ([0xd9; 0x2030], [0x649]);
  ([0xe0; 0xb6; 0x2021], [0xd87]);
  ([0xe0; 0xb6; 0x2026], [0xd85]);
  ([0xe1; 0xb9; 0x203a], [0x1e5b]);
  ([0xe1; 0xbb; 0x201c], [0x1ed3]);
  ([0xe1; 0xbb; 0x2026], [0x1ec5]);
  ([0xe1; 0xba; 0xbf], [0x1ebf]);
  ([0xe1; 0xbb; 0x178], [0x1edf]);
  ([0xe2; 0x2020; 0x2019], [0x2192]);
  ([0xe2; 0xcb; 0x2020; 0xe2; 0x20ac; 0xb0], [0x2209]);
  ([0xe2; 0x20ac; 0x153], [0x201c]);
  ([0xe2; 0x2c6; 0x2030], [0x2209]);
  ([0xe2; 0x2026; 0x2dc], [0x2158]);
  ([0xe2; 0x20ac; 0x2122], [0x2019]);
  ([0xe2; 0x2c6; 0x161], [0x221a]);
  ([0xe2; 0x2c6; 0x2c6], [0x2208]);
  ([0xe2; 0x2026; 0x2022], [0x2155]);
  ([0xe2; 0x2026; 0x2122], [0x2159]);
  ([0xe2; 0x20ac; 0x2dc], [0x2018]);
  ([0xe2; 0x20ac; 0x201d], [0x2014]);
  ([0xe2; 0x20ac; 0x2039], [0x200b]);
  ([0xe2; 0x20ac; 0xa6], [0x2026]);
  ([0xe2; 0x2014; 0xaf], [0x25ef]);
  ([0xe2; 0x20ac; 0x201c], [0x2013]);
  ([0xe2; 0x2026; 0x2013], [0x2156]);
  ([0xe2; 0x2026; 0x201d], [0x2154]);
  ([0xe2; 0x2030; 0xa4], [0x2264]);
  ([0xe2; 0x201a; 0xac], [0x20ac]);
  ([0xe2; 0x153; 0x2026], [0x2705]);
  ([0xe2; 0x17e; 0xa4], [0x27a4]);
  ([0xe2; 0x2dc; 0xba], [0x263a]);
  ([0xe2; 0x203a; 0xb1], [0x26f1]);
  ([0xe2; 0x20ac], [0x2020]);
  ([0xe2; 0x20ac; 0x201c], [0x2013]);
  ([0xe2; 0x20ac; 0xa6], [0x2026]);
  ([0xe2; 0xac; 0x2026], [0x2b05]);
  ([0xe3; 0x201a; 0x152], [0x308c]);
  ([0xe3; 0x201a; 0x2c6], [0x3088]);
  ([0xe3; 0x201a; 0x2020], [0x3086]);
  ([0xe3; 0x201a; 0x2030], [0x3089]);
  ([0xe3; 0x201a; 0x20ac], [0x3080]);
  ([0xe3; 0x201a; 0x201e], [0x3084]);
  ([0xe3; 0x201a; 0x201c], [0x3093]);
  ([0xe3; 0x201a; 0x201a], [0x3082]);
  ([0xe3; 0x201a; 0x2019], [0x3092]);
  ([0xe3; 0x201a; 0x160], [0x308a]);
  ([0xe4; 0xb8; 0x153], [0x4e1c]);
  ([0xe5; 0x152; 0x2014], [0x5317]);
  ([0xe5; 0x17d; 0xbb], [0x53bb]);
  ([0xe6; 0x201c; 0xa6], [0x64e6]);
  ([0xe6; 0x153; 0xa8], [0x6728]);
  ([0xe6; 0x2c6; 0x2018], [0x6211]);
  ([0xe6; 0x2dc; 0xaf], [0x662f]);
  ([0xe8; 0xa5; 0xbf], [0x897f]);
  ([0xe9; 0x201d; 0x2122], [0x9519]);
  ([0xef; 0xbc; 0x161], [0xff1a]);
  ([0xef; 0xbc; 0x178], [0xff1f]);
  ([0x2020; 0x201c], [0x2013]);
  ([0x2020; 0xa6], [0x2026]);
  ([0xcc44], [0xe4]);
  ([0xccb4], [0xfc]);
  ([0x89ba], [0x131]);
  ([0xce74], [0x12b]);
  ([0xe23; 0xe07], [0xe7]);
  ([0xe23; 0x97], [0xd7]);
  ([0xe23; 0xe17], [0xf7]);
  ([0xe23; 0xe16], [0xf6]);
  ([0xe23; 0xe13], [0xf3]);
  ([0xe23; 0xe1b], [0xfb]);
  ([0xf0; 0x178; 0x2dc; 0x2022], [0x1f615]);
  ([0xf0; 0x178; 0x2dc; 0x160], [0x1f60a]);
  ([0xf0; 0x178; 0x2dc; 0x2030], [0x1f609]);
  ([0xf0; 0x178; 0x2122; 0x201e], [0x1f644]);
  ([0xf0; 0x178; 0x2122; 0x201a], [0x1f642]);
  ([0x11f; 0x178; 0x2dc; 0x160], [0x1f60a]);
  ([0x11f; 0x178; 0x2019; 0xa1], [0x1f4a1]);
  ([0x11f; 0x178; 0x2dc; 0x2018], [0x1f611]);
  ([0x11f; 0x178; 0x2dc; 0x160], [0x1f60a]);
  ([0xf0; 0x178; 0x201d; 0x2013], [0x1f516]);
  ([0x11f; 0x178; 0x2dc; 0x2030], [0x1f609]);
  ([0xf0; 0x178; 0x2dc; 0x192], [0x1f603]);
  ([0xf0; 0x178; 0xa4; 0x2013], [0x1f916]);
  ([0xf0; 0x178; 0x201c; 0xb7], [0x1f4f7]);
  ([0xf0; 0x178; 0x2dc; 0x201a], [0x1f602]);
  ([0xf0; 0x178; 0x201c; 0x20ac], [0x1f4c0]);
  ([0xf0; 0x178; 0x2019; 0xbf], [0x1f4bf]);
  ([0xf0; 0x178; 0x2019; 0xaf], [0x1f4af]);
  ([0xf0; 0x178; 0x2019; 0xa1], [0x1f4a1]);
  ([0xf0; 0x178; 0x2018; 0x2039], [0x1f44b]);
  ([0xf0; 0x178; 0x2dc; 0xb1], [0x1f631]);
  ([0xf0; 0x178; 0x2dc; 0x2018], [0x1f611]);
  ([0xf0; 0x178; 0x2dc; 0x160], [0x1f60a]);
  ([0xf0; 0x178; 0x17d; 0xa7], [0x1f3a7]);
  ([0xf0; 0x178; 0x17d; 0x2122], [0x1f399]);
  ([0xf0; 0x178; 0x17d; 0xbc], [0x1f3bc]);
  ([0xf0; 0x178; 0x201c; 0xbb], [0x1f4fb]);
  ([0xf0; 0x178; 0xa4; 0xb3], [0x1f933]);
  ([0xf0; 0x178; 0x2018; 0x152], [0x1f44c]);
  ([0xf0; 0x178; 0x161; 0xa6], [0x1f6a6]);
  ([0xf0; 0x178; 0xa4; 0x2014], [0x1f917]);
  ([0xf0; 0x178; 0x2dc; 0x201e], [0x1f604]);
  ([0xf0; 0x178; 0x2018; 0x2030], [0x1f449]);
  ([0xf0; 0x178; 0x201c; 0xa1], [0x1f4e1]);
  ([0xf0; 0x178; 0x201c; 0xa3], [0x1f4e3]);
  ([0xf0; 0x178; 0x201c; 0xa2], [0x1f4e2]);
  ([0xf0; 0x178; 0x201d; 0x160], [0x1f50a]);
  ([0xf0; 0x178; 0x2dc; 0x17d], [0x1f60e]);
  ([0xf0; 0x178; 0x2dc; 0x2039], [0x1f60b]);
  ([0xf0; 0x178; 0x2dc; 0xb4], [0x1f634]);
  ([0xf0; 0x178; 0x2018; 0x2018], [0x1f451]);
  ([0xf0; 0x178; 0x2018; 0x2020], [0x1f446]);
  ([0xf0; 0x178; 0x2018; 0xae], [0x1f46e]);
  ([0xf0; 0x178; 0x201c; 0x201d], [0x1f4d4]);
  ([0xf0; 0x178; 0x201c; 0xbc], [0x1f4fc]);
  ([0xf0; 0x178; 0x2021; 0xa9], [0x1f1e9]);
  ([0xf0; 0x178; 0x2021; 0xaa], [0x1f1ea]);
  ([0xf0; 0x178; 0x2021; 0xac], [0x1f1ec]);
  ([0xf0; 0x178; 0x2021; 0xa7], [0x1f1e7]);
  ([0xf0; 0x178; 0x2021; 0xba], [0x1f1fa]);
  ([0xf0; 0x178; 0x2021; 0xb8], [0x1f1f8]);
  ([0xf0; 0x178; 0x2022; 0xb6], [0x1f576]);
  ([0xf0; 0x178; 0xa4; 0x201c], [0x1f913]);
  ([0xf0; 0x178; 0xa4; 0x201d], [0x1f914]);
  ([0xf0; 0x178; 0xa4; 0xa9], [0x1f929]);
  ([0xf0; 0x178; 0xa5; 0xba], [0x1f97a]);
  ([0xf0; 0x178; 0x2018; 0x2030], [0xd83d; 0xdc49]);
  ([0xf0; 0x178; 0x2018; 0x2030], [0xd83d; 0xdc49]);
  ([0xd83d; 0xdc49], [0x1f449]);
  ([0x9], []);
  ([0xa], []);
  ([0xa0], [0x20])
]%N.

(** [_replace_incorrectly_encoded_chars], on the serialized string. *)
Definition char_mapping_tuples : list (str * str) :=
  CHAR_MAPPINGS ++ [(py "&nbsp;", py " ")].

Definition apply_mappings (tuples : list (str * str)) (html_string : str) : str :=
  fold_left (λ acc '(bad_char, good_char), str_replace bad_char good_char acc)
            tuples html_string.

Definition replace_incorrectly_encoded_chars (html_string : str) : str :=
  apply_mappings char_mapping_tuples html_string.

(** ** Exceptions

    Fallible code returns a [result]; [Raise] carries the exception the
    Python code would propagate. *)

Inductive exn : Type :=
  | KeyError (key : str)
  | TypeError
  | AttributeError
  | ValueError
  | Exception (msg : str).

Inductive result (A : Type) : Type :=
  | Ok (a : A)
  | Raise (e : exn).
Arguments Ok {A} a.
Arguments Raise {A} e.

#[global] Instance result_ret : MRet result := λ A a, Ok a.
#[global] Instance result_bind : MBind result := λ A B f m,
  match m with
  | Ok a => f a
  | Raise e => Raise e
  end.

(** A [for] loop whose body may raise, threading the loop state. *)
Fixpoint for_each {A S : Type} (body : A → S → result S) (l : list A) (s : S)
  : result S :=
  match l with
  | [] => Ok s
  | a :: l' => s' ← body a s; for_each body l' s'
  end.

(** ** The node tree (the bs4 objects the module works on)

    A node is a text node, which has no name, or a tag with a name, an
    ordered attribute dictionary and an ordered sequence of children. *)

Inductive Node : Type :=
  | NavigableString (text : str)
  | Tag (name : str) (attrs : list (str * str)) (contents : list Node).

(** The parsed document; its own name is ["[document]"]. *)
Record BeautifulSoup : Type := Soup { soup_contents : list Node }.

Definition document_name : str := py "[document]".

(** [node.name]: [None] on a text node. *)
Definition node_name (n : Node) : option str :=
  match n with
  | NavigableString _ => None
  | Tag name _ _ => Some name
  end.

(** Python truthiness of [node.name]. *)
Definition name_is_truthy (n : Node) : bool :=
  match node_name n with
  | None => false
  | Some [] => false
  | Some (_ :: _) => true
  end.

(** What the module reads off a tag it iterates over: its name, its
    attributes, its children and the name of [tag.parent]. *)
Record Element : Type := MkElement {
  el_name : str;
  el_attrs : list (str * str);
  el_contents : list Node;
  el_parent : str
}.

(** The tags below a node in document order, the node itself first. *)
Fixpoint elements_of (parent : str) (n : Node) : list Element :=
  match n with
  | NavigableString _ => []
  | Tag name attrs contents =>
      MkElement name attrs contents parent ::
      (fix below (l : list Node) : list Element :=
         match l with
         | [] => []
         | c :: l' => elements_of name c ++ below l'
         end) contents
  end.

Definition elements_below (parent : str) (l : list Node) : list Element :=
  flat_map (elements_of parent) l.

(** [soup.findAll()] and [soup.findAll(name=...)]. *)
Definition findAll (soup : BeautifulSoup) : list Element :=
  elements_below document_name (soup_contents soup).

Definition findAll_name (name : str) (soup : BeautifulSoup) : list Element :=
  filter (λ e, el_name e = name) (findAll soup).

(** Attribute dictionaries: [key in attrs], [attrs[key]] / [tag.get(key)],
    [tag[key] = value] and [del tag[key]]. *)
Fixpoint attr_get (key : str) (attrs : list (str * str)) : option str :=
  match attrs with
  | [] => None
  | (k, v) :: attrs' => if decide (k = key) then Some v else attr_get key attrs'
  end.

Definition has_attr (key : str) (attrs : list (str * str)) : bool :=
  bool_decide (is_Some (attr_get key attrs)).

Fixpoint attr_set (key value : str) (attrs : list (str * str))
  : list (str * str) :=
  match attrs with
  | [] => [(key, value)]
  | (k, v) :: attrs' =>
      if decide (k = key) then (k, value) :: attrs'
      else (k, v) :: attr_set key value attrs'
  end.

Definition attr_del (key : str) (attrs : list (str * str)) : list (str * str) :=
  filter (λ kv, kv.1 ≠ key) attrs.

Definition getitem (key : str) (attrs : list (str * str)) : result str :=
  match attr_get key attrs with
  | Some v => Ok v
  | None => Raise (KeyError key)
  end.

(** ** JSON values, as [json.loads] returns them

    Numbers play no part in the module beyond not being strings, lists
    or dicts; they are kept as integers. *)

Inductive json : Type :=
  | JNull
  | JBool (b : bool)
  | JNumber (z : Z)
  | JString (s : str)
  | JArray (items : list json)
  | JObject (fields : list (str * json)).

(** Iterating a decoded value: a list yields its items, a string its
    characters, a dict its keys; anything else is not iterable. *)
Definition json_iter (j : json) : result (list json) :=
  match j with
  | JArray items => Ok items
  | JString s => Ok ((λ c, JString [c]) <$> s)
  | JObject fields => Ok ((λ kv, JString kv.1) <$> fields)
  | _ => Raise TypeError
  end.

Fixpoint fields_get (key : str) (fields : list (str * json)) : option json :=
  match fields with
  | [] => None
  | (k, v) :: fields' =>
      if decide (k = key) then Some v else fields_get key fields'
  end.

(** [value[key]] with a string key. *)
Definition json_getitem (key : str) (j : json) : result json :=
  match j with
  | JObject fields =>
      match fields_get key fields with
      | Some v => Ok v
      | None => Raise (KeyError key)
      end
  | _ => Raise TypeError
  end.

(** A decoded value used as a string ([value.replace(...)]); only a
    string has that method. *)
Definition json_as_str (j : json) : result str :=
  match j with
  | JString s => Ok s
  | _ => Raise AttributeError
  end.

(** ** Tag grammar validation *)

(** One entry of [feconf.RTE_CONTENT_SPEC]. *)
Record rte_content_spec : Type := {
  ALLOWED_PARENT_LIST : gmap str (list str);
  ALLOWED_TAG_LIST : list str
}.

(** [err_dict[key].append(value)], creating the list when the key is new. *)
Definition err_append (key value : str) (err_dict : gmap str (list str))
  : gmap str (list str) :=
  match err_dict !! key with
  | Some values => <[key := values ++ [value]]> err_dict
  | None => <[key := [value]]> err_dict
  end.

Section TagGrammar.
(** [feconf] is not part of the module: the format key and the two
    grammar variants are taken as given. *)
Variable RTE_FORMAT_TEXTANGULAR : str.
Variable RTE_TYPE_TEXTANGULAR RTE_TYPE_CKEDITOR : rte_content_spec.

(** The parser, the HTML unescaping and the JSON decoder are external. *)
Variable html_parser : str → BeautifulSoup.
Variable unescape_html : str → str.
Variable json_loads : str → result json.

Definition rte_spec_for (rte_format : str) : rte_content_spec :=
  if decide (rte_format = RTE_FORMAT_TEXTANGULAR)
  then RTE_TYPE_TEXTANGULAR else RTE_TYPE_CKEDITOR.

(** The body of the loop over [soup.findAll()] (lines 493-510). *)
Definition validate_tag (spec : rte_content_spec) (tag : Element)
    (st : bool * gmap str (list str)) : result (bool * gmap str (list str)) :=
  let allowed_tag_list := ALLOWED_TAG_LIST spec in
  let allowed_parent_list := ALLOWED_PARENT_LIST spec in
  let '(is_invalid, err_dict) := st in
  let '(is_invalid, err_dict) :=
    if bool_decide (el_name tag ∈ allowed_tag_list)
    then (is_invalid, err_dict)
    else (true, err_append (py "invalidTags") (el_name tag) err_dict) in
  let parent := el_parent tag in
  if bool_decide (el_name tag ∈ allowed_tag_list) then
    match allowed_parent_list !! el_name tag with
    | None => Raise (KeyError (el_name tag))
    | Some parents =>
        if bool_decide (parent ∈ parents)
        then Ok (is_invalid, err_dict)
        else Ok (true, err_append (el_name tag) parent err_dict)
    end
  else Ok (is_invalid, err_dict).

Definition validate_soup_for_rte (soup : BeautifulSoup) (rte_format : str)
    (err_dict : gmap str (list str)) : result (bool * gmap str (list str)) :=
  let spec := rte_spec_for rte_format in
  let is_invalid := existsb (λ content, negb (name_is_truthy content))
                            (soup_contents soup) in
  for_each (validate_tag spec) (findAll soup) (is_invalid, err_dict).

Definition br_open : str := py "<br>".
Definition br_closed : str := py "<br/>".

Definition strings_append (is_invalid : bool) (html_data : str)
    (err_dict : gmap str (list str)) : gmap str (list str) :=
  if is_invalid then err_append (py "strings") html_data err_dict
  else err_dict.

(** The body of the loop over the collapsible tags (lines 430-443). *)
Definition validate_collapsible (rte_format html_data : str)
    (collapsible : Element) (err_dict : gmap str (list str))
    : result (gmap str (list str)) :=
  let key := py "content-with-value" in
  '(is_invalid, err_dict) ←
    (if negb (has_attr key (el_attrs collapsible))
        || bool_decide (attr_get key (el_attrs collapsible) = Some [])
     then Ok (true, err_dict)
     else
       value ← getitem key (el_attrs collapsible);
       decoded ← json_loads (unescape_html value);
       content_html ← json_as_str decoded;
       let soup_for_collapsible :=
         html_parser (str_replace br_open br_closed content_html) in
       validate_soup_for_rte soup_for_collapsible rte_format err_dict);
  Ok (strings_append is_invalid html_data err_dict).

(** The body of the loop over one tab of a tabs tag (lines 449-456). *)
Definition validate_tab (rte_format html_data : str) (tab_content : json)
    (err_dict : gmap str (list str)) : result (gmap str (list str)) :=
  content ← json_getitem (py "content") tab_content;
  content_html ← json_as_str content;
  let soup_for_tabs :=
    html_parser (str_replace br_open br_closed content_html) in
  '(is_invalid, err_dict) ←
    validate_soup_for_rte soup_for_tabs rte_format err_dict;
  Ok (strings_append is_invalid html_data err_dict).

Definition validate_tabs (rte_format html_data : str) (tabs : Element)
    (err_dict : gmap str (list str)) : result (gmap str (list str)) :=
  value ← getitem (py "tab_contents-with-value") (el_attrs tabs);
  tab_content_list ← json_loads (unescape_html value);
  items ← json_iter tab_content_list;
  for_each (validate_tab rte_format html_data) items err_dict.

(** The body of the loop over [html_list] (lines 415-456). *)
Definition validate_html_data (rte_format html_data : str)
    (err_dict : gmap str (list str)) : result (gmap str (list str)) :=
  let soup := html_parser (str_replace br_open br_closed html_data) in
  '(is_invalid, err_dict) ← validate_soup_for_rte soup rte_format err_dict;
  let err_dict := strings_append is_invalid html_data err_dict in
  err_dict ←
    for_each (validate_collapsible rte_format html_data)
             (findAll_name (py "oppia-noninteractive-collapsible") soup)
             err_dict;
  for_each (validate_tabs rte_format html_data)
           (findAll_name (py "oppia-noninteractive-tabs") soup) err_dict.

(** [list(set(values))]: the values without repetition (the order of a
    Python set is unspecified; the order of the finite set is used). *)
Definition list_set (values : list str) : list str :=
  elements (list_to_set values : gset str).

Definition validate_rte_format (html_list : list str) (rte_format : str)
    : result (gmap str (list str)) :=
  let err_dict : gmap str (list str) := <[py "strings" := []]> ∅ in
  err_dict ← for_each (validate_html_data rte_format) html_list err_dict;
  Ok (list_set <$> (err_dict : gmap str (list str))).

End TagGrammar.


(** ** SVG sanitization *)

Section Svg.
Variable html_parser : str → BeautifulSoup.
(** [constants.SVG_ATTRS_ALLOWLIST] and Python's [str.lower]. *)
Variable SVG_ATTRS_ALLOWLIST : gmap str (list str).
Variable lower : str → str.

(** [does_svg_tag_contains_xmlns_attribute], after parsing. *)
Definition soup_svg_tags_contain_xmlns (soup : BeautifulSoup) : bool :=
  forallb (λ svg_tag, bool_decide (attr_get (py "xmlns") (el_attrs svg_tag) ≠ None))
          (findAll_name (py "svg") soup).

Definition does_svg_tag_contains_xmlns_attribute (svg_string : str) : bool :=
  soup_svg_tags_contain_xmlns (html_parser svg_string).

(** ['%s:%s' % (element.name, attr)] *)
Definition tag_attr_ref (name attr : str) : str := name ++ py ":" ++ attr.

(** The inner loop over [element.attrs] (lines 718-721). *)
Definition check_attr (name : str) (allowed : list str)
    (invalid_attrs : list str) (attr : str) : list str :=
  if bool_decide (lower attr ∈ allowed) then invalid_attrs
  else invalid_attrs ++ [tag_attr_ref name attr].

(** The body of the loop over [soup.find_all()] (lines 717-723). *)
Definition check_element (acc : list str * list str) (element : Element)
    : list str * list str :=
  let '(invalid_elements, invalid_attrs) := acc in
  match SVG_ATTRS_ALLOWLIST !! lower (el_name element) with
  | Some allowed =>
      (invalid_elements,
       fold_left (check_attr (el_name element) allowed)
                 ((el_attrs element).*1) invalid_attrs)
  | None => (invalid_elements ++ [el_name element], invalid_attrs)
  end.

Definition soup_invalid_svg_tags_and_attrs (soup : BeautifulSoup)
    : list str * list str :=
  fold_left check_element (findAll soup) ([], []).

Definition get_invalid_svg_tags_and_attrs (svg_string : str)
    : list str * list str :=
  soup_invalid_svg_tags_and_attrs (html_parser svg_string).
End Svg.

(** ** Math schema migration *)

Definition math_tag_name : str := py "oppia-noninteractive-math".
Definition raw_latex_attr : str := py "raw_latex-with-value".
Definition svg_filename_attr : str := py "svg_filename-with-value".
Definition math_content_attr : str := py "math_content-with-value".

(** [{'raw_latex': ..., 'svg_filename': ...}] *)
Definition math_content_dict (raw_latex svg_filename : str) : json :=
  JObject [(py "raw_latex", JString raw_latex);
           (py "svg_filename", JString svg_filename)].

(** What the loop body does to the tag it holds. *)
Inductive tag_outcome : Type :=
  | Kept (attrs : list (str * str))
  | Decomposed.

Definition is_math_tag (n : Node) : bool :=
  bool_decide (node_name n = Some math_tag_name).

(** Whether a math tag lies anywhere below the given nodes. *)
Fixpoint has_math_tag (n : Node) : bool :=
  match n with
  | NavigableString _ => false
  | Tag name _ contents =>
      bool_decide (name = math_tag_name)
      || (fix any (l : list Node) : bool :=
            match l with
            | [] => false
            | c :: l' => has_math_tag c || any l'
            end) contents
  end.

Section Migration.
(** External collaborators: HTML (un)escaping, the JSON codec
    ([json_dumps] stands for [json.dumps(_, sort_keys=True)]), the two
    object normalizers, the parser and the serializer [str(soup)]. *)
Variable unescape_html escape_html : str → str.
Variable json_loads : str → result json.
Variable json_dumps : json → str.
Variable UnicodeString_normalize : json → result str.
Variable MathExpressionContent_normalize : json → result json.
Variable html_parser : str → BeautifulSoup.
Variable serialize : BeautifulSoup → str.
(** [decompose()] destroys the tag and everything below it, yet the
    tags below it are still in the result set the loop iterates over.
    What bs4 does when the loop body reaches such a destroyed tag is
    settled inside bs4: [Some e] if touching it raises [e], [None] if
    the loop passes over it without effect. *)
Variable destroyed_tag_access : option exn.

(** The body of the loop over the math tags (lines 785-841), on the
    attributes of the tag. *)
Definition migrate_math_tag (attrs : list (str * str)) : result tag_outcome :=
  if has_attr raw_latex_attr attrs then
    value ← getitem raw_latex_attr attrs;
    match value with
    | [] => Ok Decomposed
    | _ :: _ =>
        raw_latex ← json_loads (unescape_html value);
        normalized_raw_latex ← UnicodeString_normalize raw_latex;
        '(content, attrs) ←
          (if has_attr svg_filename_attr attrs then
             svg_value ← getitem svg_filename_attr attrs;
             svg_filename ← json_loads (unescape_html svg_value);
             normalized_svg_filename ← UnicodeString_normalize svg_filename;
             Ok (math_content_dict normalized_raw_latex normalized_svg_filename,
                 attr_del svg_filename_attr attrs)
           else Ok (math_content_dict normalized_raw_latex [], attrs));
        normalized_math_content_dict ← MathExpressionContent_normalize content;
        let attrs :=
          attr_set math_content_attr
                   (escape_html (json_dumps normalized_math_content_dict))
                   attrs in
        Ok (Kept (attr_del raw_latex_attr attrs))
    end
  else if has_attr math_content_attr attrs then Ok (Kept attrs)
  else Ok Decomposed.

(** After [decompose()] the loop goes on to the math tags that were
    below the destroyed one, if any. *)
Definition after_decompose (contents : list Node) : result (list Node) :=
  if existsb has_math_tag contents then
    match destroyed_tag_access with
    | Some e => Raise e
    | None => Ok []
    end
  else Ok [].

(** The loop over [soup.findAll(name='oppia-noninteractive-math')] as
    one pass over the tree in document order: a tag is handled before
    the tags below it, and a decomposed tag leaves nothing behind. *)
Fixpoint migrate_node (n : Node) : result (list Node) :=
  match n with
  | NavigableString _ => Ok [n]
  | Tag name attrs contents =>
      let migrate_nodes :=
        fix migrate_nodes (l : list Node) : result (list Node) :=
          match l with
          | [] => Ok []
          | c :: l' =>
              c' ← migrate_node c;
              l'' ← migrate_nodes l';
              Ok (c' ++ l'')
          end in
      if decide (name = math_tag_name) then
        outcome ← migrate_math_tag attrs;
        match outcome with
        | Decomposed => after_decompose contents
        | Kept attrs' =>
            contents' ← migrate_nodes contents;
            Ok [Tag name attrs' contents']
        end
      else
        contents' ← migrate_nodes contents;
        Ok [Tag name attrs contents']
  end.

Fixpoint migrate_nodes (l : list Node) : result (list Node) :=
  match l with
  | [] => Ok []
  | c :: l' =>
      c' ← migrate_node c;
      l'' ← migrate_nodes l';
      Ok (c' ++ l'')
  end.

Definition add_math_content_to_soup (soup : BeautifulSoup)
    : result BeautifulSoup :=
  contents ← migrate_nodes (soup_contents soup);
  Ok (Soup contents).

Definition add_math_content_to_math_rte_components (html_string : str)
    : result str :=
  soup ← add_math_content_to_soup (html_parser html_string);
  Ok (str_replace (py "<br/>") (py "<br>") (serialize soup)).
End Migration.


(** ** Sibling wrapping *)

Definition independent_parents : list str :=
  [py "h1"; py "p"; py "pre"; py "ol"; py "ul"; py "blockquote"].

(** [sib.name in independent_parents]; a text node has no name. *)
Definition is_independent (sib : Node) : bool :=
  match node_name sib with
  | Some name => bool_decide (name ∈ independent_parents)
  | None => false
  end.

(** The children of the common parent while the wrapper is being
    filled.  bs4 tells nodes apart by identity, so every original
    sibling carries its position in the original child list; the wrapper
    [p] is one object, whose contents are kept beside the list. *)
Inductive child : Type :=
  | Sibling (id : nat) (node : Node)
  | Wrapper.

Record family : Type := Family {
  fam_children : list child;
  fam_wrapped : list Node
}.

(** [parent.index(sib)], by identity, with the node found. *)
Fixpoint find_sibling (id : nat) (l : list child) : option (nat * Node) :=
  match l with
  | [] => None
  | Sibling i node :: l' =>
      if decide (i = id) then Some (0, node)
      else '(k, n) ← find_sibling id l'; Some (S k, n)
  | Wrapper :: l' => '(k, n) ← find_sibling id l'; Some (S k, n)
  end.

Fixpoint find_wrapper (l : list child) : option nat :=
  match l with
  | [] => None
  | Wrapper :: _ => Some 0
  | Sibling _ _ :: l' => S <$> find_wrapper l'
  end.

(** [list.insert(position, x)] for a position that is not negative. *)
Definition list_insert_at {A : Type} (position : nat) (x : A) (l : list A)
  : list A :=
  take position l ++ x :: drop position l.

(** [sib.wrap(p)] is [sib.replace_with(p)] followed by [p.append(sib)]:
    the sibling is taken out of its parent, [p] is inserted where it
    was, being moved there if it already sits among the children (one
    place earlier when it comes from before that position), and the
    sibling becomes the last child of [p]. *)
Definition wrap (id : nat) (st : family) : result family :=
  match find_sibling id (fam_children st) with
  | None => Raise ValueError
  | Some (my_index, me) =>
      let contents := delete my_index (fam_children st) in
      let position := my_index `min` length contents in
      let '(position, contents) :=
        match find_wrapper contents with
        | Some current_index =>
            (if bool_decide (current_index < position)
             then position - 1 else position,
             delete current_index contents)
        | None => (position, contents)
        end in
      Ok (Family (list_insert_at position Wrapper contents)
                 (fam_wrapped st ++ [me]))
  end.

(** [enumerate]: the items with their index, from [start]. *)
Fixpoint enumerate {A : Type} (start : nat) (l : list A) : list (nat * A) :=
  match l with
  | [] => []
  | a :: l' => (start, a) :: enumerate (S start) l'
  end.

(** The first loop (lines 56-59): the index, counted from the front of
    the parent, after the closest preceding sibling that can stand on
    its own; [-1] when there is none. *)
Fixpoint first_unwrapped_sibling (len : nat) (prev_sib : list (nat * (nat * Node)))
  : Z :=
  match prev_sib with
  | [] => (-1)%Z
  | (index, (_, sib)) :: rest =>
      if is_independent sib then (Z.of_nat len - Z.of_nat index)%Z
      else first_unwrapped_sibling len rest
  end.

(** The second loop (lines 63-65). *)
Definition wrap_previous (index_of_first_unwrapped_sibling : Z)
    (item : nat * (nat * Node)) (st : family) : result family :=
  let '(index, (id, _)) := item in
  if bool_decide (index_of_first_unwrapped_sibling ≤ Z.of_nat index)%Z
  then wrap id st else Ok st.

(** The last loop (lines 72-76), which stops at the first following
    sibling that can stand on its own. *)
Fixpoint wrap_next (next_sib : list (nat * Node)) (st : family) : result family :=
  match next_sib with
  | [] => Ok st
  | (id, sib) :: rest =>
      if negb (is_independent sib) then st' ← wrap id st; wrap_next rest st'
      else Ok st
  end.

(** The children of the parent once the wrapper has its contents. *)
Definition render (p_name : str) (p_attrs : list (str * str)) (st : family)
  : list Node :=
  (λ c, match c with
        | Sibling _ node => node
        | Wrapper => Tag p_name p_attrs (fam_wrapped st)
        end) <$> fam_children st.

(** [wrap_with_siblings(tag, p)], where [tag] stands between the
    siblings [before] and [after] under its parent and [p] is a tag that
    is not yet part of the tree.  The result is the parent's new child
    list. *)
Definition wrap_with_siblings (before : list Node) (tag : Node)
    (after : list Node) (p_name : str) (p_attrs : list (str * str))
    (p_contents : list Node) : result (list Node) :=
  let children := enumerate 0 (before ++ tag :: after) in
  let prev_sib := reverse (take (length before) children) in
  let next_sib := drop (S (length before)) children in
  let index_of_first_unwrapped_sibling :=
    first_unwrapped_sibling (length prev_sib) (enumerate 0 prev_sib) in
  let st := Family ((λ c, Sibling c.1 c.2) <$> children) p_contents in
  st ← for_each (wrap_previous index_of_first_unwrapped_sibling)
                (enumerate 0 (reverse prev_sib)) st;
  st ← wrap (length before) st;
  st ← wrap_next next_sib st;
  Ok (render p_name p_attrs st).


(** ** The structural transformer and character repair *)

Definition collapsible_tag_name : str := py "oppia-noninteractive-collapsible".
Definition tabs_tag_name : str := py "oppia-noninteractive-tabs".
Definition content_attr : str := py "content-with-value".
Definition tab_contents_attr : str := py "tab_contents-with-value".

(** [fields[key] = value] on a decoded dict. *)
Fixpoint fields_set (key : str) (value : json) (fields : list (str * json))
  : list (str * json) :=
  match fields with
  | [] => [(key, value)]
  | (k, v) :: fields' =>
      if decide (k = key) then (k, value) :: fields'
      else (k, v) :: fields_set key value fields'
  end.

(** A loop over [soup.findAll(name=...)] whose body rewrites the
    attributes of the tag it holds, as one pass in document order. *)
Fixpoint update_tags (name : str)
    (body : list (str * str) → result (list (str * str))) (n : Node)
  : result Node :=
  match n with
  | NavigableString _ => Ok n
  | Tag tag_name attrs contents =>
      attrs' ← (if decide (tag_name = name) then body attrs else Ok attrs);
      contents' ←
        (fix below (l : list Node) : result (list Node) :=
           match l with
           | [] => Ok []
           | c :: l' =>
               c' ← update_tags name body c;
               l'' ← below l';
               Ok (c' :: l'')
           end) contents;
      Ok (Tag tag_name attrs' contents')
  end.

Fixpoint map_result {A B : Type} (f : A → result B) (l : list A)
  : result (list B) :=
  match l with
  | [] => Ok []
  | a :: l' => b ← f a; l'' ← map_result f l'; Ok (b :: l'')
  end.

Section Transformer.
Variable html_parser : str → BeautifulSoup.
Variable serialize : BeautifulSoup → str.
Variable unescape_html escape_html : str → str.
Variable json_loads : str → result json.
Variable json_dumps : json → str.

(** The serialized subtree goes through every rule of the table. *)
Definition _replace_incorrectly_encoded_chars (soup_context : BeautifulSoup)
    : str :=
  replace_incorrectly_encoded_chars (serialize soup_context).

Section Process.
Variable conversion_fn : BeautifulSoup → str.

Definition convert_nested (content_html : str) : str :=
  str_replace (py "<br/>") (py "<br>")
    (conversion_fn
       (html_parser (str_replace (py "<br>") (py "<br/>") content_html))).

(** Lines 1028-1036. *)
Definition process_collapsible (attrs : list (str * str))
    : result (list (str * str)) :=
  if has_attr content_attr attrs then
    value ← getitem content_attr attrs;
    decoded ← json_loads (unescape_html value);
    content_html ← json_as_str decoded;
    Ok (attr_set content_attr
          (escape_html (json_dumps (JString (convert_nested content_html))))
          attrs)
  else Ok attrs.

(** Lines 1042-1048, on one entry of the decoded list. *)
Definition process_tab (tab_content : json) : result json :=
  content ← json_getitem (py "content") tab_content;
  content_html ← json_as_str content;
  match tab_content with
  | JObject fields =>
      Ok (JObject (fields_set (py "content")
                              (JString (convert_nested content_html)) fields))
  | _ => Raise TypeError
  end.

(** Lines 1039-1050. *)
Definition process_tabs (attrs : list (str * str))
    : result (list (str * str)) :=
  value ← getitem tab_contents_attr attrs;
  tab_content_list ← json_loads (unescape_html value);
  tab_content_list' ←
    match tab_content_list with
    | JArray items => items' ← map_result process_tab items; Ok (JArray items')
    | _ =>
        items ← json_iter tab_content_list;
        _ ← map_result process_tab items;
        Ok tab_content_list
    end;
  Ok (attr_set tab_contents_attr
        (escape_html (json_dumps tab_content_list')) attrs).

Definition _process_string_with_components (html_string : str)
    : result str :=
  let soup := html_parser html_string in
  contents ← map_result (update_tags collapsible_tag_name process_collapsible)
                        (soup_contents soup);
  contents ← map_result (update_tags tabs_tag_name process_tabs) contents;
  Ok (conversion_fn (Soup contents)).
End Process.

Definition fix_incorrectly_encoded_chars (html_string : str) : result str :=
  _process_string_with_components _replace_incorrectly_encoded_chars
                                  html_string.
End Transformer.

(** ** Auxiliary notions used to state the properties *)

Definition is_ascii (s : str) : Prop := Forall (λ c, (c < 128)%N) s.

(** The values recorded under a key of the error report. *)
Definition bucket (key : str) (err_dict : gmap str (list str)) : list str :=
  default [] (err_dict !! key).

(** A soup is grammatical when it has no top-level node without a name
    and every tag is allowed and sits under a permitted parent. *)
Definition grammatical (spec : rte_content_spec) (soup : BeautifulSoup) : Prop :=
  Forall (λ content, name_is_truthy content = true) (soup_contents soup) ∧
  Forall (λ tag,
            el_name tag ∈ ALLOWED_TAG_LIST spec ∧
            ∃ parents, ALLOWED_PARENT_LIST spec !! el_name tag = Some parents ∧
                       el_parent tag ∈ parents)
         (findAll soup).

(** Per-element description of the SVG report, in the words of the
    specification: an element with an unknown tag contributes its name
    to the invalid elements and nothing else; a known one contributes
    ["tag:attribute"] for each attribute outside the tag's allowed set. *)
Definition spec_invalid_element (allowlist : gmap str (list str))
    (lower : str → str) (element : Element) : list str :=
  match allowlist !! lower (el_name element) with
  | Some _ => []
  | None => [el_name element]
  end.

Definition spec_invalid_attrs (allowlist : gmap str (list str))
    (lower : str → str) (element : Element) : list str :=
  match allowlist !! lower (el_name element) with
  | Some allowed =>
      (λ attr, tag_attr_ref (el_name element) attr) <$>
      filter (λ attr, lower attr ∉ allowed) ((el_attrs element).*1)
  | None => []
  end.

(** The run of siblings next to the tag that the wrapper absorbs:
    [absorbed_after] is the longest prefix without a self-sufficient
    block tag, [absorbed_before] the longest such suffix. *)
Fixpoint absorbed_after (after : list Node) : list Node :=
  match after with
  | [] => []
  | sib :: rest => if is_independent sib then [] else sib :: absorbed_after rest
  end.

Definition absorbed_before (before : list Node) : list Node :=
  reverse (absorbed_after (reverse before)).

(** ** Stand-ins for the external collaborators

    Used only to run the definitions on concrete inputs. *)

(** A parser given by a table of known documents; any other input is
    taken as markup-free text, which parses to a single text node. *)
Fixpoint sample_parser (known : list (str * BeautifulSoup)) (s : str)
  : BeautifulSoup :=
  match known with
  | [] => Soup [NavigableString s]
  | (k, soup) :: known' => if decide (k = s) then soup else sample_parser known' s
  end.

(** Serializer for documents made of text nodes only. *)
Definition sample_serialize (soup : BeautifulSoup) : str :=
  flat_map (λ n, match n with NavigableString text => text | Tag _ _ _ => [] end)
           (soup_contents soup).

(** A JSON codec that knows string literals only: ["..."]. *)
Definition quote : N := 34%N.

Definition sample_json_loads (s : str) : result json :=
  match s with
  | q :: rest =>
      match reverse rest with
      | q' :: inner =>
          if decide (q = quote ∧ q' = quote) then Ok (JString (reverse inner))
          else Raise ValueError
      | [] => Raise ValueError
      end
  | [] => Raise ValueError
  end.

Definition sample_json_dumps (j : json) : str :=
  match j with
  | JString s => quote :: s ++ [quote]
  | JObject [(_, JString a); (_, JString b)] =>
      py "{" ++ a ++ py "," ++ b ++ py "}"
  | _ => py "null"
  end.

Definition sample_normalize (j : json) : result str :=
  match j with
  | JString s => Ok s
  | _ => Raise (Exception (py "Expected unicode string"))
  end.

Definition sample_lower (s : str) : str :=
  (λ c, if bool_decide (65 ≤ c ∧ c ≤ 90)%N then (c + 32)%N else c) <$> s.

Definition leaf (name : string) : Node := Tag (py name) [] [].


(** Validity of a whole fragment for [validate_rte_format]: the
    fragment is grammatical, every collapsible carries non-empty
    content that decodes to a grammatical fragment, and every tab of
    every tabs tag does too. *)
Section FragmentValidity.
Variable html_parser : str → BeautifulSoup.
Variable unescape_html : str → str.
Variable json_loads : str → result json.
Variable spec : rte_content_spec.

Definition nested_grammatical (content_html : str) : Prop :=
  grammatical spec (html_parser (str_replace br_open br_closed content_html)).

Definition collapsible_valid (collapsible : Element) : Prop :=
  ∃ value content_html,
    attr_get content_attr (el_attrs collapsible) = Some value ∧
    value ≠ [] ∧
    json_loads (unescape_html value) = Ok (JString content_html) ∧
    nested_grammatical content_html.

Definition tab_valid (tab_content : json) : Prop :=
  ∃ content_html,
    json_getitem (py "content") tab_content = Ok (JString content_html) ∧
    nested_grammatical content_html.

Definition tabs_valid (tabs : Element) : Prop :=
  ∃ value tab_content_list items,
    attr_get tab_contents_attr (el_attrs tabs) = Some value ∧
    json_loads (unescape_html value) = Ok tab_content_list ∧
    json_iter tab_content_list = Ok items ∧
    Forall tab_valid items.

Definition fragment_valid (html_data : str) : Prop :=
  let soup := html_parser (str_replace br_open br_closed html_data) in
  grammatical spec soup ∧
  Forall collapsible_valid (findAll_name collapsible_tag_name soup) ∧
  Forall tabs_valid (findAll_name tabs_tag_name soup).
End FragmentValidity.

Definition invalid_tags_key : str := py "invalidTags".

Section Report.
Variable spec : rte_content_spec.

(** What one tag leaves in the report, by the design of the loop. *)
Definition tag_recorded (tag : Element) (is_invalid : bool)
    (err_dict : gmap str (list str)) : Prop :=
  (el_name tag ∉ ALLOWED_TAG_LIST spec →
     el_name tag ∈ bucket invalid_tags_key err_dict ∧ is_invalid = true) ∧
  (el_name tag ∈ ALLOWED_TAG_LIST spec →
     ∀ parents, ALLOWED_PARENT_LIST spec !! el_name tag = Some parents →
                el_parent tag ∉ parents →
     el_parent tag ∈ bucket (el_name tag) err_dict ∧ is_invalid = true).

(** How the report may grow from one state of the loop to a later one. *)
Definition report_extends (st st' : bool * gmap str (list str)) : Prop :=
  (st.1 = true → st'.1 = true) ∧
  (∀ key x, x ∈ bucket key st.2 → x ∈ bucket key st'.2) ∧
  (∀ key, key ∉ ALLOWED_TAG_LIST spec → key ≠ invalid_tags_key →
          st'.2 !! key = st.2 !! key).
End Report.

(** Sample grammar and documents. *)
Definition sample_spec : rte_content_spec := {|
  ALLOWED_PARENT_LIST :=
    <[py "p" := [document_name]]>
      (<[py "b" := [py "p"]]>
         (<[collapsible_tag_name := [document_name]]>
            (<[py "foo" := [py "p"]]> ∅)));
  ALLOWED_TAG_LIST := [py "p"; py "b"; collapsible_tag_name]
|}.

Definition sample_html : str := py "<p><b>hi</b></p>".
Definition sample_soup : BeautifulSoup :=
  Soup [Tag (py "p") [] [Tag (py "b") [] [NavigableString (py "hi")]]].

Definition bare_collapsible_html : str :=
  py "<oppia-noninteractive-collapsible></oppia-noninteractive-collapsible>".
Definition bare_collapsible_soup : BeautifulSoup :=
  Soup [Tag collapsible_tag_name [] []].

Definition sample_documents : list (str * BeautifulSoup) :=
  [(sample_html, sample_soup); (bare_collapsible_html, bare_collapsible_soup)].


(** ** Notions used for the character repair *)

(** Occurrences of [old] anywhere in [s]. *)
Fixpoint has_match (old s : str) : bool :=
  match s with
  | [] => false
  | _ :: s' => startswith old s || has_match old s'
  end.

Definition tab_rule : str * str := ([9%N], []).
Definition newline_rule : str * str := ([10%N], []).
Definition nbsp_rule : str * str := (py "&nbsp;", py " ").

Definition space_rule : str * str := ([160%N], [32%N]).

(** The characters with which the pattern of a rule that rewrites the
    string begins, the three closing one-character rules apart: the
    lead characters of the mis-encoded sequences. *)
Definition lead_chars : list N :=
  filter (λ c, c ∉ [9; 10; 160]%N)
    (flat_map (λ rule : str * str,
                 if decide (rule.1 = rule.2) then []
                 else match rule.1 with
                      | o :: _ => [o]
                      | [] => []
                      end)
              CHAR_MAPPINGS).

Definition free_of_lead_chars (s : str) : Prop :=
  Forall (λ c, c ∉ lead_chars) s.

(** A rule that cannot change a string free of lead characters. *)
Definition inert (rule : str * str) : bool :=
  match rule.1 with
  | o :: _ => bool_decide (rule.1 = rule.2) || bool_decide (o ∈ lead_chars)
  | [] => false
  end.

(** What the rule chain does to a string free of lead characters. *)
Definition plain_repair (s : str) : str :=
  replace_from (py "&nbsp;") (py " ") 0
    ((λ x, if decide (x = 160%N) then 32%N else x) <$>
     filter (λ x, x ≠ 10%N) (filter (λ x, x ≠ 9%N) s)).

Definition plain_sample : str :=
  py "x&nb" ++ [9%N] ++ py "sp;y" ++ [10; 0x3b1; 160; 0x20ac]%N.

Definition sample_format : str := py "text-angular".


(** ** Notions used for the math migration *)

(** A math tag is settled when it carries the new attribute and not the
    legacy one; a tree is settled when all its math tags are. *)
Definition attrs_settled (attrs : list (str * str)) : bool :=
  negb (has_attr raw_latex_attr attrs) && has_attr math_content_attr attrs.

Fixpoint settled (n : Node) : bool :=
  match n with
  | NavigableString _ => true
  | Tag name attrs contents =>
      (if decide (name = math_tag_name) then attrs_settled attrs else true)
      && (fix all (l : list Node) : bool :=
            match l with
            | [] => true
            | c :: l' => settled c && all l'
            end) contents
  end.

(** No math tag lies below another math tag. *)
Fixpoint nesting_free (n : Node) : bool :=
  match n with
  | NavigableString _ => true
  | Tag name attrs contents =>
      (if decide (name = math_tag_name)
       then negb (existsb has_math_tag contents) else true)
      && (fix all (l : list Node) : bool :=
            match l with
            | [] => true
            | c :: l' => nesting_free c && all l'
            end) contents
  end.

(** Sample math documents. *)
Definition legacy_math_attrs : list (str * str) :=
  [(raw_latex_attr, quote :: py "x^2" ++ [quote])].

Definition legacy_math_soup : BeautifulSoup :=
  Soup [Tag (py "p") []
          [NavigableString (py "a"); Tag math_tag_name legacy_math_attrs []]].

Definition broken_math_soup : BeautifulSoup :=
  Soup [Tag (py "p") []
          [Tag math_tag_name [(py "class", py "c")] [];
           NavigableString (py "a");
           Tag math_tag_name [(raw_latex_attr, [])] []]].

Definition undecodable_math_attrs : list (str * str) :=
  [(raw_latex_attr, py "x^2")].

Definition undecodable_math_soup : BeautifulSoup :=
  Soup [Tag math_tag_name legacy_math_attrs [];
        Tag (py "p") [] [Tag math_tag_name undecodable_math_attrs []]].

Definition undecodable_math_html : str :=
  py "<oppia-noninteractive-math raw_latex-with-value='&amp;quot;x^2&amp;quot;'></oppia-noninteractive-math><p><oppia-noninteractive-math raw_latex-with-value='x^2'></oppia-noninteractive-math></p>".

Definition math_documents : list (str * BeautifulSoup) :=
  [(undecodable_math_html, undecodable_math_soup)].

Definition sample_content_normalize (content : json) : result json := Ok content.


(** ** Notions used for the sibling wrapping *)

(** Original siblings, numbered from [start], as children of the parent. *)
Definition as_siblings (start : nat) (l : list Node) : list child :=
  (λ c, Sibling c.1 c.2) <$> enumerate start l.

(** The wrapper, once it has been put among the children. *)
Definition placed (b : bool) : list child := if b then [Wrapper] else [].

Definition is_wrapper (c : child) : bool :=
  match c with
  | Wrapper => true
  | Sibling _ _ => false
  end.

Definition has_id (id : nat) (c : child) : bool :=
  match c with
  | Wrapper => false
  | Sibling i _ => bool_decide (i = id)
  end.

(** The siblings before the tag that stay outside the wrapper. *)
Definition kept_before (before : list Node) : list Node :=
  take (length before - length (absorbed_before before)) before.

(** The siblings after the tag that stay outside the wrapper. *)
Definition kept_after (after : list Node) : list Node :=
  drop (length (absorbed_after after)) after.

(** Sample SVG document and allowlist. *)
Definition sample_svg_html : str :=
  py "<svg width='1' onload='x'><script src='y'></script></svg>".

Definition sample_svg_soup : BeautifulSoup :=
  Soup [Tag (py "svg") [(py "width", py "1"); (py "onload", py "x")]
            [Tag (py "script") [(py "src", py "y")] []]].

Definition sample_svg_allowlist : gmap str (list str) :=
  <[py "svg" := [py "width"]]> ∅.


(** ** The svgdiagram check and the conversion to image tags *)

Definition svgdiagram_tag_name : str := py "oppia-noninteractive-svgdiagram".
Definition image_tag_name : str := py "oppia-noninteractive-image".
Definition filepath_attr : str := py "filepath-with-value".
Definition caption_attr : str := py "caption-with-value".

(** [bool(soup.findAll(name='oppia-noninteractive-svgdiagram'))] *)
Definition soup_has_svgdiagram (soup : BeautifulSoup) : bool :=
  match findAll_name svgdiagram_tag_name soup with
  | [] => false
  | _ :: _ => true
  end.

Definition check_for_svgdiagram_component_in_html
    (html_parser : str → BeautifulSoup) (html_string : str) : bool :=
  soup_has_svgdiagram (html_parser html_string).

(** The body of the loop of [convert_svg_diagram_to_image_for_soup]
    (lines 944-947), on the attributes of the tag; line 948 renames it. *)
Definition convert_svg_diagram_attrs (escape_html : str → str)
    (attrs : list (str * str)) : result (list (str * str)) :=
  svg_filepath ← getitem svg_filename_attr attrs;
  let attrs := attr_del svg_filename_attr attrs in
  let attrs := attr_set filepath_attr svg_filepath attrs in
  Ok (attr_set caption_attr (escape_html [quote; quote]) attrs).

(** The loop over [soup_context.findAll(name=svgdiagram)] as one pass
    over the tree in document order. *)
Fixpoint convert_svg_diagram_node (escape_html : str → str) (n : Node)
  : result Node :=
  match n with
  | NavigableString _ => Ok n
  | Tag name attrs contents =>
      '(name', attrs') ←
        (if decide (name = svgdiagram_tag_name)
         then attrs' ← convert_svg_diagram_attrs escape_html attrs;
              Ok (image_tag_name, attrs')
         else Ok (name, attrs));
      contents' ←
        (fix below (l : list Node) : result (list Node) :=
           match l with
           | [] => Ok []
           | c :: l' =>
               c' ← convert_svg_diagram_node escape_html c;
               l'' ← below l';
               Ok (c' :: l'')
           end) contents;
      Ok (Tag name' attrs' contents')
  end.

Definition convert_svg_diagram_soup (escape_html : str → str)
    (soup_context : BeautifulSoup) : result BeautifulSoup :=
  contents ← map_result (convert_svg_diagram_node escape_html)
                        (soup_contents soup_context);
  Ok (Soup contents).

Definition convert_svg_diagram_to_image_for_soup
    (serialize : BeautifulSoup → str) (escape_html : str → str)
    (soup_context : BeautifulSoup) : result str :=
  soup ← convert_svg_diagram_soup escape_html soup_context;
  Ok (serialize soup).

(** [_process_string_with_components] once more, for a conversion
    function that may raise, as the svgdiagram conversion does. *)
Section TransformerRaising.
Variable html_parser : str → BeautifulSoup.
Variable unescape_html escape_html : str → str.
Variable json_loads : str → result json.
Variable json_dumps : json → str.
Variable conversion_fn : BeautifulSoup → result str.

Definition convert_nested_raising (content_html : str) : result str :=
  converted ←
    conversion_fn
      (html_parser (str_replace (py "<br>") (py "<br/>") content_html));
  Ok (str_replace (py "<br/>") (py "<br>") converted).

Definition process_collapsible_raising (attrs : list (str * str))
    : result (list (str * str)) :=
  if has_attr content_attr attrs then
    value ← getitem content_attr attrs;
    decoded ← json_loads (unescape_html value);
    content_html ← json_as_str decoded;
    converted ← convert_nested_raising content_html;
    Ok (attr_set content_attr (escape_html (json_dumps (JString converted)))
                 attrs)
  else Ok attrs.

Definition process_tab_raising (tab_content : json) : result json :=
  content ← json_getitem (py "content") tab_content;
  content_html ← json_as_str content;
  converted ← convert_nested_raising content_html;
  match tab_content with
  | JObject fields =>
      Ok (JObject (fields_set (py "content") (JString converted) fields))
  | _ => Raise TypeError
  end.

Definition process_tabs_raising (attrs : list (str * str))
    : result (list (str * str)) :=
  value ← getitem tab_contents_attr attrs;
  tab_content_list ← json_loads (unescape_html value);
  tab_content_list' ←
    match tab_content_list with
    | JArray items =>
        items' ← map_result process_tab_raising items; Ok (JArray items')
    | _ =>
        items ← json_iter tab_content_list;
        _ ← map_result process_tab_raising items;
        Ok tab_content_list
    end;
  Ok (attr_set tab_contents_attr
        (escape_html (json_dumps tab_content_list')) attrs).

Definition process_string_with_components (html_string : str) : result str :=
  let soup := html_parser html_string in
  contents ←
    map_result (update_tags collapsible_tag_name process_collapsible_raising)
               (soup_contents soup);
  contents ← map_result (update_tags tabs_tag_name process_tabs_raising) contents;
  conversion_fn (Soup contents).
End TransformerRaising.

Definition convert_svg_diagram_tags_to_image_tags
    (html_parser : str → BeautifulSoup) (serialize : BeautifulSoup → str)
    (unescape_html escape_html : str → str) (json_loads : str → result json)
    (json_dumps : json → str) (html_string : str) : result str :=
  process_string_with_components html_parser unescape_html escape_html
    json_loads json_dumps
    (convert_svg_diagram_to_image_for_soup serialize escape_html) html_string.

(** ** The math tag validators *)

Section MathValidators.
Variable html_parser : str → BeautifulSoup.
Variable unescape_html : str → str.
Variable json_loads : str → result json.
Variable UnicodeString_normalize : json → result str.

(** The [try] block of [validate_math_tags_in_html] (lines 866-869). *)
Definition decode_raw_latex (attrs : list (str * str)) : result str :=
  value ← getitem raw_latex_attr attrs;
  raw_latex ← json_loads (unescape_html value);
  UnicodeString_normalize raw_latex.

(** The body of its loop (lines 861-873). *)
Definition check_legacy_math_tag (error_list : list Element)
    (math_tag : Element) : list Element :=
  if has_attr raw_latex_attr (el_attrs math_tag) then
    match decode_raw_latex (el_attrs math_tag) with
    | Ok _ => error_list
    | Raise _ => error_list ++ [math_tag]
    end
  else error_list ++ [math_tag].

Definition soup_invalid_math_tags (soup : BeautifulSoup) : list Element :=
  fold_left check_legacy_math_tag (findAll_name math_tag_name soup) [].

Definition validate_math_tags_in_html (html_string : str) : list Element :=
  soup_invalid_math_tags (html_parser html_string).

(** The [try] block of
    [validate_math_tags_in_html_with_attribute_math_content]
    (lines 897-903). *)
Definition decode_math_content (attrs : list (str * str)) : result str :=
  value ← getitem math_content_attr attrs;
  math_content_dict ← json_loads (unescape_html value);
  raw_latex ← json_getitem (py "raw_latex") math_content_dict;
  svg_filename ← json_getitem (py "svg_filename") math_content_dict;
  _ ← UnicodeString_normalize svg_filename;
  UnicodeString_normalize raw_latex.

Definition check_math_content_tag (error_list : list Element)
    (math_tag : Element) : list Element :=
  if has_attr math_content_attr (el_attrs math_tag) then
    match decode_math_content (el_attrs math_tag) with
    | Ok _ => error_list
    | Raise _ => error_list ++ [math_tag]
    end
  else error_list ++ [math_tag].

Definition soup_invalid_math_content_tags (soup : BeautifulSoup)
    : list Element :=
  fold_left check_math_content_tag (findAll_name math_tag_name soup) [].

Definition validate_math_tags_in_html_with_attribute_math_content
    (html_string : str) : list Element :=
  soup_invalid_math_content_tags (html_parser html_string).

(** [svg_filename != ''] on a decoded value. *)
Definition is_empty_string (j : json) : bool :=
  match j with
  | JString [] => true
  | _ => false
  end.

(** The body of the loop of [extract_svg_filenames_in_math_rte_components]
    (lines 755-762). *)
Definition extract_svg_filename (math_tag : Element) (filenames : list str)
    : result (list str) :=
  value ← getitem math_content_attr (el_attrs math_tag);
  math_content_dict ← json_loads (unescape_html value);
  svg_filename ← json_getitem (py "svg_filename") math_content_dict;
  if is_empty_string svg_filename then Ok filenames
  else
    normalized_svg_filename ← UnicodeString_normalize svg_filename;
    Ok (filenames ++ [normalized_svg_filename]).

Definition soup_svg_filenames (soup : BeautifulSoup) : result (list str) :=
  for_each extract_svg_filename (findAll_name math_tag_name soup) [].

Definition extract_svg_filenames_in_math_rte_components (html_string : str)
    : result (list str) :=
  soup_svg_filenames (html_parser html_string).

(** [str(math_tag)] and the file system lookup
    [GcsFileSystem(entity_type, entity_id).isfile(filepath)] are
    external. *)
Variable tag_str : Element → str.
Variable isfile : str → str → str → result bool.

(** The body of the loop of [validate_svg_filenames_in_math_rich_text]
    (lines 618-629). *)
Definition check_svg_filename (entity_type entity_id : str)
    (math_tag : Element) (error_list : list str) : result (list str) :=
  value ← getitem math_content_attr (el_attrs math_tag);
  math_content_dict ← json_loads (unescape_html value);
  raw_filename ← json_getitem (py "svg_filename") math_content_dict;
  svg_filename ← UnicodeString_normalize raw_filename;
  match svg_filename with
  | [] => Ok (error_list ++ [tag_str math_tag])
  | _ :: _ =>
      let filepath := py "image/" ++ svg_filename in
      exists_ ← isfile entity_type entity_id filepath;
      if negb exists_ then Ok (error_list ++ [tag_str math_tag])
      else Ok error_list
  end.

Definition soup_invalid_svg_filenames (entity_type entity_id : str)
    (soup : BeautifulSoup) : result (list str) :=
  for_each (check_svg_filename entity_type entity_id)
           (findAll_name math_tag_name soup) [].

Definition validate_svg_filenames_in_math_rich_text
    (entity_type entity_id html_string : str) : result (list str) :=
  soup_invalid_svg_filenames entity_type entity_id (html_parser html_string).
End MathValidators.

(** What [components.Math.validate] does with a value: it returns, it
    raises [utils.ValidationError] with a message, or it raises
    something else. *)
Inductive validation : Type :=
  | Valid
  | ValidationError (msg : str)
  | OtherError (e : exn).

(** One entry of the list returned by
    [validate_math_content_attribute_in_html]. *)
Record math_error : Type := MathError {
  invalid_tag : str;
  error : str
}.

Section MathContentValidator.
Variable html_parser : str → BeautifulSoup.
Variable unescape_html : str → str.
Variable json_loads : str → result json.
Variable tag_str : Element → str.
Variable Math_validate : json → validation.

(** The body of the loop (lines 649-660). *)
Definition check_math_content (math_tag : Element)
    (error_list : list math_error) : result (list math_error) :=
  value ← getitem math_content_attr (el_attrs math_tag);
  math_content_dict ← json_loads (unescape_html value);
  match Math_validate (JObject [(math_content_attr, math_content_dict)]) with
  | Valid => Ok error_list
  | ValidationError msg =>
      Ok (error_list ++ [MathError (tag_str math_tag) msg])
  | OtherError e => Raise e
  end.

Definition soup_math_content_errors (soup : BeautifulSoup)
    : result (list math_error) :=
  for_each check_math_content (findAll_name math_tag_name soup) [].

Definition validate_math_content_attribute_in_html (html_string : str)
    : result (list math_error) :=
  soup_math_content_errors (html_parser html_string).
End MathContentValidator.


(** ** Further sample documents *)

Definition bare_tabs_html : str :=
  py "<oppia-noninteractive-tabs></oppia-noninteractive-tabs>".
Definition bare_tabs_soup : BeautifulSoup := Soup [Tag tabs_tag_name [] []].

Definition tabs_documents : list (str * BeautifulSoup) :=
  [(bare_tabs_html, bare_tabs_soup)].

(** ** Further notions for the character repair *)

(** No rule of the chain has an empty pattern or a replacement longer
    than its pattern. *)
Definition shrinking (rule : str * str) : bool :=
  match rule.1 with
  | [] => false
  | _ :: _ => bool_decide (length rule.2 ≤ length rule.1)
  end.


(** ** Further notions for the svgdiagram conversion *)

(** The name a tag has after the conversion. *)
Definition converted_name (name : str) : str :=
  if decide (name = svgdiagram_tag_name) then image_tag_name else name.

Definition svgdiagram_html : str :=
  py "<p><oppia-noninteractive-svgdiagram svg_filename-with-value='a.svg' alt-with-value='x'></oppia-noninteractive-svgdiagram></p>".

Definition svgdiagram_soup : BeautifulSoup :=
  Soup [Tag (py "p") []
          [Tag svgdiagram_tag_name
               [(svg_filename_attr, py "a.svg"); (py "alt-with-value", py "x")]
               []]].

Definition converted_svgdiagram_soup : BeautifulSoup :=
  Soup [Tag (py "p") []
          [Tag image_tag_name
               [(py "alt-with-value", py "x"); (filepath_attr, py "a.svg");
                (caption_attr, [quote; quote])]
               []]].

Definition bare_svgdiagram_soup : BeautifulSoup :=
  Soup [Tag svgdiagram_tag_name [(py "alt-with-value", py "x")] []].

(** ** Further sample math tags *)

(** A tag that carries the legacy attribute, a file name and an older
    value of the new attribute. *)
Definition mixed_math_attrs : list (str * str) :=
  [(math_content_attr, py "old");
   (raw_latex_attr, quote :: py "x^2" ++ [quote]);
   (py "alt-with-value", py "x");
   (svg_filename_attr, quote :: py "a.svg" ++ [quote])].

Definition migrated_mixed_math_attrs : list (str * str) :=
  [(math_content_attr,
    sample_json_dumps (math_content_dict (py "x^2") (py "a.svg")));
   (py "alt-with-value", py "x")].

(** Whether an evaluation ended in an exception. *)
Definition raises {A : Type} (r : result A) : bool :=
  match r with
  | Ok _ => false
  | Raise _ => true
  end.

(** A math tag of the new schema, with stand-ins for the decoder of its
    attribute, for [str(tag)] and for the file system. *)
Definition content_math_html : str :=
  py "<oppia-noninteractive-math math_content-with-value='{}'></oppia-noninteractive-math>".

Definition content_math_soup : BeautifulSoup :=
  Soup [Tag math_tag_name [(math_content_attr, py "{}")] []].

Definition bare_math_html : str :=
  py "<oppia-noninteractive-math></oppia-noninteractive-math>".

Definition bare_math_soup : BeautifulSoup := Soup [Tag math_tag_name [] []].

Definition content_documents : list (str * BeautifulSoup) :=
  [(content_math_html, content_math_soup); (bare_math_html, bare_math_soup)].

Definition sample_content_loads (s : str) : result json :=
  Ok (math_content_dict (py "x^2") (py "a.svg")).

Definition sample_tag_str (tag : Element) : str := el_name tag.

Definition sample_isfile (entity_type entity_id filepath : str) : result bool :=
  Ok (bool_decide (filepath = py "image/a.svg")).

(** ** Customization arguments of the rich text components *)

Section CustomizationArgs.
Variable html_parser : str → BeautifulSoup.
Variable unescape_html : str → str.
Variable json_loads : str → result json.
(** What [bs4.BeautifulSoup(value, 'html.parser')] does with a decoded
    value that is not a string. *)
Variable parse_non_string : json → result BeautifulSoup.
(** The module constants and the registry: the tag names of the inline
    and of the block components, [get_simple_component_tag_names()] and
    [get_component_types_to_component_classes()], a class being taken
    for its [validate] method. *)
Variable INLINE_COMPONENT_TAG_NAMES BLOCK_COMPONENT_TAG_NAMES : list str.
Variable simple_component_tag_names : list str.
Variable component_types_to_component_classes
  : gmap str (list (str * json) → result ()).
(** [str(e)] *)
Variable exn_str : exn → str.
(** Whether two tags are the same key of a dictionary, which bs4
    settles with the hash and the equality it gives to tags. *)
Variable same_tag : Element → Element → bool.

(** [bs4.BeautifulSoup(content_html, 'html.parser')] on a decoded value. *)
Definition parse_value (content_html : json) : result BeautifulSoup :=
  match content_html with
  | JString s => Ok (html_parser s)
  | _ => parse_non_string content_html
  end.

(** [value_dict[key]] *)
Definition value_dict_getitem (key : str) (value_dict : list (str * json))
    : result json :=
  match fields_get key value_dict with
  | Some v => Ok v
  | None => Raise (KeyError key)
  end.

(** The loop that fills [value_dict] (lines 569-570), outside the [try]. *)
Definition decode_attr (attrs : list (str * str)) (attr : str)
    (value_dict : list (str * json)) : result (list (str * json)) :=
  value ← getitem attr attrs;
  decoded ← json_loads (unescape_html value);
  Ok (fields_set attr decoded value_dict).

Definition decode_attrs (attrs : list (str * str))
    : result (list (str * json)) :=
  for_each (decode_attr attrs) (attrs.*1) [].

(** [for component_name in simple_component_tag_names:
       for component_tag in soup.findAll(name=component_name)] *)
Definition component_tags (names : list str) (soup : BeautifulSoup)
    : list Element :=
  flat_map (λ component_name, findAll_name component_name soup) names.

(** A stretch of the [try] block: the messages it yields and the
    exception that ends it, if any.  The recursive call is a parameter;
    it gives [None] when it is out of fuel. *)
Fixpoint yield_from (validate_tag : Element → option (result (list str)))
    (tags : list Element) : option (list str * option exn) :=
  match tags with
  | [] => Some ([], None)
  | component_tag :: tags' =>
      match validate_tag component_tag with
      | None => None
      | Some (Raise e) => Some ([], Some e)
      | Some (Ok err_msgs) =>
          '(err_msgs', e) ← yield_from validate_tag tags';
          Some (err_msgs ++ err_msgs', e)
      end
  end.

(** The loop over [tab_content_list] (lines 587-596). *)
Fixpoint validate_tab_contents
    (validate_tag : Element → option (result (list str)))
    (tab_content_list : list json) : option (list str * option exn) :=
  match tab_content_list with
  | [] => Some ([], None)
  | tab_content :: rest =>
      match (content_html ← json_getitem (py "content") tab_content;
             parse_value content_html) with
      | Raise e => Some ([], Some e)
      | Ok soup_for_tabs =>
          '(err_msgs, e) ←
            yield_from validate_tag
              (component_tags simple_component_tag_names soup_for_tabs);
          match e with
          | Some _ => Some (err_msgs, e)
          | None =>
              '(err_msgs', e') ← validate_tab_contents validate_tag rest;
              Some (err_msgs ++ err_msgs', e')
          end
      end
  end.

(** The [try] block (lines 573-596). *)
Definition validate_value_dict
    (validate_tag : Element → option (result (list str)))
    (tag_name : str) (value_dict : list (str * json))
    : option (list str * option exn) :=
  match (match component_types_to_component_classes !! tag_name with
         | Some validate => validate value_dict
         | None => Raise (KeyError tag_name)
         end) with
  | Raise e => Some ([], Some e)
  | Ok _ =>
      if decide (tag_name = collapsible_tag_name) then
        match (content_html ← value_dict_getitem content_attr value_dict;
               parse_value content_html) with
        | Raise e => Some ([], Some e)
        | Ok soup_for_collapsible =>
            yield_from validate_tag
              (component_tags simple_component_tag_names soup_for_collapsible)
        end
      else if decide (tag_name = tabs_tag_name) then
        match (tab_content_list ←
                 value_dict_getitem tab_contents_attr value_dict;
               json_iter tab_content_list) with
        | Raise e => Some ([], Some e)
        | Ok tab_content_list =>
            validate_tab_contents validate_tag tab_content_list
        end
      else Some ([], None)
  end.

(** [list(validate_customization_args_in_tag(tag))]: the messages the
    generator yields, or the exception it raises.  The function calls
    itself on the tags of the documents it parses, which are not part
    of [tag]; [fuel] bounds the depth of these calls. *)
Fixpoint validate_customization_args_in_tag (fuel : nat) (tag : Element)
    : option (result (list str)) :=
  match fuel with
  | 0 => None
  | S fuel' =>
      match decode_attrs (el_attrs tag) with
      | Raise e => Some (Raise e)
      | Ok value_dict =>
          '(err_msgs, e) ←
            validate_value_dict (validate_customization_args_in_tag fuel')
                                (el_name tag) value_dict;
          Some (Ok (err_msgs ++ match e with
                                | Some e => [exn_str e]
                                | None => []
                                end))
      end
  end.

(** [tags_to_original_html_strings[tag] = html_string] *)
Fixpoint tags_setitem (tag : Element) (html_string : str)
    (tags : list (Element * str)) : list (Element * str) :=
  match tags with
  | [] => [(tag, html_string)]
  | (key, value) :: tags' =>
      if same_tag key tag then (key, html_string) :: tags'
      else (key, value) :: tags_setitem tag html_string tags'
  end.

(** The first loop of [validate_customization_args] (lines 533-538). *)
Definition collect_tags (tags : list (Element * str)) (html_string : str)
    : list (Element * str) :=
  let soup := html_parser html_string in
  fold_left (λ tags tag, tags_setitem tag html_string tags)
            (component_tags
               (INLINE_COMPONENT_TAG_NAMES ++ BLOCK_COMPONENT_TAG_NAMES) soup)
            tags.

(** The body of the loop over the messages (lines 543-547). *)
Definition record_error (html_string : str) (err_dict : gmap str (list str))
    (err_msg : str) : gmap str (list str) :=
  match err_msg with
  | [] => err_dict
  | _ :: _ =>
      match err_dict !! err_msg with
      | None => <[err_msg := [html_string]]> err_dict
      | Some html_strings =>
          if bool_decide (html_string ∈ html_strings) then err_dict
          else <[err_msg := html_strings ++ [html_string]]> err_dict
      end
  end.

(** The second loop (lines 540-547). *)
Fixpoint record_errors (fuel : nat) (tags : list (Element * str))
    (err_dict : gmap str (list str))
    : option (result (gmap str (list str))) :=
  match tags with
  | [] => Some (Ok err_dict)
  | (tag, html_string) :: tags' =>
      match validate_customization_args_in_tag fuel tag with
      | None => None
      | Some (Raise e) => Some (Raise e)
      | Some (Ok err_msg_list) =>
          record_errors fuel tags'
            (fold_left (record_error html_string) err_msg_list err_dict)
      end
  end.

Definition validate_customization_args (fuel : nat) (html_list : list str)
    : option (result (gmap str (list str))) :=
  record_errors fuel (fold_left collect_tags html_list []) ∅.
End CustomizationArgs.

(** Stand-ins for the registry: a component class whose [validate]
    wants every value to be a string, and the dictionary key equality
    of tags with the same name, attributes and contents. *)
Definition sample_validate (value_dict : list (str * json)) : result () :=
  if forallb (λ kv, match kv.2 with JString _ => true | _ => false end)
             value_dict
  then Ok ()
  else Raise (Exception (py "Expected unicode string")).

Definition sample_classes : gmap str (list (str * json) → result ()) :=
  <[math_tag_name := sample_validate]>
    (<[collapsible_tag_name := sample_validate]> ∅).

Definition sample_exn_str (e : exn) : str :=
  match e with
  | KeyError key => key
  | Exception msg => msg
  | _ => py "error"
  end.

Fixpoint node_eqb (a b : Node) : bool :=
  match a, b with
  | NavigableString s, NavigableString t => bool_decide (s = t)
  | Tag name1 attrs1 contents1, Tag name2 attrs2 contents2 =>
      bool_decide (name1 = name2) && bool_decide (attrs1 = attrs2)
      && (fix all (l1 l2 : list Node) : bool :=
            match l1, l2 with
            | [], [] => true
            | c1 :: l1', c2 :: l2' => node_eqb c1 c2 && all l1' l2'
            | _, _ => false
            end) contents1 contents2
  | _, _ => false
  end.

Definition sample_same_tag (a b : Element) : bool :=
  node_eqb (Tag (el_name a) (el_attrs a) (el_contents a))
           (Tag (el_name b) (el_attrs b) (el_contents b)).

(** A collapsible whose content holds a math tag with an attribute that
    does not decode. *)
Definition nested_math_html : str :=
  py "<oppia-noninteractive-math raw_latex-with-value='x^2'></oppia-noninteractive-math>".

Definition collapsible_html : str :=
  py "<oppia-noninteractive-collapsible content-with-value='&quot;&lt;oppia-noninteractive-math raw_latex-with-value=&#39;x^2&#39;&gt;&lt;/oppia-noninteractive-math&gt;&quot;'></oppia-noninteractive-collapsible>".

Definition collapsible_soup : BeautifulSoup :=
  Soup [Tag collapsible_tag_name
            [(content_attr, quote :: nested_math_html ++ [quote])] []].

Definition nested_math_soup : BeautifulSoup :=
  Soup [Tag math_tag_name undecodable_math_attrs []].

Definition customization_documents : list (str * BeautifulSoup) :=
  [(collapsible_html, collapsible_soup); (nested_math_html, nested_math_soup)].


(** * Properties *)

(** ** Character repair *)

Section Replace.
Implicit Types old new s : str.

Lemma replace_from_head_absent o old new s :
o ∉ s → replace_from (o :: old) new 0 s = s.
Proof.
induction s as [|c s IH]; intros Hin; [done|].
apply not_elem_of_cons in Hin as [Hne Hin].
cbn [replace_from startswith].
destruct (N.eqb_spec o c) as [->|_]; [done|].
by rewrite IH.
Qed.

Lemma replace_from_delete c s :
replace_from [c] [] 0 s = filter (λ x, x ≠ c) s.
Proof.
induction s as [|d s IH]; [done|].
cbn [replace_from startswith length].
destruct (N.eqb_spec c d) as [->|Hne].
- rewrite filter_cons_False by (by intros ?). exact IH.
- rewrite filter_cons_True by congruence. cbn. by rewrite IH.
Qed.

Lemma elem_of_replace_from old new k s x :
x ∈ replace_from old new k s → x ∈ s ∨ x ∈ new.
Proof.
revert k; induction s as [|c s IH]; intros k; cbn [replace_from].
- by left.
- destruct k as [|k].
  + destruct (startswith old (c :: s)).
    * rewrite elem_of_app. intros [?|Hx]; [by right|].
      destruct (IH _ Hx); [left; by right | by right].
    * rewrite elem_of_cons. intros [->|Hx]; [left; by left|].
      destruct (IH _ Hx); [left; by right | by right].
  + intros Hx. destruct (IH _ Hx); [left; by right | by right].
Qed.


Lemma replace_from_no_match o old new s :
has_match (o :: old) s = false → replace_from (o :: old) new 0 s = s.
Proof.
induction s as [|c s IH]; [done|].
cbn [has_match replace_from]. intros [Hs Hm]%orb_false_iff.
rewrite Hs. by rewrite IH.
Qed.

(** A prefix read off the output of a replacement by a character
  foreign to it was already a prefix of the input. *)
Lemma startswith_replace_from o old sp q s :
sp ≠ o → sp ∉ q →
startswith q (replace_from (o :: old) [sp] 0 s) = true →
startswith q s = true.
Proof.
intros Ho. revert q; induction s as [|c s IH]; intros q Hq.
- done.
- destruct q as [|a q]; [done|].
  apply not_elem_of_cons in Hq as [Ha Hq].
  cbn [replace_from].
  destruct (startswith (o :: old) (c :: s)) eqn:Hs.
  + cbn. destruct (N.eqb_spec a sp) as [->|_]; done.
  + cbn. destruct (N.eqb_spec a c) as [->|_]; [|done]. by apply IH.
Qed.

Lemma replace_from_leaves_no_match o old sp k s :
sp ≠ o → sp ∉ old →
has_match (o :: old) (replace_from (o :: old) [sp] k s) = false.
Proof.
intros Ho Hold. revert k; induction s as [|c s IH]; intros k; [done|].
cbn [replace_from]. destruct k as [|k]; [|apply IH].
destruct (startswith (o :: old) (c :: s)) eqn:Hs.
- cbn [app has_match]. rewrite IH, orb_false_r.
  cbn. by destruct (N.eqb_spec o sp) as [->|_].
- cbn [has_match]. rewrite IH, orb_false_r.
  destruct (startswith (o :: old) (c :: replace_from (o :: old) [sp] 0 s))
    eqn:Hs'; [|done].
  cbn in Hs, Hs'. destruct (N.eqb_spec o c) as [->|_]; [|done].
  apply startswith_replace_from in Hs'; [congruence|done..].
Qed.
End Replace.


Lemma startswith_spec (old s : str) :
  startswith old s = true → s = old ++ drop (length old) s.
Proof.
  revert s; induction old as [|o old IH]; intros s; [done|].
  destruct s as [|c s]; [done|]. cbn.
  destruct (N.eqb_spec o c) as [->|_]; [|done].
  intros Hs. by rewrite <- (IH s Hs).
Qed.

Lemma replace_from_same (o : N) (old : str) (k : nat) (s : str) :
  replace_from (o :: old) (o :: old) k s = drop k s.
Proof.
  revert k; induction s as [|c s IH]; intros k.
  - by destruct k.
  - cbn [replace_from]. destruct k as [|k]; [|apply IH].
    destruct (startswith (o :: old) (c :: s)) eqn:Hs.
    + rewrite IH. apply startswith_spec in Hs. cbn [length] in *.
      replace (S (length old) - 1) with (length old) by lia.
      cbn [drop] in *. by rewrite <- Hs.
    + by rewrite IH.
Qed.

Lemma replace_from_subst (c d : N) (s : str) :
  replace_from [c] [d] 0 s = (λ x, if decide (x = c) then d else x) <$> s.
Proof.
  induction s as [|x s IH]; [done|].
  cbn [replace_from startswith length fmap list_fmap].
  destruct (N.eqb_spec c x) as [->|Hne].
  - rewrite decide_True by done. cbn. by rewrite IH.
  - rewrite decide_False by congruence. by rewrite IH.
Qed.

Lemma filter_all {A} (P : A → Prop) `{∀ x, Decision (P x)} (l : list A) :
  Forall P l → filter P l = l.
Proof.
  induction 1 as [|x l Hx _ IH]; [done|].
  rewrite filter_cons_True by done. by rewrite IH.
Qed.

Lemma fmap_fixed {A} (f : A → A) (l : list A) :
  Forall (λ x, f x = x) l → f <$> l = l.
Proof. induction 1 as [|x l Hx _ IH]; [done|]. cbn. by rewrite Hx, IH. Qed.

Lemma char_mapping_tuples_split :
  ∃ rules,
    char_mapping_tuples =
      rules ++ [tab_rule; newline_rule; space_rule; nbsp_rule] ∧
    forallb inert rules = true.
Proof.
  exists (take 281 CHAR_MAPPINGS). split; vm_compute; reflexivity.
Qed.

Lemma apply_mappings_app t1 t2 s :
  apply_mappings (t1 ++ t2) s = apply_mappings t2 (apply_mappings t1 s).
Proof. apply fold_left_app. Qed.

Lemma apply_inert rules s :
  forallb inert rules = true → free_of_lead_chars s →
  apply_mappings rules s = s.
Proof.
  revert s; induction rules as [|[old new] rules IH]; intros s Hh Hs; [done|].
  cbn [forallb] in Hh. apply andb_true_iff in Hh as [Ho Hh].
  unfold apply_mappings; cbn [fold_left].
  destruct old as [|o old]; [done|].
  unfold inert in Ho. cbn [fst snd] in Ho. cbn [str_replace].
  apply orb_true_iff in Ho as [Ho|Ho]; apply bool_decide_eq_true in Ho.
  - subst new. rewrite replace_from_same. by apply IH.
  - rewrite replace_from_head_absent; [by apply IH|].
    intros Hin. unfold free_of_lead_chars in Hs. rewrite Forall_forall in Hs.
    by apply (Hs o).
Qed.

Lemma nbsp_chars :
  py "&nbsp;" = [38; 110; 98; 115; 112; 59]%N ∧ py " " = [32%N].
Proof. by split. Qed.

Lemma apply_closing_rules s :
  apply_mappings [tab_rule; newline_rule; space_rule; nbsp_rule] s
  = plain_repair s.
Proof.
  unfold apply_mappings, tab_rule, newline_rule, space_rule, nbsp_rule,
    plain_repair.
  cbn [fold_left]. destruct nbsp_chars as [-> ->]. cbn [str_replace].
  by rewrite !replace_from_delete, replace_from_subst.
Qed.

Lemma replace_plain s :
  free_of_lead_chars s → replace_incorrectly_encoded_chars s = plain_repair s.
Proof.
  intros Hs. unfold replace_incorrectly_encoded_chars.
  destruct char_mapping_tuples_split as (rules & -> & Hrules).
  rewrite apply_mappings_app, (apply_inert rules) by done.
  apply apply_closing_rules.
Qed.

Lemma elem_of_plain_repair s x :
  x ∈ plain_repair s →
  x = 32%N ∨ (x ∈ s ∧ x ≠ 9%N ∧ x ≠ 10%N ∧ x ≠ 160%N).
Proof.
  unfold plain_repair. intros Hx.
  apply elem_of_replace_from in Hx as [Hx|Hx].
  - apply list_elem_of_fmap in Hx as (y & -> & Hy).
    apply list_elem_of_filter in Hy as [Hy10 Hy].
    apply list_elem_of_filter in Hy as [Hy9 Hy].
    destruct (decide (y = 160%N)); [by left|by right].
  - left. destruct nbsp_chars as [_ Hsp]. rewrite Hsp in Hx.
    by apply list_elem_of_singleton in Hx.
Qed.

Lemma space_not_lead : 32%N ∉ lead_chars.
Proof.
  apply (bool_decide_eq_false_1 (32%N ∈ lead_chars)). vm_compute. reflexivity.
Qed.

Lemma free_plain_repair s :
  free_of_lead_chars s → free_of_lead_chars (plain_repair s).
Proof.
  unfold free_of_lead_chars. rewrite !Forall_forall. intros Hs x Hx.
  apply elem_of_plain_repair in Hx as [->|[Hx _]];
    [apply space_not_lead|by apply Hs].
Qed.

Lemma plain_repair_fixed s : plain_repair (plain_repair s) = plain_repair s.
Proof.
  unfold plain_repair at 1.
  rewrite (filter_all (λ x, x ≠ 9%N)).
  - rewrite (filter_all (λ x, x ≠ 10%N)).
    + rewrite fmap_fixed.
      * unfold plain_repair. destruct nbsp_chars as [-> ->].
        apply replace_from_no_match, replace_from_leaves_no_match; [done|].
        intros Hin. repeat (apply elem_of_cons in Hin as [?|Hin]; [done|]).
        by apply elem_of_nil in Hin.
      * apply Forall_forall. intros x Hx.
        apply elem_of_plain_repair in Hx as [->|(_ & _ & _ & Hx)]; [done|].
        by rewrite decide_False.
    + apply Forall_forall. intros x Hx.
      by apply elem_of_plain_repair in Hx as [->|(_ & _ & Hx & _)].
  - apply Forall_forall. intros x Hx.
    by apply elem_of_plain_repair in Hx as [->|(_ & Hx & _ & _)].
Qed.



(** ASCII text has no lead character. *)
Lemma ascii_free_of_lead_chars (s : str) : is_ascii s → free_of_lead_chars s.
Proof.
  assert (Hlead : Forall (λ c, (128 ≤ c)%N) lead_chars).
  { apply (bool_decide_eq_true_1 (Forall (λ c, (128 ≤ c)%N) lead_chars)).
    vm_compute. reflexivity. }
  unfold is_ascii, free_of_lead_chars. rewrite !Forall_forall in *.
  intros Hs c Hc Hin. specialize (Hs c Hc). specialize (Hlead c Hin).
  cbn in Hs. lia.
Qed.



(** ** Tag grammar validation *)

Lemma for_each_invariant {A S : Type} (P : S → Prop)
    (body : A → S → result S) (l : list A) (s s' : S) :
  (∀ a s s', a ∈ l → P s → body a s = Ok s' → P s') →
  P s → for_each body l s = Ok s' → P s'.
Proof.
  revert s; induction l as [|a l IH]; intros s Hbody Hs; cbn.
  - by intros [= <-].
  - destruct (body a s) as [s1|e] eqn:Ha; [|done]. cbn.
    apply IH.
    + intros a' ? ? Hin. apply Hbody. by right.
    + eapply Hbody; [by left|done..].
Qed.

Lemma bind_Ok {A B : Type} (m : result A) (f : A → result B) (b : B) :
  m ≫= f = Ok b → ∃ a, m = Ok a ∧ f a = Ok b.
Proof. destruct m as [a|e]; [|done]. intros Hf. by exists a. Qed.

Lemma result_bind_Ok {A B : Type} (a : A) (f : A → result B) :
  Ok a ≫= f = f a.
Proof. reflexivity. Qed.

Lemma for_each_fixed {A S : Type} (body : A → S → result S) (l : list A) (s : S) :
  Forall (λ a, body a s = Ok s) l → for_each body l s = Ok s.
Proof. induction 1 as [|a l Ha _ IH]; [done|]. cbn. by rewrite Ha. Qed.

Lemma bucket_err_append (key value : str) err_dict :
  bucket key (err_append key value err_dict) = bucket key err_dict ++ [value].
Proof.
  unfold bucket, err_append.
  destruct (err_dict !! key) eqn:Hk; by rewrite lookup_insert_eq.
Qed.

Lemma lookup_err_append_ne (key key' value : str) (err_dict : gmap str (list str)) :
  key ≠ key' → err_append key value err_dict !! key' = err_dict !! key'.
Proof.
  intros Hne. unfold err_append.
  destruct (err_dict !! key); by rewrite lookup_insert_ne.
Qed.

Lemma bucket_err_append_mono (key key' value : str) err_dict x :
  x ∈ bucket key' err_dict → x ∈ bucket key' (err_append key value err_dict).
Proof.
  destruct (decide (key = key')) as [->|Hne].
  - rewrite bucket_err_append, elem_of_app. by left.
  - unfold bucket. by rewrite lookup_err_append_ne.
Qed.

Lemma err_append_is_Some (key key' value : str) (err_dict : gmap str (list str)) :
  is_Some (err_dict !! key') → is_Some (err_append key value err_dict !! key').
Proof.
  destruct (decide (key = key')) as [->|Hne].
  - intros _. unfold err_append.
    destruct (err_dict !! key'); rewrite lookup_insert_eq; eauto.
  - by rewrite lookup_err_append_ne.
Qed.

Section TagGrammarFacts.
Variable spec : rte_content_spec.

Lemma report_extends_refl st : report_extends spec st st.
Proof. done. Qed.

Lemma report_extends_trans st1 st2 st3 :
  report_extends spec st1 st2 → report_extends spec st2 st3 → report_extends spec st1 st3.
Proof.
  intros (H1 & H2 & H3) (H1' & H2' & H3'). split; [auto|]. split; [auto|].
  intros key ? ?. rewrite H3' by done. auto.
Qed.

Lemma tag_recorded_extends tag st st' :
  tag_recorded spec tag st.1 st.2 → report_extends spec st st' →
  tag_recorded spec tag st'.1 st'.2.
Proof.
  intros [Ha Hb] (H1 & H2 & _). split.
  - intros Hn. destruct (Ha Hn). auto.
  - intros Hn parents Hp Hnp. destruct (Hb Hn parents Hp Hnp). auto.
Qed.

Hypothesis parents_known :
  ∀ name, name ∈ ALLOWED_TAG_LIST spec →
          is_Some (ALLOWED_PARENT_LIST spec !! name).

Lemma validate_tag_step tag st :
  ∃ st', validate_tag spec tag st = Ok st' ∧
         report_extends spec st st' ∧ tag_recorded spec tag st'.1 st'.2.
Proof.
  destruct st as [b d]. unfold validate_tag.
  destruct (decide (el_name tag ∈ ALLOWED_TAG_LIST spec)) as [Hin|Hnin].
  - rewrite !bool_decide_eq_true_2 by done.
    destruct (parents_known _ Hin) as [parents Hp]. rewrite Hp.
    destruct (decide (el_parent tag ∈ parents)) as [Hpar|Hpar].
    + rewrite bool_decide_eq_true_2 by done. eexists; split; [done|].
      split; [apply report_extends_refl|]. split; [done|].
      intros _ parents' ?. by simplify_eq.
    + rewrite bool_decide_eq_false_2 by done. eexists; split; [done|].
      split.
      * split; [done|]. split; cbn.
        -- intros. by apply bucket_err_append_mono.
        -- intros key Hk _. apply lookup_err_append_ne. by intros <-.
      * split; [done|]. intros _ _ _ _. cbn.
        rewrite bucket_err_append, elem_of_app, list_elem_of_singleton. auto.
  - rewrite !bool_decide_eq_false_2 by done. eexists; split; [done|]. split.
    + split; [done|]. split; cbn.
      * intros. by apply bucket_err_append_mono.
      * intros key _ Hk. by apply lookup_err_append_ne.
    + split; [|done]. intros _. cbn.
      rewrite bucket_err_append, elem_of_app, list_elem_of_singleton. auto.
Qed.

Lemma validate_tags_loop tags st :
  ∃ st', for_each (validate_tag spec) tags st = Ok st' ∧
         report_extends spec st st' ∧
         ∀ tag, tag ∈ tags → tag_recorded spec tag st'.1 st'.2.
Proof.
  revert st; induction tags as [|tag tags IH]; intros st.
  - exists st. split; [done|]. split; [apply report_extends_refl|].
    intros tag Hin. by apply elem_of_nil in Hin.
  - destruct (validate_tag_step tag st) as (st1 & Hst1 & Hext1 & Hrec1).
    destruct (IH st1) as (st2 & Hst2 & Hext2 & Hrec2).
    exists st2. cbn. rewrite Hst1. cbn. split; [done|].
    split; [by eapply report_extends_trans|].
    intros tag' [->|Hin]%elem_of_cons; [|by apply Hrec2].
    by eapply tag_recorded_extends.
Qed.
End TagGrammarFacts.


Section TagGrammarTheorems.
Variable RTE_FORMAT_TEXTANGULAR : str.
Variable RTE_TYPE_TEXTANGULAR RTE_TYPE_CKEDITOR : rte_content_spec.
Variable html_parser : str → BeautifulSoup.
Variable unescape_html : str → str.
Variable json_loads : str → result json.

Local Abbreviation spec_for :=
  (rte_spec_for RTE_FORMAT_TEXTANGULAR RTE_TYPE_TEXTANGULAR RTE_TYPE_CKEDITOR).
Local Abbreviation validate_soup :=
  (validate_soup_for_rte RTE_FORMAT_TEXTANGULAR RTE_TYPE_TEXTANGULAR
                         RTE_TYPE_CKEDITOR).
Local Abbreviation validate_format :=
  (validate_rte_format RTE_FORMAT_TEXTANGULAR RTE_TYPE_TEXTANGULAR
                       RTE_TYPE_CKEDITOR html_parser unescape_html json_loads).
Local Abbreviation validate_data :=
  (validate_html_data RTE_FORMAT_TEXTANGULAR RTE_TYPE_TEXTANGULAR
                      RTE_TYPE_CKEDITOR html_parser unescape_html json_loads).

(** C1, amended: the parent check is made only on tags that are
    allowed.  Provided every allowed tag has an entry in the
    allowed-parent map, validation returns, and for every element: a
    tag outside the allowed list is recorded under ["invalidTags"] and
    marks the fragment invalid; an allowed tag under a parent outside
    its allowed-parent set has that parent recorded under the bucket
    keyed by the tag and marks the fragment invalid.  No bucket keyed
    by a name outside the allowed list is touched. *)
Theorem validate_soup_for_rte_report
    (soup : BeautifulSoup) (rte_format : str) (err_dict : gmap str (list str)) :
  let spec := spec_for rte_format in
  (∀ name, name ∈ ALLOWED_TAG_LIST spec →
           is_Some (ALLOWED_PARENT_LIST spec !! name)) →
  ∃ is_invalid err_dict',
    validate_soup soup rte_format err_dict = Ok (is_invalid, err_dict') ∧
    (∀ tag, tag ∈ findAll soup →
       (el_name tag ∉ ALLOWED_TAG_LIST spec →
          el_name tag ∈ bucket invalid_tags_key err_dict' ∧
          is_invalid = true) ∧
       (el_name tag ∈ ALLOWED_TAG_LIST spec →
          ∀ parents,
            ALLOWED_PARENT_LIST spec !! el_name tag = Some parents →
            el_parent tag ∉ parents →
            el_parent tag ∈ bucket (el_name tag) err_dict' ∧
            is_invalid = true)) ∧
    (∀ key, key ∉ ALLOWED_TAG_LIST spec → key ≠ invalid_tags_key →
            err_dict' !! key = err_dict !! key).
Proof.
  intros spec Hknown. unfold validate_soup_for_rte. fold spec.
  set (st := (_, err_dict)).
  destruct (validate_tags_loop spec Hknown (findAll soup) st)
    as ([b d] & Hrun & (_ & _ & Hkeys) & Hrec).
  exists b, d. split; [exact Hrun|]. split; [exact Hrec|exact Hkeys].
Qed.

Lemma validate_tag_grammatical spec tag st :
  el_name tag ∈ ALLOWED_TAG_LIST spec →
  (∃ parents, ALLOWED_PARENT_LIST spec !! el_name tag = Some parents ∧
              el_parent tag ∈ parents) →
  validate_tag spec tag st = Ok st.
Proof.
  intros Hin (parents & Hp & Hpar). destruct st as [b d].
  unfold validate_tag. rewrite !bool_decide_eq_true_2 by done.
  rewrite Hp. by rewrite bool_decide_eq_true_2.
Qed.

Lemma validate_soup_grammatical soup rte_format err_dict :
  grammatical (spec_for rte_format) soup →
  validate_soup soup rte_format err_dict = Ok (false, err_dict).
Proof.
  intros [Htop Htags]. unfold validate_soup_for_rte.
  replace (existsb _ (soup_contents soup)) with false.
  - apply for_each_fixed. eapply Forall_impl; [exact Htags|].
    intros tag [Hin Hpar]. by apply validate_tag_grammatical.
  - symmetry. apply not_true_iff_false. intros (c & Hc & Hn)%existsb_exists.
    rewrite Forall_forall in Htop. apply list_elem_of_In, Htop in Hc.
    by rewrite Hc in Hn.
Qed.

Lemma validate_collapsible_valid rte_format html_data collapsible err_dict :
  collapsible_valid html_parser unescape_html json_loads
                    (spec_for rte_format) collapsible →
  validate_collapsible RTE_FORMAT_TEXTANGULAR RTE_TYPE_TEXTANGULAR
    RTE_TYPE_CKEDITOR html_parser unescape_html json_loads
    rte_format html_data collapsible err_dict = Ok err_dict.
Proof.
  intros (value & content_html & Hv & Hne & Hdec & Hg).
  unfold validate_collapsible, has_attr, getitem. fold content_attr.
  rewrite Hv. rewrite bool_decide_eq_true_2 by eauto.
  rewrite bool_decide_eq_false_2 by congruence. cbn.
  rewrite Hdec. cbn.
  unfold nested_grammatical in Hg.
  by rewrite (validate_soup_grammatical _ _ _ Hg).
Qed.

Lemma validate_tab_valid rte_format html_data tab_content err_dict :
  tab_valid html_parser (spec_for rte_format) tab_content →
  validate_tab RTE_FORMAT_TEXTANGULAR RTE_TYPE_TEXTANGULAR
    RTE_TYPE_CKEDITOR html_parser rte_format html_data tab_content err_dict
  = Ok err_dict.
Proof.
  intros (content_html & Hget & Hg). unfold validate_tab.
  rewrite Hget. cbn. unfold nested_grammatical in Hg.
  by rewrite (validate_soup_grammatical _ _ _ Hg).
Qed.

Lemma validate_tabs_valid rte_format html_data tabs err_dict :
  tabs_valid html_parser unescape_html json_loads (spec_for rte_format) tabs →
  validate_tabs RTE_FORMAT_TEXTANGULAR RTE_TYPE_TEXTANGULAR
    RTE_TYPE_CKEDITOR html_parser unescape_html json_loads
    rte_format html_data tabs err_dict = Ok err_dict.
Proof.
  intros (value & tab_content_list & items & Hv & Hdec & Hit & Hitems).
  unfold validate_tabs, getitem. fold tab_contents_attr.
  rewrite Hv. cbn. rewrite Hdec. cbn. rewrite Hit. cbn.
  apply for_each_fixed. eapply Forall_impl; [exact Hitems|].
  intros tab_content. apply validate_tab_valid.
Qed.

Lemma validate_html_data_valid rte_format html_data err_dict :
  fragment_valid html_parser unescape_html json_loads
                 (spec_for rte_format) html_data →
  validate_data rte_format html_data err_dict = Ok err_dict.
Proof.
  intros (Hg & Hcoll & Htabs). unfold validate_html_data.
  rewrite (validate_soup_grammatical _ _ _ Hg). cbn.
  fold collapsible_tag_name tabs_tag_name.
  rewrite for_each_fixed; cbn.
  - apply for_each_fixed. eapply Forall_impl; [exact Htabs|].
    intros tabs. apply validate_tabs_valid.
  - eapply Forall_impl; [exact Hcoll|].
    intros c. apply validate_collapsible_valid.
Qed.

Lemma validate_rte_format_valid html_list rte_format :
  Forall (fragment_valid html_parser unescape_html json_loads
                         (spec_for rte_format)) html_list →
  validate_format html_list rte_format = Ok (<[py "strings" := []]> ∅).
Proof.
  intros Hall. unfold validate_rte_format.
  rewrite for_each_fixed.
  - unfold mbind, result_bind. by rewrite fmap_insert, fmap_empty.
  - eapply Forall_impl; [exact Hall|].
    intros html_data. apply validate_html_data_valid.
Qed.

(** C2, amended: a grammatical soup (every tag allowed and under a
    permitted parent, no top-level node without a name) leaves the
    report as it was and is returned as not invalid; and
    [validate_rte_format] reports nothing, in particular leaves
    ["strings"] empty, when in addition every collapsible carries
    non-empty content that decodes to a grammatical fragment and
    every tab's content does too. *)
Theorem grammatical_fragment_passes (rte_format : str) :
  (∀ soup err_dict,
     grammatical (spec_for rte_format) soup →
     validate_soup soup rte_format err_dict = Ok (false, err_dict)) ∧
  (∀ html_list,
     Forall (fragment_valid html_parser unescape_html json_loads
                            (spec_for rte_format)) html_list →
     validate_format html_list rte_format = Ok (<[py "strings" := []]> ∅)).
Proof.
  split.
  - intros soup err_dict. apply validate_soup_grammatical.
  - intros html_list. apply validate_rte_format_valid.
Qed.

Lemma validate_tag_keeps_key spec tag st st' (key : str) :
  validate_tag spec tag st = Ok st' →
  is_Some (st.2 !! key) → is_Some (st'.2 !! key).
Proof.
  destruct st as [b d]. unfold validate_tag.
  destruct (bool_decide (el_name tag ∈ ALLOWED_TAG_LIST spec)).
  - destruct (ALLOWED_PARENT_LIST spec !! el_name tag); [|done].
    destruct (bool_decide _); intros [= <-]; [done|].
    apply err_append_is_Some.
  - intros [= <-]. apply err_append_is_Some.
Qed.

Lemma validate_soup_keeps_key soup rte_format err_dict is_invalid err_dict'
    (key : str) :
  validate_soup soup rte_format err_dict = Ok (is_invalid, err_dict') →
  is_Some (err_dict !! key) → is_Some (err_dict' !! key).
Proof.
  unfold validate_soup_for_rte. intros Hrun Hk.
  apply (for_each_invariant (λ st, is_Some (st.2 !! key)) _ _ _ _
           (λ tag st st' _ Hst Hstep, validate_tag_keeps_key _ _ _ _ _ Hstep Hst))
    in Hrun; done.
Qed.

Lemma strings_append_keeps_key is_invalid html_data err_dict (key : str) :
  is_Some (err_dict !! key) →
  is_Some (strings_append is_invalid html_data err_dict !! key).
Proof. destruct is_invalid; [apply err_append_is_Some|done]. Qed.

Lemma validate_html_data_keeps_key rte_format html_data err_dict err_dict'
    (key : str) :
  validate_data rte_format html_data err_dict = Ok err_dict' →
  is_Some (err_dict !! key) → is_Some (err_dict' !! key).
Proof.
  unfold validate_html_data. intros Hrun Hk.
  apply bind_Ok in Hrun as ([b d1] & Hsoup & Hrun).
  apply bind_Ok in Hrun as (d2 & Hcoll & Htabs).
  apply validate_soup_keeps_key with (key := key) in Hsoup; [|done].
  apply (strings_append_keeps_key b html_data) in Hsoup.
  revert Htabs. apply (for_each_invariant (λ d, is_Some (d !! key))).
  - intros tabs d d' _ Hd. unfold validate_tabs. intros Hstep.
    apply bind_Ok in Hstep as (value & _ & Hstep).
    apply bind_Ok in Hstep as (tab_content_list & _ & Hstep).
    apply bind_Ok in Hstep as (items & _ & Hstep).
    revert Hstep. apply (for_each_invariant (λ d, is_Some (d !! key))); [|done].
    intros tab d3 d4 _ Hd3. unfold validate_tab. intros Hstep.
    apply bind_Ok in Hstep as (content & _ & Hstep).
    apply bind_Ok in Hstep as (content_html & _ & Hstep).
    apply bind_Ok in Hstep as ([b' d5] & Hnested & [= <-]).
    apply strings_append_keeps_key.
    by eapply validate_soup_keeps_key.
  - revert Hcoll. apply (for_each_invariant (λ d, is_Some (d !! key))); [|done].
    intros collapsible d d' _ Hd. unfold validate_collapsible. intros Hstep.
    apply bind_Ok in Hstep as ([b' d3] & Hcheck & [= <-]).
    apply strings_append_keeps_key.
    destruct (_ || _).
    + by injection Hcheck as <- <-.
    + apply bind_Ok in Hcheck as (value & _ & Hcheck).
      apply bind_Ok in Hcheck as (decoded & _ & Hcheck).
      apply bind_Ok in Hcheck as (content_html & _ & Hcheck).
      by eapply validate_soup_keeps_key.
Qed.

(** C10: whenever [validate_rte_format] returns, the returned
    dictionary has the key ["strings"], no value occurs twice in any
    of its lists, and the list under ["strings"] is empty when every
    fragment is valid. *)
Theorem validate_rte_format_report
    (html_list : list str) (rte_format : str) (err_dict : gmap str (list str)) :
  validate_format html_list rte_format = Ok err_dict →
  is_Some (err_dict !! py "strings") ∧
  (∀ key values, err_dict !! key = Some values → NoDup values) ∧
  (Forall (fragment_valid html_parser unescape_html json_loads
                          (spec_for rte_format)) html_list →
   err_dict !! py "strings" = Some []).
Proof.
  intros Hrun. split; [|split].
  - unfold validate_rte_format in Hrun.
    apply bind_Ok in Hrun as (d & Hloop & [= <-]).
    rewrite lookup_fmap. apply fmap_is_Some.
    revert Hloop. apply (for_each_invariant (λ d, is_Some (d !! py "strings"))).
    + intros html_data d1 d2 _ Hd Hstep.
      by eapply validate_html_data_keeps_key.
    + rewrite lookup_insert_eq. eauto.
  - unfold validate_rte_format in Hrun.
    apply bind_Ok in Hrun as (d & _ & [= <-]).
    intros key values. rewrite lookup_fmap.
    destruct (d !! key) as [l|]; [|done]. intros [= <-].
    unfold list_set. apply NoDup_elements.
  - intros Hall. rewrite validate_rte_format_valid in Hrun by done.
    injection Hrun as <-. apply lookup_insert_eq.
Qed.
End TagGrammarTheorems.


(** Concrete runs of the grammar validator. *)


Ltac not_in_list :=
  let H := fresh "Hin" in
  intros H;
  repeat (apply elem_of_cons in H as [H|H]; [discriminate H|]);
  apply elem_of_nil in H; exact H.

Lemma sample_spec_parents_known rte_format name :
  name ∈ ALLOWED_TAG_LIST
           (rte_spec_for sample_format sample_spec sample_spec rte_format) →
  is_Some (ALLOWED_PARENT_LIST
             (rte_spec_for sample_format sample_spec sample_spec rte_format)
           !! name).
Proof.
  unfold rte_spec_for. destruct (decide _); cbn [ALLOWED_TAG_LIST sample_spec];
    intros Hin;
    repeat (apply elem_of_cons in Hin as [->|Hin]; [vm_compute; eauto|]);
    by apply elem_of_nil in Hin.
Qed.

Lemma sample_soup_grammatical : grammatical sample_spec sample_soup.
Proof.
  split.
  - repeat constructor.
  - repeat constructor; cbn; try (eexists; split; [vm_compute; reflexivity|]);
      rewrite ?elem_of_cons; auto 10.
Qed.

Lemma validate_soup_for_rte_report_witness :
  let soup := Soup [leaf "foo"; Tag (py "b") [] []] in
  (∀ name,
     name ∈ ALLOWED_TAG_LIST sample_spec →
     is_Some (ALLOWED_PARENT_LIST sample_spec !! name)) ∧
  ∃ is_invalid err_dict',
    validate_soup_for_rte sample_format sample_spec sample_spec
                          soup sample_format ∅ = Ok (is_invalid, err_dict') ∧
    (∀ tag, tag ∈ findAll soup →
       (el_name tag ∉ ALLOWED_TAG_LIST sample_spec →
          el_name tag ∈ bucket invalid_tags_key err_dict' ∧ is_invalid = true) ∧
       (el_name tag ∈ ALLOWED_TAG_LIST sample_spec →
          ∀ parents,
            ALLOWED_PARENT_LIST sample_spec !! el_name tag = Some parents →
            el_parent tag ∉ parents →
            el_parent tag ∈ bucket (el_name tag) err_dict' ∧
            is_invalid = true)) ∧
    (∀ key, key ∉ ALLOWED_TAG_LIST sample_spec → key ≠ invalid_tags_key →
            err_dict' !! key = (∅ : gmap str (list str)) !! key).
Proof.
  intros soup. split.
  - apply (sample_spec_parents_known sample_format).
  - apply (validate_soup_for_rte_report sample_format sample_spec sample_spec
             soup sample_format ∅).
    apply (sample_spec_parents_known sample_format).
Defined.

(** C1 as stated fails: [<foo>] at top level is not an allowed tag and
    the document is not in its allowed-parent set, yet only
    ["invalidTags"] is filled; nothing is recorded under ["foo"]. *)
Lemma disallowed_tag_parent_not_recorded :
  let soup := Soup [leaf "foo"] in
  let tag := MkElement (py "foo") [] [] document_name in
  tag ∈ findAll soup ∧
  (el_name tag ∉ ALLOWED_TAG_LIST sample_spec) ∧
  ALLOWED_PARENT_LIST sample_spec !! el_name tag = Some [py "p"] ∧
  (el_parent tag ∉ [py "p"]) ∧
  validate_soup_for_rte sample_format sample_spec sample_spec
                        soup sample_format ∅
  = Ok (true, <[invalid_tags_key := [py "foo"]]> ∅) ∧
  el_parent tag ∉ bucket (el_name tag)
                    (<[invalid_tags_key := [py "foo"]]> ∅).
Proof.
  cbv zeta. split; [by left|].
  split; [cbn; not_in_list|].
  split; [vm_compute; reflexivity|].
  split; [not_in_list|].
  split; [vm_compute; reflexivity|].
  unfold bucket. rewrite lookup_insert_ne by done.
  rewrite lookup_empty. apply not_elem_of_nil.
Qed.

Lemma grammatical_fragment_passes_witness :
  let parser := sample_parser sample_documents in
  grammatical sample_spec sample_soup ∧
  validate_soup_for_rte sample_format sample_spec sample_spec
                        sample_soup sample_format ∅ = Ok (false, ∅) ∧
  Forall (fragment_valid parser id sample_json_loads sample_spec) [sample_html] ∧
  validate_rte_format sample_format sample_spec sample_spec parser id
                      sample_json_loads [sample_html] sample_format
  = Ok (<[py "strings" := []]> ∅).
Proof.
  intros parser.
  pose proof (grammatical_fragment_passes sample_format sample_spec sample_spec
                parser id sample_json_loads sample_format) as [Hsoup Hformat].
  assert (Hspec : rte_spec_for sample_format sample_spec sample_spec
                               sample_format = sample_spec) by reflexivity.
  rewrite Hspec in Hsoup, Hformat.
  assert (Hvalid : Forall (fragment_valid parser id sample_json_loads sample_spec)
                          [sample_html]).
  { constructor; [|constructor]. unfold fragment_valid.
    replace (parser _) with sample_soup by (vm_compute; reflexivity).
    split; [exact sample_soup_grammatical|].
    split.
    - replace (findAll_name _ _) with (@nil Element) by (vm_compute; reflexivity).
      constructor.
    - replace (findAll_name _ _) with (@nil Element) by (vm_compute; reflexivity).
      constructor. }
  split; [exact sample_soup_grammatical|].
  split; [exact (Hsoup sample_soup ∅ sample_soup_grammatical)|].
  split; [exact Hvalid|exact (Hformat [sample_html] Hvalid)].
Defined.

(** C2 as stated fails for [validate_rte_format]: a collapsible without
    its content attribute is an allowed tag under a permitted parent,
    the soup has no top-level text and passes [validate_soup_for_rte],
    yet the fragment is put under ["strings"]. *)
Lemma collapsible_without_content_is_invalid :
  let parser := sample_parser sample_documents in
  let soup := parser (str_replace br_open br_closed bare_collapsible_html) in
  soup = bare_collapsible_soup ∧
  grammatical sample_spec soup ∧
  validate_soup_for_rte sample_format sample_spec sample_spec
                        soup sample_format ∅ = Ok (false, ∅) ∧
  validate_rte_format sample_format sample_spec sample_spec parser id
                      sample_json_loads [bare_collapsible_html] sample_format
  = Ok (<[py "strings" := [bare_collapsible_html]]> ∅).
Proof.
  cbv zeta. split; [vm_compute; reflexivity|].
  split.
  { replace (sample_parser _ _) with bare_collapsible_soup
      by (vm_compute; reflexivity).
    split.
    - repeat constructor.
    - repeat constructor; cbn; try (eexists; split; [vm_compute; reflexivity|]);
        rewrite ?elem_of_cons; auto 10. }
  split; vm_compute; reflexivity.
Qed.

Lemma validate_rte_format_report_witness :
  let parser := sample_parser sample_documents in
  let html_list := [bare_collapsible_html; sample_html; bare_collapsible_html] in
  let err_dict : gmap str (list str) :=
    <[py "strings" := [bare_collapsible_html]]> ∅ in
  validate_rte_format sample_format sample_spec sample_spec parser id
                      sample_json_loads html_list sample_format = Ok err_dict ∧
  is_Some (err_dict !! py "strings") ∧
  (∀ key values, err_dict !! key = Some values → NoDup values).
Proof.
  intros parser html_list err_dict.
  assert (Hrun : validate_rte_format sample_format sample_spec sample_spec parser
                   id sample_json_loads html_list sample_format = Ok err_dict)
    by (vm_compute; reflexivity).
  split; [exact Hrun|].
  destruct (validate_rte_format_report sample_format sample_spec sample_spec
              parser id sample_json_loads html_list sample_format err_dict Hrun)
    as (Hkey & Hnodup & _).
  split; [exact Hkey|exact Hnodup].
Defined.


(** ** SVG sanitization *)

Section SvgTheorems.
Variable html_parser : str → BeautifulSoup.
Variable SVG_ATTRS_ALLOWLIST : gmap str (list str).
Variable lower : str → str.

Lemma check_attrs_loop name allowed attrs invalid_attrs :
  fold_left (check_attr lower name allowed) attrs invalid_attrs =
  invalid_attrs ++
    (tag_attr_ref name <$> filter (λ attr, lower attr ∉ allowed) attrs).
Proof.
  revert invalid_attrs; induction attrs as [|attr attrs IH]; intros acc.
  - cbn. by rewrite app_nil_r.
  - cbn [fold_left]. rewrite IH. unfold check_attr. rewrite filter_cons.
    destruct (decide (lower attr ∈ allowed)) as [Hin|Hnin].
    + rewrite bool_decide_eq_true_2 by done.
      by rewrite decide_False by auto.
    + rewrite bool_decide_eq_false_2 by done.
      rewrite decide_True by done. by rewrite fmap_cons, <- app_assoc.
Qed.

Lemma check_element_spec acc element :
  check_element SVG_ATTRS_ALLOWLIST lower acc element =
  (acc.1 ++ spec_invalid_element SVG_ATTRS_ALLOWLIST lower element,
   acc.2 ++ spec_invalid_attrs SVG_ATTRS_ALLOWLIST lower element).
Proof.
  destruct acc as [invalid_elements invalid_attrs].
  unfold check_element, spec_invalid_element, spec_invalid_attrs.
  destruct (SVG_ATTRS_ALLOWLIST !! lower (el_name element)) as [allowed|]; cbn.
  - by rewrite check_attrs_loop, app_nil_r.
  - by rewrite app_nil_r.
Qed.

Lemma check_elements_loop elements acc :
  fold_left (check_element SVG_ATTRS_ALLOWLIST lower) elements acc =
  (acc.1 ++ flat_map (spec_invalid_element SVG_ATTRS_ALLOWLIST lower) elements,
   acc.2 ++ flat_map (spec_invalid_attrs SVG_ATTRS_ALLOWLIST lower) elements).
Proof.
  revert acc; induction elements as [|element elements IH]; intros acc.
  - cbn. rewrite !app_nil_r. by destruct acc.
  - cbn [fold_left flat_map]. rewrite IH, check_element_spec. cbn.
    by rewrite <- !app_assoc.
Qed.

(** C7: the two lists are the per-element contributions in document
    order.  An element whose lower-cased name is not a key of the
    allowlist contributes its name to the invalid elements and, whatever
    its attributes are, nothing to the invalid attributes; an element
    with a known name contributes nothing to the invalid elements and
    ["tag:attribute"] for each of its attributes outside the allowed
    set.  So no element contributes to both lists. *)
Theorem get_invalid_svg_tags_and_attrs_per_element (svg_string : str) :
  let elements := findAll (html_parser svg_string) in
  let invalid_element := spec_invalid_element SVG_ATTRS_ALLOWLIST lower in
  let invalid_attrs := spec_invalid_attrs SVG_ATTRS_ALLOWLIST lower in
  get_invalid_svg_tags_and_attrs html_parser SVG_ATTRS_ALLOWLIST lower svg_string
  = (flat_map invalid_element elements, flat_map invalid_attrs elements) ∧
  ∀ element,
    (SVG_ATTRS_ALLOWLIST !! lower (el_name element) = None →
       ∀ acc,
         check_element SVG_ATTRS_ALLOWLIST lower acc element
         = (acc.1 ++ [el_name element], acc.2)) ∧
    (∀ allowed,
       SVG_ATTRS_ALLOWLIST !! lower (el_name element) = Some allowed →
       ∀ acc,
         check_element SVG_ATTRS_ALLOWLIST lower acc element
         = (acc.1,
            acc.2 ++ (tag_attr_ref (el_name element) <$>
                      filter (λ attr, lower attr ∉ allowed)
                             ((el_attrs element).*1)))) ∧
    (invalid_element element = [] ∨ invalid_attrs element = []).
Proof.
  cbv zeta. split.
  - unfold get_invalid_svg_tags_and_attrs, soup_invalid_svg_tags_and_attrs.
    by rewrite check_elements_loop.
  - intros element. split; [|split].
    + intros Hnone [a b]. unfold check_element. by rewrite Hnone.
    + intros allowed Hsome [a b]. unfold check_element. rewrite Hsome.
      by rewrite check_attrs_loop.
    + unfold spec_invalid_element, spec_invalid_attrs.
      destruct (SVG_ATTRS_ALLOWLIST !! lower (el_name element)); auto.
Qed.

Lemma findAll_name_nil name soup :
  (∀ tag, tag ∈ findAll soup → el_name tag ≠ name) →
  findAll_name name soup = [].
Proof.
  intros Hno. unfold findAll_name.
  induction (findAll soup) as [|tag tags IH]; [done|].
  rewrite filter_cons_False.
  - apply IH. intros tag' Hin. apply Hno. by right.
  - apply Hno. by left.
Qed.

(** C9: a document without any [svg] tag passes the namespace check. *)
Theorem no_svg_tag_contains_xmlns (svg_string : str) :
  (∀ tag, tag ∈ findAll (html_parser svg_string) → el_name tag ≠ py "svg") →
  does_svg_tag_contains_xmlns_attribute html_parser svg_string = true.
Proof.
  intros Hno. unfold does_svg_tag_contains_xmlns_attribute,
    soup_svg_tags_contain_xmlns.
  by rewrite findAll_name_nil.
Qed.
End SvgTheorems.

Lemma no_svg_tag_contains_xmlns_witness :
  let parser := sample_parser sample_documents in
  (∀ tag, tag ∈ findAll (parser sample_html) → el_name tag ≠ py "svg") ∧
  does_svg_tag_contains_xmlns_attribute parser sample_html = true.
Proof.
  intros parser.
  assert (Hno : ∀ tag, tag ∈ findAll (parser sample_html) →
                       el_name tag ≠ py "svg").
  { replace (parser sample_html) with sample_soup by (vm_compute; reflexivity).
    intros tag Hin. cbn in Hin.
    repeat (apply elem_of_cons in Hin as [->|Hin]; [discriminate|]).
    by apply elem_of_nil in Hin. }
  split; [exact Hno|].
  exact (no_svg_tag_contains_xmlns parser sample_html Hno).
Defined.

Lemma get_invalid_svg_tags_and_attrs_per_element_witness :
  let parser := sample_parser [(sample_svg_html, sample_svg_soup)] in
  let script := MkElement (py "script") [(py "src", py "y")] [] (py "svg") in
  get_invalid_svg_tags_and_attrs parser sample_svg_allowlist sample_lower
                                 sample_svg_html
  = ([py "script"], [py "svg:onload"]) ∧
  sample_svg_allowlist !! sample_lower (el_name script) = None ∧
  ∀ acc, check_element sample_svg_allowlist sample_lower acc script
         = (acc.1 ++ [py "script"], acc.2).
Proof.
  intros parser script.
  destruct (get_invalid_svg_tags_and_attrs_per_element parser
              sample_svg_allowlist sample_lower sample_svg_html)
    as [Hreport Helement].
  split; [rewrite Hreport; vm_compute; reflexivity|].
  assert (Hnone : sample_svg_allowlist !! sample_lower (el_name script) = None)
    by (vm_compute; reflexivity).
  split; [exact Hnone|].
  destruct (Helement script) as (Hunknown & _ & _).
  exact (Hunknown Hnone).
Defined.


(** ** Math schema migration *)

(** Induction on trees, with the hypothesis for all children. *)
Lemma Node_ind_nested (P : Node → Prop) :
  (∀ text, P (NavigableString text)) →
  (∀ name attrs contents, Forall P contents → P (Tag name attrs contents)) →
  ∀ n, P n.
Proof.
  intros Htext Htag. fix IH 1. intros [text|name attrs contents].
  - apply Htext.
  - apply Htag. induction contents as [|c contents IHc]; constructor.
    + apply IH.
    + exact IHc.
Qed.

Lemma elements_of_Tag parent name attrs contents :
  elements_of parent (Tag name attrs contents) =
  MkElement name attrs contents parent :: elements_below name contents.
Proof.
  reflexivity.
Qed.

Lemma has_math_tag_Tag name attrs contents :
  has_math_tag (Tag name attrs contents) =
  bool_decide (name = math_tag_name) || existsb has_math_tag contents.
Proof.
  reflexivity.
Qed.

Lemma settled_Tag name attrs contents :
  settled (Tag name attrs contents) =
  (if decide (name = math_tag_name) then attrs_settled attrs else true)
  && forallb settled contents.
Proof.
  reflexivity.
Qed.

Lemma nesting_free_Tag name attrs contents :
  nesting_free (Tag name attrs contents) =
  (if decide (name = math_tag_name)
   then negb (existsb has_math_tag contents) else true)
  && forallb nesting_free contents.
Proof.
  reflexivity.
Qed.

Lemma math_tag_below parent n tag :
  tag ∈ elements_of parent n → el_name tag = math_tag_name →
  has_math_tag n = true.
Proof.
  revert parent. induction n as [text|name attrs contents IH] using Node_ind_nested;
    intros parent Hin Hname.
  - by apply elem_of_nil in Hin.
  - rewrite elements_of_Tag in Hin. rewrite has_math_tag_Tag.
    apply elem_of_cons in Hin as [->|Hin].
    + cbn in Hname. subst name. by rewrite bool_decide_eq_true_2.
    + apply orb_true_iff; right. apply existsb_exists.
      unfold elements_below in Hin.
      apply list_elem_of_In, in_flat_map in Hin as (c & Hc & Hin).
      exists c. split; [done|].
      rewrite Forall_forall in IH. apply list_elem_of_In in Hc, Hin. eauto.
Qed.

(** Attribute dictionaries. *)
Lemma attr_get_attr_set (key value : str) attrs :
  attr_get key (attr_set key value attrs) = Some value.
Proof.
  induction attrs as [|[k v] attrs IH]; cbn.
  - by rewrite decide_True.
  - destruct (decide (k = key)) as [->|Hne]; cbn.
    + by rewrite decide_True.
    + by rewrite decide_False.
Qed.

Lemma attr_get_attr_del (key : str) attrs :
  attr_get key (attr_del key attrs) = None.
Proof.
  unfold attr_del. induction attrs as [|[k v] attrs IH]; [done|].
  rewrite filter_cons. cbn. destruct (decide (k ≠ key)) as [Hne|Heq]; [|done].
  cbn. by rewrite decide_False.
Qed.

Lemma attr_get_attr_del_ne (key key' : str) attrs :
  key ≠ key' → attr_get key (attr_del key' attrs) = attr_get key attrs.
Proof.
  intros Hne. unfold attr_del. induction attrs as [|[k v] attrs IH]; [done|].
  rewrite filter_cons. cbn. destruct (decide (k ≠ key')) as [Hk|Hk]; cbn.
  - by rewrite IH.
  - apply dec_stable in Hk as ->. by rewrite decide_False.
Qed.

Lemma has_attr_true (key : str) attrs :
  has_attr key attrs = true ↔ is_Some (attr_get key attrs).
Proof. unfold has_attr. apply bool_decide_eq_true. Qed.

Lemma has_attr_false (key : str) attrs :
  has_attr key attrs = false ↔ attr_get key attrs = None.
Proof.
  unfold has_attr. rewrite bool_decide_eq_false.
  rewrite <- eq_None_not_Some. done.
Qed.


Section MigrationTheorems.
Variable unescape_html escape_html : str → str.
Variable json_loads : str → result json.
Variable json_dumps : json → str.
Variable UnicodeString_normalize : json → result str.
Variable MathExpressionContent_normalize : json → result json.
Variable html_parser : str → BeautifulSoup.
Variable serialize : BeautifulSoup → str.
Variable destroyed_tag_access : option exn.

Local Abbreviation step :=
  (migrate_math_tag unescape_html escape_html json_loads json_dumps
                    UnicodeString_normalize MathExpressionContent_normalize).
Local Abbreviation node_pass :=
  (migrate_node unescape_html escape_html json_loads json_dumps
                UnicodeString_normalize MathExpressionContent_normalize
                destroyed_tag_access).
Local Abbreviation nodes_pass :=
  (migrate_nodes unescape_html escape_html json_loads json_dumps
                 UnicodeString_normalize MathExpressionContent_normalize
                 destroyed_tag_access).
Local Abbreviation soup_pass :=
  (add_math_content_to_soup unescape_html escape_html json_loads json_dumps
     UnicodeString_normalize MathExpressionContent_normalize
     destroyed_tag_access).
Local Abbreviation string_pass :=
  (add_math_content_to_math_rte_components unescape_html escape_html
     json_loads json_dumps UnicodeString_normalize
     MathExpressionContent_normalize html_parser serialize
     destroyed_tag_access).

Lemma node_pass_Tag name attrs contents :
  node_pass (Tag name attrs contents) =
  if decide (name = math_tag_name) then
    outcome ← step attrs;
    match outcome with
    | Decomposed => after_decompose destroyed_tag_access contents
    | Kept attrs' =>
        contents' ← nodes_pass contents; Ok [Tag name attrs' contents']
    end
  else contents' ← nodes_pass contents; Ok [Tag name attrs contents'].
Proof. reflexivity. Qed.

Lemma attrs_kept_settled attrs value :
  attrs_settled
    (attr_del raw_latex_attr (attr_set math_content_attr value attrs)) = true.
Proof.
  unfold attrs_settled. apply andb_true_iff. split.
  - apply negb_true_iff, has_attr_false, attr_get_attr_del.
  - apply has_attr_true. rewrite attr_get_attr_del_ne by done.
    rewrite attr_get_attr_set. eauto.
Qed.

Lemma step_kept attrs attrs' :
  step attrs = Ok (Kept attrs') → attrs_settled attrs' = true.
Proof.
  unfold migrate_math_tag.
  destruct (has_attr raw_latex_attr attrs) eqn:Hraw.
  - intros Hrun. apply bind_Ok in Hrun as (value & _ & Hrun).
    destruct value as [|c value]; [done|].
    apply bind_Ok in Hrun as (raw_latex & _ & Hrun).
    apply bind_Ok in Hrun as (normalized & _ & Hrun).
    apply bind_Ok in Hrun as ([content attrs1] & _ & Hrun).
    apply bind_Ok in Hrun as (normalized_content & _ & Hrun).
    injection Hrun as <-. apply attrs_kept_settled.
  - destruct (has_attr math_content_attr attrs) eqn:Hnew; [|done].
    intros [= <-]. unfold attrs_settled. by rewrite Hraw, Hnew.
Qed.

Lemma step_settled attrs :
  attrs_settled attrs = true → step attrs = Ok (Kept attrs).
Proof.
  unfold attrs_settled. intros [Hraw Hnew]%andb_true_iff.
  apply negb_true_iff in Hraw. unfold migrate_math_tag.
  by rewrite Hraw, Hnew.
Qed.

Lemma nodes_pass_settles l l' :
  Forall (λ n, ∀ ns, node_pass n = Ok ns → forallb settled ns = true) l →
  nodes_pass l = Ok l' → forallb settled l' = true.
Proof.
  intros Hall. revert l'. induction Hall as [|c l Hc _ IH]; intros l' Hrun.
  - by injection Hrun as <-.
  - cbn [migrate_nodes] in Hrun.
    apply bind_Ok in Hrun as (c' & Hc' & Hrun).
    apply bind_Ok in Hrun as (l'' & Hl'' & [= <-]).
    rewrite forallb_app. apply andb_true_iff. split; [by apply Hc|by apply IH].
Qed.

Lemma node_pass_settles n ns :
  node_pass n = Ok ns → forallb settled ns = true.
Proof.
  revert ns. induction n as [text|name attrs contents IH] using Node_ind_nested;
    intros ns Hrun.
  - by injection Hrun as <-.
  - rewrite node_pass_Tag in Hrun.
    destruct (decide (name = math_tag_name)) as [Hname|Hname].
    + apply bind_Ok in Hrun as ([attrs'|] & Hstep & Hrun).
      * apply bind_Ok in Hrun as (contents' & Hc & [= <-]).
        cbn [forallb]. rewrite settled_Tag, decide_True by done.
        rewrite (step_kept _ _ Hstep).
        by rewrite (nodes_pass_settles _ _ IH Hc).
      * unfold after_decompose in Hrun.
        destruct (existsb _ _); [destruct destroyed_tag_access|];
          by simplify_eq.
    + apply bind_Ok in Hrun as (contents' & Hc & [= <-]).
      cbn [forallb]. rewrite settled_Tag, decide_False by done.
      by rewrite (nodes_pass_settles _ _ IH Hc).
Qed.

Lemma nodes_pass_settled_list l :
  Forall (λ n, settled n = true → node_pass n = Ok [n]) l →
  forallb settled l = true → nodes_pass l = Ok l.
Proof.
  induction 1 as [|c l Hc _ IH]; [done|].
  cbn [forallb migrate_nodes]. intros [Hs Hl]%andb_true_iff.
  rewrite (Hc Hs). cbn. by rewrite (IH Hl).
Qed.

Lemma node_pass_settled n : settled n = true → node_pass n = Ok [n].
Proof.
  induction n as [text|name attrs contents IH] using Node_ind_nested; [done|].
  rewrite settled_Tag, node_pass_Tag. intros [Hattrs Hc]%andb_true_iff.
  rewrite (nodes_pass_settled_list _ IH Hc).
  destruct (decide (name = math_tag_name)); [|done].
  by rewrite (step_settled _ Hattrs).
Qed.

Lemma nodes_pass_settled l : forallb settled l = true → nodes_pass l = Ok l.
Proof.
  apply nodes_pass_settled_list, Forall_forall.
  intros n _. apply node_pass_settled.
Qed.

Lemma soup_pass_fixed soup soup' :
  soup_pass soup = Ok soup' → soup_pass soup' = Ok soup'.
Proof.
  unfold add_math_content_to_soup. intros Hrun.
  apply bind_Ok in Hrun as (contents & Hc & [= <-]). cbn.
  rewrite nodes_pass_settled; [done|].
  eapply nodes_pass_settles; [|exact Hc].
  apply Forall_forall. intros n _ ns. apply node_pass_settles.
Qed.


Lemma nodes_pass_app l1 l2 :
  nodes_pass (l1 ++ l2) =
  l1' ← nodes_pass l1; l2' ← nodes_pass l2; Ok (l1' ++ l2').
Proof.
  induction l1 as [|c l1 IH]; cbn [app migrate_nodes].
  - rewrite result_bind_Ok. by destruct (nodes_pass l2).
  - destruct (node_pass c) as [c'|e]; [|done]. rewrite !result_bind_Ok, IH.
    destruct (nodes_pass l1) as [l1'|e]; [|done]. rewrite !result_bind_Ok.
    destruct (nodes_pass l2) as [l2'|e]; [|done].
    by rewrite !result_bind_Ok, app_assoc.
Qed.

Lemma settled_math_tags l parent tag :
  forallb settled l = true →
  tag ∈ elements_below parent l → el_name tag = math_tag_name →
  attrs_settled (el_attrs tag) = true.
Proof.
  intros Hl Hin Hname. revert parent Hin Hl.
  assert (Hnode : ∀ n parent, tag ∈ elements_of parent n →
                              settled n = true →
                              attrs_settled (el_attrs tag) = true).
  { induction n as [text|name attrs contents IH] using Node_ind_nested;
      intros parent Hin Hs.
    - by apply elem_of_nil in Hin.
    - rewrite elements_of_Tag in Hin. rewrite settled_Tag in Hs.
      apply andb_true_iff in Hs as [Hattrs Hc].
      apply elem_of_cons in Hin as [->|Hin].
      + cbn in Hname. cbn. by rewrite decide_True in Hattrs.
      + apply list_elem_of_In, in_flat_map in Hin as (c & Hc' & Hin).
        rewrite Forall_forall in IH. rewrite forallb_forall in Hc.
        eapply (IH c); [by apply list_elem_of_In| |by apply Hc].
        apply list_elem_of_In. exact Hin. }
  intros parent Hin Hl.
  apply list_elem_of_In, in_flat_map in Hin as (c & Hc & Hin).
  rewrite forallb_forall in Hl.
  apply (Hnode c parent); [by apply list_elem_of_In|by apply Hl].
Qed.


Lemma step_raises attrs value e :
  attr_get raw_latex_attr attrs = Some value →
  value ≠ [] →
  (json_loads (unescape_html value) = Raise e ∨
   ∃ raw_latex, json_loads (unescape_html value) = Ok raw_latex ∧
                UnicodeString_normalize raw_latex = Raise e) →
  step attrs = Raise e.
Proof.
  intros Hraw Hne Hfail. unfold migrate_math_tag, getitem.
  rewrite (proj2 (has_attr_true _ _)) by (rewrite Hraw; eauto).
  rewrite Hraw, result_bind_Ok. destruct value as [|c value]; [done|].
  destruct Hfail as [-> | (raw_latex & -> & Hnorm)]; [done|].
  by rewrite result_bind_Ok, Hnorm.
Qed.

Section Raises.
Variable tag : Element.
Hypothesis tag_is_math : el_name tag = math_tag_name.
Hypothesis tag_raises : ∃ e, step (el_attrs tag) = Raise e.

Lemma nodes_pass_raises_list parent l :
  Forall (λ n, ∀ parent,
            tag ∈ elements_of parent n →
            is_Some destroyed_tag_access ∨ nesting_free n = true →
            ∃ e, node_pass n = Raise e) l →
  tag ∈ elements_below parent l →
  is_Some destroyed_tag_access ∨ forallb nesting_free l = true →
  ∃ e, nodes_pass l = Raise e.
Proof.
  induction 1 as [|c l Hc _ IH]; intros Hin Hcond.
  - by apply elem_of_nil in Hin.
  - unfold elements_below in Hin. cbn [flat_map] in Hin.
    cbn [migrate_nodes].
    destruct (node_pass c) as [c'|e] eqn:Hrun; [|by exists e].
    apply elem_of_app in Hin as [Hin|Hin].
    + destruct (Hc parent Hin) as [e He]; [|congruence].
      destruct Hcond as [?|[? _]%andb_true_iff]; auto.
    + destruct IH as [e He]; [done| |].
      * destruct Hcond as [?|[_ ?]%andb_true_iff]; auto.
      * exists e. by rewrite result_bind_Ok, He.
Qed.

Lemma node_pass_raises n parent :
  tag ∈ elements_of parent n →
  is_Some destroyed_tag_access ∨ nesting_free n = true →
  ∃ e, node_pass n = Raise e.
Proof.
  revert parent.
  induction n as [text|name attrs contents IH] using Node_ind_nested;
    intros parent Hin Hcond.
  - by apply elem_of_nil in Hin.
  - rewrite elements_of_Tag in Hin. rewrite node_pass_Tag.
    apply elem_of_cons in Hin as [Htag|Hin].
    + subst tag. cbn in tag_is_math, tag_raises.
      destruct tag_raises as [e He].
      rewrite decide_True, He by done. by exists e.
    + assert (Hbelow : existsb has_math_tag contents = true).
      { apply list_elem_of_In, in_flat_map in Hin as (c & Hc & Hin).
        apply existsb_exists. exists c. split; [done|].
        eapply math_tag_below; [by apply list_elem_of_In|done]. }
      destruct (nodes_pass_raises_list name contents IH Hin) as [e He].
      { destruct Hcond as [?|Hfree]; [by left|right].
        rewrite nesting_free_Tag in Hfree.
        by apply andb_true_iff in Hfree as [_ ?]. }
      destruct (decide (name = math_tag_name)) as [Hname|Hname].
      * destruct (step attrs) as [[attrs'|]|e'] eqn:Hstep.
        -- exists e. by rewrite result_bind_Ok, He.
        -- rewrite result_bind_Ok. unfold after_decompose. rewrite Hbelow.
           destruct Hcond as [[e' ->]|Hfree]; [by exists e'|].
           rewrite nesting_free_Tag, decide_True, Hbelow in Hfree by done.
           done.
        -- by exists e'.
      * exists e. by rewrite He.
Qed.
End Raises.

(** C5: when the non-empty legacy attribute of a math tag fails to
    decode or to normalize, the loop body raises that exception, and
    the migration of a document containing such a tag raises: it never
    returns a result.  (The pass must reach the tag: either touching a
    destroyed tag raises anyway, or no math tag lies below another.) *)
Theorem undecodable_raw_latex_raises
    (html_string : str) (tag : Element) (value : str) (e : exn) :
  tag ∈ findAll_name math_tag_name (html_parser html_string) →
  attr_get raw_latex_attr (el_attrs tag) = Some value →
  value ≠ [] →
  (json_loads (unescape_html value) = Raise e ∨
   ∃ raw_latex, json_loads (unescape_html value) = Ok raw_latex ∧
                UnicodeString_normalize raw_latex = Raise e) →
  (is_Some destroyed_tag_access ∨
   forallb nesting_free (soup_contents (html_parser html_string)) = true) →
  step (el_attrs tag) = Raise e ∧
  ∃ e', soup_pass (html_parser html_string) = Raise e' ∧
        string_pass html_string = Raise e'.
Proof.
  intros Hin Hraw Hne Hfail Hcond.
  pose proof (step_raises _ _ _ Hraw Hne Hfail) as Hstep.
  split; [exact Hstep|].
  apply list_elem_of_filter in Hin as [Hname Hin].
  destruct (nodes_pass_raises_list tag document_name
              (soup_contents (html_parser html_string))) as [e' He']; auto.
  - apply Forall_forall. intros n _ parent.
    apply node_pass_raises; eauto.
  - exists e'. unfold add_math_content_to_math_rte_components,
      add_math_content_to_soup. by rewrite He'.
Qed.
End MigrationTheorems.


(** Concrete runs of the migration, with the stand-in collaborators. *)



Lemma undecodable_raw_latex_raises_witness :
  let parser := sample_parser math_documents in
  let tag := MkElement math_tag_name undecodable_math_attrs [] (py "p") in
  tag ∈ findAll_name math_tag_name (parser undecodable_math_html) ∧
  migrate_math_tag id id sample_json_loads sample_json_dumps
                   sample_normalize sample_content_normalize (el_attrs tag)
    = Raise ValueError ∧
  ∃ e',
    add_math_content_to_soup id id sample_json_loads sample_json_dumps
      sample_normalize sample_content_normalize None
      (parser undecodable_math_html) = Raise e' ∧
    add_math_content_to_math_rte_components id id sample_json_loads
      sample_json_dumps sample_normalize sample_content_normalize
      parser sample_serialize None undecodable_math_html = Raise e'.
Proof.
  intros parser tag.
  assert (Hin : tag ∈ findAll_name math_tag_name (parser undecodable_math_html)).
  { replace (parser undecodable_math_html) with undecodable_math_soup
      by (vm_compute; reflexivity).
    replace (findAll_name math_tag_name undecodable_math_soup)
      with [MkElement math_tag_name legacy_math_attrs [] document_name; tag]
      by (vm_compute; reflexivity).
    right. by left. }
  split; [exact Hin|].
  apply (undecodable_raw_latex_raises id id sample_json_loads sample_json_dumps
           sample_normalize sample_content_normalize parser sample_serialize
           None undecodable_math_html tag (py "x^2") ValueError).
  - exact Hin.
  - reflexivity.
  - discriminate.
  - left. vm_compute. reflexivity.
  - right. vm_compute. reflexivity.
Defined.

(** With a math tag below a decomposed one, the outcome is the one bs4
    gives to touching a destroyed tag. *)
Example nested_math_tag_example :
  let soup :=
    Soup [Tag math_tag_name [] [Tag math_tag_name undecodable_math_attrs []]] in
  let soup_pass access :=
    add_math_content_to_soup id id sample_json_loads sample_json_dumps
      sample_normalize sample_content_normalize access soup in
  soup_pass (Some TypeError) = Raise TypeError ∧ soup_pass None = Ok (Soup []).
Proof. split; vm_compute; reflexivity. Qed.


(** ** Sibling wrapping *)

Lemma enumerate_app {A} (k : nat) (l1 l2 : list A) :
  enumerate k (l1 ++ l2) = enumerate k l1 ++ enumerate (k + length l1) l2.
Proof.
  revert k; induction l1 as [|a l1 IH]; intros k; cbn.
  - by rewrite Nat.add_0_r.
  - rewrite IH. do 3 f_equal. lia.
Qed.

Lemma length_enumerate {A} (k : nat) (l : list A) :
  length (enumerate k l) = length l.
Proof. revert k; induction l as [|a l IH]; intros k; cbn; [done|]. by rewrite IH. Qed.

Lemma enumerate_enumerate {A} (k : nat) (l : list A) :
  enumerate k (enumerate k l) = (λ c, (c.1, c)) <$> enumerate k l.
Proof. revert k; induction l as [|a l IH]; intros k; cbn; [done|]. by rewrite IH. Qed.

Lemma enumerate_snd {A} (k : nat) (l : list A) : (enumerate k l).*2 = l.
Proof. revert k; induction l as [|a l IH]; intros k; cbn; [done|]. by rewrite IH. Qed.

Lemma as_siblings_app k l1 l2 :
  as_siblings k (l1 ++ l2) = as_siblings k l1 ++ as_siblings (k + length l1) l2.
Proof. unfold as_siblings. by rewrite enumerate_app, fmap_app. Qed.

Lemma as_siblings_no_wrapper k l : forallb is_wrapper (as_siblings k l) = false ∨ l = [].
Proof. destruct l; [by right|by left]. Qed.

Lemma find_wrapper_as_siblings k l rest :
  find_wrapper (as_siblings k l ++ rest) = (λ i, length l + i) <$> find_wrapper rest.
Proof.
  revert k; induction l as [|n l IH]; intros k; cbn.
  - by destruct (find_wrapper rest).
  - unfold as_siblings in IH. rewrite IH. by destruct (find_wrapper rest).
Qed.

Lemma find_sibling_as_siblings id k l rest :
  (id < k ∨ k + length l ≤ id) →
  find_sibling id (as_siblings k l ++ rest) =
  (λ c, (length l + c.1, c.2)) <$> find_sibling id rest.
Proof.
  revert k; induction l as [|n l IH]; intros k Hid; cbn.
  - destruct (find_sibling id rest) as [[i n]|]; done.
  - rewrite decide_False by (cbn in Hid; lia).
    unfold as_siblings in IH. rewrite IH by (cbn in Hid; lia).
    destruct (find_sibling id rest) as [[i n']|]; done.
Qed.

Lemma find_wrapper_siblings_only k l :
  find_wrapper (as_siblings k l) = None.
Proof.
  rewrite <- (app_nil_r (as_siblings k l)). by rewrite find_wrapper_as_siblings.
Qed.

Lemma find_sibling_app (id : nat) (l1 l2 : list child) :
  find_sibling id l1 = None →
  find_sibling id (l1 ++ l2) =
  (λ c, (length l1 + c.1, c.2)) <$> find_sibling id l2.
Proof.
  induction l1 as [|[i n|] l1 IH]; cbn.
  - intros _. by destruct (find_sibling id l2) as [[? ?]|].
  - destruct (decide (i = id)); [done|].
    destruct (find_sibling id l1) as [[? ?]|] eqn:H1; [done|]. intros _.
    rewrite IH by done. by destruct (find_sibling id l2) as [[? ?]|].
  - destruct (find_sibling id l1) as [[? ?]|] eqn:H1; [done|]. intros _.
    rewrite IH by done. by destruct (find_sibling id l2) as [[? ?]|].
Qed.

Lemma find_wrapper_app (l1 l2 : list child) :
  find_wrapper l1 = None →
  find_wrapper (l1 ++ l2) = (λ i, length l1 + i) <$> find_wrapper l2.
Proof.
  induction l1 as [|[i n|] l1 IH]; cbn.
  - intros _. by destruct (find_wrapper l2).
  - destruct (find_wrapper l1) eqn:H1; [done|]. intros _.
    rewrite IH by done. by destruct (find_wrapper l2).
  - done.
Qed.

Lemma list_insert_at_middle {A} (l1 l2 : list A) (x : A) :
  list_insert_at (length l1) x (l1 ++ l2) = l1 ++ x :: l2.
Proof. unfold list_insert_at. by rewrite take_app_length, drop_app_length. Qed.

(** One call of [wrap] on the sibling right behind the wrapper, or, when
    the wrapper is not yet among the children, on the first sibling to
    be wrapped. *)
Lemma wrap_in_line (l1 l2 : list child) (b : bool) (id : nat) (node : Node)
    (wrapped : list Node) :
  find_sibling id l1 = None →
  find_wrapper l1 = None →
  (b = false → find_wrapper l2 = None) →
  wrap id (Family (l1 ++ placed b ++ Sibling id node :: l2) wrapped)
  = Ok (Family (l1 ++ Wrapper :: l2) (wrapped ++ [node])).
Proof.
  intros Hid Hw1 Hw2.
  assert (Hfind : find_sibling id (l1 ++ placed b ++ Sibling id node :: l2)
                  = Some (length (l1 ++ placed b), node)).
  { rewrite find_sibling_app by done. rewrite length_app.
    destruct b; cbn; rewrite decide_True by done; cbn; do 2 f_equal; lia. }
  assert (Hdel : delete (length (l1 ++ placed b))
                        (l1 ++ placed b ++ Sibling id node :: l2)
                 = l1 ++ placed b ++ l2).
  { by rewrite (assoc_L (++)), delete_middle, <- (assoc_L (++)). }
  unfold wrap. cbn [fam_children fam_wrapped]. rewrite Hfind, Hdel.
  rewrite find_wrapper_app by done.
  destruct b; cbn [placed app find_wrapper fmap option_fmap option_map].
  - rewrite Nat.add_0_r, !length_app. cbn [length].
    rewrite bool_decide_eq_true_2 by lia.
    rewrite delete_middle.
    replace ((length l1 + 1) `min` (length l1 + S (length l2)) - 1)
      with (length l1) by lia.
    by rewrite list_insert_at_middle.
  - rewrite Hw2 by done. cbn. rewrite app_nil_r, length_app.
    replace (length l1 `min` (length l1 + length l2)) with (length l1) by lia.
    by rewrite list_insert_at_middle.
Qed.

Lemma for_each_app {A S : Type} (body : A → S → result S) (l1 l2 : list A) (s : S) :
  for_each body (l1 ++ l2) s = s' ← for_each body l1 s; for_each body l2 s'.
Proof.
  revert s; induction l1 as [|a l1 IH]; intros s; cbn; [done|].
  destruct (body a s) as [s1|e]; [|done]. cbn. apply IH.
Qed.

Lemma find_sibling_siblings_only id k l :
  id < k ∨ k + length l ≤ id → find_sibling id (as_siblings k l) = None.
Proof.
  intros Hid. rewrite <- (app_nil_r (as_siblings k l)).
  by rewrite find_sibling_as_siblings.
Qed.

Lemma length_as_siblings k l : length (as_siblings k l) = length l.
Proof. unfold as_siblings. by rewrite length_fmap, length_enumerate. Qed.

(** The items the second loop runs over, numbered from [k]. *)
Lemma previous_items_skipped (idx : Z) (l : list Node) (k : nat) (st : family) :
  (∀ i, k ≤ i < k + length l → ¬ (idx ≤ Z.of_nat i)%Z) →
  for_each (wrap_previous idx) ((λ c, (c.1, c)) <$> enumerate k l) st = Ok st.
Proof.
  revert k; induction l as [|n l IH]; intros k Hidx; [done|].
  cbn. rewrite bool_decide_eq_false_2 by (apply Hidx; cbn; lia). cbn.
  apply IH. intros i Hi. apply Hidx. cbn. lia.
Qed.

Lemma previous_items_wrapped (idx : Z) (run : list Node) (k : nat)
    (l1 l2 : list child) (b : bool) (wrapped : list Node) :
  (∀ i, k ≤ i → (idx ≤ Z.of_nat i)%Z) →
  (∀ id, k ≤ id → find_sibling id l1 = None) →
  find_wrapper l1 = None →
  (b = false → find_wrapper l2 = None) →
  for_each (wrap_previous idx) ((λ c, (c.1, c)) <$> enumerate k run)
           (Family (l1 ++ placed b ++ as_siblings k run ++ l2) wrapped)
  = Ok (Family (l1 ++ placed (b || bool_decide (run ≠ [])) ++ l2)
               (wrapped ++ run)).
Proof.
  revert k b wrapped; induction run as [|n run IH]; intros k b wrapped Hidx Hid Hw1 Hw2.
  - cbn. by rewrite orb_false_r, app_nil_r.
  - cbn [enumerate fmap list_fmap for_each wrap_previous fst snd].
    rewrite bool_decide_eq_true_2 by (apply Hidx; lia).
    unfold as_siblings. cbn [enumerate fmap list_fmap fst snd app].
    fold (as_siblings (S k) run).
    rewrite wrap_in_line; [|by apply Hid|done|].
    + rewrite result_bind_Ok.
      change (l1 ++ Wrapper :: as_siblings (S k) run ++ l2)
        with (l1 ++ placed true ++ as_siblings (S k) run ++ l2).
      rewrite IH; [|intros; apply Hidx; lia|intros; apply Hid; lia|done|done].
      rewrite (bool_decide_eq_true_2 (n :: run ≠ [])) by done.
      rewrite orb_true_r. cbn [orb]. by rewrite <- (assoc_L (++)).
    + intros Hb. rewrite find_wrapper_as_siblings, Hw2 by done. done.
Qed.

Lemma next_items_wrapped (after : list Node) (k : nat) (l1 : list child)
    (wrapped : list Node) :
  (∀ id, k ≤ id → find_sibling id l1 = None) →
  find_wrapper l1 = None →
  wrap_next (enumerate k after)
            (Family (l1 ++ Wrapper :: as_siblings k after) wrapped)
  = Ok (Family (l1 ++ Wrapper ::
                as_siblings (k + length (absorbed_after after)) (kept_after after))
               (wrapped ++ absorbed_after after)).
Proof.
  revert k wrapped; induction after as [|n after IH]; intros k wrapped Hid Hw1.
  - cbn. by rewrite ?app_nil_r, ?Nat.add_0_r.
  - cbn [enumerate wrap_next absorbed_after]. unfold kept_after.
    cbn [absorbed_after].
    destruct (is_independent n) eqn:Hn; cbn [negb length drop].
    + by rewrite ?app_nil_r, ?Nat.add_0_r.
    + unfold as_siblings. cbn [enumerate fmap list_fmap fst snd].
      fold (as_siblings (S k) after).
      pose proof (wrap_in_line l1 (as_siblings (S k) after) true k n wrapped)
        as Hwrap.
      cbn [placed app] in Hwrap. rewrite Hwrap; [|by apply Hid|done|done].
      rewrite result_bind_Ok, IH; [|intros; apply Hid; lia|done].
      unfold kept_after, as_siblings. rewrite <- (assoc_L (++)). cbn [app].
      by replace (k + S (length (absorbed_after after)))
        with (S k + length (absorbed_after after)) by lia.
Qed.

Lemma first_unwrapped_sibling_spec (l : list (nat * Node)) (k len i : nat) :
  k + length l = len →
  (first_unwrapped_sibling len (enumerate k l) ≤ Z.of_nat i)%Z ↔
  len - (k + length (absorbed_after (l.*2))) ≤ i.
Proof.
  revert k; induction l as [|[id sib] l IH]; intros k Hlen; cbn in *.
  - lia.
  - destruct (is_independent sib); cbn.
    + lia.
    + rewrite IH by lia. lia.
Qed.

Lemma absorbed_after_prefix l : l = absorbed_after l ++ kept_after l.
Proof.
  unfold kept_after. induction l as [|n l IH]; [done|]. cbn.
  destruct (is_independent n); [done|]. cbn. by rewrite <- IH.
Qed.

Lemma absorbed_after_dependent l :
  Forall (λ n, is_independent n = false) (absorbed_after l).
Proof.
  induction l as [|n l IH]; cbn; [constructor|].
  destruct (is_independent n) eqn:Hn; by constructor.
Qed.

Lemma kept_after_head l n :
  head (kept_after l) = Some n → is_independent n = true.
Proof.
  unfold kept_after. induction l as [|m l IH]; [done|]. cbn.
  destruct (is_independent m) eqn:Hm; cbn; [by intros [= <-]|exact IH].
Qed.

Lemma split_off_suffix {A} (l a b : list A) :
  l = a ++ b → l = take (length l - length b) l ++ b ∧
               take (length l - length b) l = a.
Proof.
  intros ->. by rewrite length_app, Nat.add_sub, take_app_length.
Qed.

Lemma absorbed_before_suffix l : l = kept_before l ++ absorbed_before l.
Proof.
  unfold kept_before, absorbed_before.
  pose proof (absorbed_after_prefix (reverse l)) as Hrev.
  apply (f_equal reverse) in Hrev.
  rewrite reverse_involutive, reverse_app in Hrev.
  by apply split_off_suffix in Hrev as [? _].
Qed.

Lemma kept_before_reverse l : kept_before l = reverse (kept_after (reverse l)).
Proof.
  unfold kept_before, absorbed_before.
  pose proof (absorbed_after_prefix (reverse l)) as Hrev.
  apply (f_equal reverse) in Hrev.
  rewrite reverse_involutive, reverse_app in Hrev.
  by apply split_off_suffix in Hrev as [_ ?].
Qed.

Lemma kept_before_last l n :
  last (kept_before l) = Some n → is_independent n = true.
Proof.
  rewrite kept_before_reverse, last_reverse. apply kept_after_head.
Qed.

Lemma render_families p_name p_attrs k1 l1 k2 l2 wrapped :
  render p_name p_attrs
         (Family (as_siblings k1 l1 ++ Wrapper :: as_siblings k2 l2) wrapped)
  = l1 ++ Tag p_name p_attrs wrapped :: l2.
Proof.
  assert (Hs : ∀ k l,
             (λ c, match c with
                   | Sibling _ node => node
                   | Wrapper => Tag p_name p_attrs wrapped
                   end) <$> as_siblings k l = l).
  { intros k l. revert k. induction l as [|n l IH]; intros k; [done|].
    unfold as_siblings in *. cbn. by rewrite IH. }
  unfold render. cbn [fam_children fam_wrapped].
  by rewrite fmap_app, fmap_cons, !Hs.
Qed.

Lemma take_enumerate {A} (k : nat) (l1 l2 : list A) :
  take (length l1) (enumerate k (l1 ++ l2)) = enumerate k l1.
Proof.
  rewrite enumerate_app. by apply take_app_length', eq_sym, length_enumerate.
Qed.

Lemma drop_enumerate {A} (k : nat) (l1 l2 : list A) (x : A) :
  drop (S (length l1)) (enumerate k (l1 ++ x :: l2))
  = enumerate (S (k + length l1)) l2.
Proof.
  rewrite enumerate_app. cbn [enumerate].
  rewrite cons_middle, (assoc_L (++)).
  apply drop_app_length'. rewrite length_app, length_enumerate. cbn. lia.
Qed.

Lemma wrap_with_siblings_unfold before tag after p_name p_attrs p_contents :
  wrap_with_siblings before tag after p_name p_attrs p_contents =
  st ← for_each
         (wrap_previous
            (first_unwrapped_sibling (length before)
               (enumerate 0 (reverse (enumerate 0 before)))))
         ((λ c, (c.1, c)) <$> enumerate 0 before)
         (Family (as_siblings 0 before ++
                  Sibling (length before) tag ::
                  as_siblings (S (length before)) after) p_contents);
  st ← wrap (length before) st;
  st ← wrap_next (enumerate (S (length before)) after) st;
  Ok (render p_name p_attrs st).
Proof.
  unfold wrap_with_siblings.
  rewrite take_enumerate, drop_enumerate, Nat.add_0_l.
  rewrite reverse_involutive, length_reverse, length_enumerate.
  rewrite enumerate_enumerate.
  unfold as_siblings. rewrite enumerate_app, fmap_app. cbn [enumerate].
  rewrite Nat.add_0_l. reflexivity.
Qed.


Lemma wrap_with_siblings_core kb ab tag after p_name p_attrs p_contents :
  (∀ i, (first_unwrapped_sibling (length (kb ++ ab))
           (enumerate 0 (reverse (enumerate 0 (kb ++ ab)))) ≤ Z.of_nat i)%Z
        ↔ length kb ≤ i) →
  wrap_with_siblings (kb ++ ab) tag after p_name p_attrs p_contents
  = Ok (kb ++ Tag p_name p_attrs
                  (p_contents ++ ab ++ tag :: absorbed_after after)
           :: kept_after after).
Proof.
  intros Hidx. rewrite wrap_with_siblings_unfold.
  set (idx := first_unwrapped_sibling _ _) in *.
  rewrite enumerate_app, fmap_app, for_each_app, Nat.add_0_l.
  rewrite previous_items_skipped by (intros i Hi; rewrite Hidx; lia).
  rewrite result_bind_Ok, as_siblings_app, Nat.add_0_l, <- (assoc_L (++)).
  pose proof (previous_items_wrapped idx ab (length kb) (as_siblings 0 kb)
                (Sibling (length (kb ++ ab)) tag ::
                 as_siblings (S (length (kb ++ ab))) after)
                false p_contents) as Hprev.
  cbn [placed app orb] in Hprev. rewrite Hprev; clear Hprev.
  - rewrite result_bind_Ok.
    rewrite (wrap_in_line (as_siblings 0 kb) _ (bool_decide (ab ≠ []))).
    + rewrite result_bind_Ok, next_items_wrapped.
      * rewrite result_bind_Ok, render_families.
        by rewrite <- !(assoc_L (++)).
      * intros id Hid. apply find_sibling_siblings_only.
        rewrite length_app in Hid. lia.
      * apply find_wrapper_siblings_only.
    + apply find_sibling_siblings_only. rewrite length_app. lia.
    + apply find_wrapper_siblings_only.
    + intros _. apply find_wrapper_siblings_only.
  - intros i Hi. by apply Hidx.
  - intros id Hid. apply find_sibling_siblings_only. lia.
  - apply find_wrapper_siblings_only.
  - intros _. cbn. by rewrite find_wrapper_siblings_only.
Qed.

(** C8: the wrapper takes the place of the tag and holds, in document
    order, the longest run of siblings before the tag in which none is a
    self-sufficient block tag, the tag, and the longest such run after
    it; the siblings before and after these runs stay where they were,
    and the one next to a run on either side is a self-sufficient block
    tag.  For [h1, span, span, p] and the second [span] the wrapper
    holds the two [span]s and [h1], [p] stay outside. *)
Theorem wrap_with_siblings_absorbs
    (before : list Node) (tag : Node) (after : list Node)
    (p_name : str) (p_attrs : list (str * str)) (p_contents : list Node) :
  wrap_with_siblings before tag after p_name p_attrs p_contents
  = Ok (kept_before before ++
        Tag p_name p_attrs
            (p_contents ++ absorbed_before before ++ tag :: absorbed_after after)
        :: kept_after after) ∧
  before = kept_before before ++ absorbed_before before ∧
  after = absorbed_after after ++ kept_after after ∧
  Forall (λ sib, is_independent sib = false)
         (absorbed_before before ++ absorbed_after after) ∧
  (∀ sib, last (kept_before before) = Some sib → is_independent sib = true) ∧
  (∀ sib, head (kept_after after) = Some sib → is_independent sib = true) ∧
  wrap_with_siblings [leaf "h1"; leaf "span"] (leaf "span") [leaf "p"]
                     (py "p") [] []
  = Ok [leaf "h1"; Tag (py "p") [] [leaf "span"; leaf "span"]; leaf "p"].
Proof.
  split; [|split; [|split; [|split; [|split; [|split]]]]].
  - pose proof (absorbed_before_suffix before) as Hsplit.
    transitivity (wrap_with_siblings (kept_before before ++ absorbed_before before)
                    tag after p_name p_attrs p_contents);
      [by rewrite <- Hsplit|].
    apply wrap_with_siblings_core. intros i. rewrite <- Hsplit.
    rewrite first_unwrapped_sibling_spec
      by (rewrite Nat.add_0_l, length_reverse; apply length_enumerate).
    rewrite fmap_reverse, enumerate_snd, Nat.add_0_l.
    unfold kept_before, absorbed_before. rewrite length_take, length_reverse.
    lia.
  - apply absorbed_before_suffix.
  - apply absorbed_after_prefix.
  - apply Forall_app. split; [|apply absorbed_after_dependent].
    unfold absorbed_before. apply Forall_reverse, absorbed_after_dependent.
  - apply kept_before_last.
  - apply kept_after_head.
  - vm_compute. reflexivity.
Qed.

Lemma wrap_with_siblings_absorbs_witness :
  let before := [leaf "a"; leaf "ol"; NavigableString (py "x"); leaf "b"] in
  let after := [leaf "i"; leaf "pre"; leaf "u"] in
  wrap_with_siblings before (leaf "span") after (py "p") [] []
  = Ok [leaf "a"; leaf "ol";
        Tag (py "p") []
            [NavigableString (py "x"); leaf "b"; leaf "span"; leaf "i"];
        leaf "pre"; leaf "u"] ∧
  is_independent (leaf "ol") = true ∧ is_independent (leaf "pre") = true.
Proof.
  intros before after.
  destruct (wrap_with_siblings_absorbs before (leaf "span") after (py "p") [] [])
    as (Hrun & _ & _ & _ & Hlast & Hhead & _).
  split; [exact Hrun|].
  split; [apply Hlast|apply Hhead]; reflexivity.
Defined.


(** * Further properties *)

(** ** Tag grammar validation: verdict and report *)

Lemma for_each_raises {A S : Type} (body : A → S → result S) (l : list A)
    (a : A) (s : S) :
  a ∈ l → (∀ s, ∃ e, body a s = Raise e) → ∃ e, for_each body l s = Raise e.
Proof.
  intros Hin Hraise. revert s. induction l as [|b l IH]; intros s.
  - by apply elem_of_nil in Hin.
  - cbn. apply elem_of_cons in Hin as [<-|Hin].
    + destruct (Hraise s) as [e ->]. by exists e.
    + destruct (body b s) as [s'|e]; [|by exists e]. cbn. by apply IH.
Qed.

(** The grammar conditions on one tag. *)
Lemma validate_tag_verdict spec tag st st' :
  validate_tag spec tag st = Ok st' →
  st'.1 = false ↔
  st.1 = false ∧
  el_name tag ∈ ALLOWED_TAG_LIST spec ∧
  ∃ parents, ALLOWED_PARENT_LIST spec !! el_name tag = Some parents ∧
             el_parent tag ∈ parents.
Proof.
  destruct st as [b d]. unfold validate_tag.
  destruct (decide (el_name tag ∈ ALLOWED_TAG_LIST spec)) as [Hin|Hnin].
  - rewrite !bool_decide_eq_true_2 by done.
    destruct (ALLOWED_PARENT_LIST spec !! el_name tag) as [parents|]; [|done].
    destruct (decide (el_parent tag ∈ parents)) as [Hpar|Hpar].
    + rewrite bool_decide_eq_true_2 by done. intros [= <-]. cbn.
      split; [intros ->; eauto|by intros [? _]].
    + rewrite bool_decide_eq_false_2 by done. intros [= <-]. cbn.
      split; [done|]. intros (_ & _ & parents' & [= <-] & ?). done.
  - rewrite !bool_decide_eq_false_2 by done. intros [= <-]. cbn.
    split; [done|]. by intros (_ & ? & _).
Qed.

Lemma validate_tag_other_keys spec tag st st' (key : str) :
  validate_tag spec tag st = Ok st' →
  key ∉ ALLOWED_TAG_LIST spec → key ≠ invalid_tags_key →
  st'.2 !! key = st.2 !! key.
Proof.
  destruct st as [b d]. unfold validate_tag. intros Hrun Hkey Hinv.
  destruct (decide (el_name tag ∈ ALLOWED_TAG_LIST spec)) as [Hin|Hnin].
  - rewrite !bool_decide_eq_true_2 in Hrun by done.
    destruct (ALLOWED_PARENT_LIST spec !! el_name tag) as [parents|]; [|done].
    destruct (bool_decide _); injection Hrun as <-; cbn; [done|].
    apply lookup_err_append_ne. by intros <-.
  - rewrite !bool_decide_eq_false_2 in Hrun by done. injection Hrun as <-.
    cbn. by apply lookup_err_append_ne.
Qed.

Lemma elem_of_bucket_err_append (key key' value x : str) err_dict :
  x ∈ bucket key' (err_append key value err_dict) →
  x ∈ bucket key' err_dict ∨ (key = key' ∧ x = value).
Proof.
  destruct (decide (key = key')) as [->|Hne].
  - rewrite bucket_err_append, elem_of_app, list_elem_of_singleton.
    intros [?| ->]; auto.
  - unfold bucket. rewrite lookup_err_append_ne by done. auto.
Qed.

(** What justifies an entry of the report. *)
Lemma validate_tag_entry spec tag st st' (key x : str) :
  invalid_tags_key ∉ ALLOWED_TAG_LIST spec →
  validate_tag spec tag st = Ok st' →
  x ∈ bucket key st'.2 →
  x ∈ bucket key st.2 ∨
  (key = invalid_tags_key ∧ x = el_name tag ∧
   el_name tag ∉ ALLOWED_TAG_LIST spec) ∨
  (key = el_name tag ∧ x = el_parent tag ∧
   el_name tag ∈ ALLOWED_TAG_LIST spec ∧
   ∃ parents, ALLOWED_PARENT_LIST spec !! el_name tag = Some parents ∧
              el_parent tag ∉ parents).
Proof.
  intros Hinv. destruct st as [b d]. unfold validate_tag.
  destruct (decide (el_name tag ∈ ALLOWED_TAG_LIST spec)) as [Hin|Hnin].
  - rewrite !bool_decide_eq_true_2 by done.
    destruct (ALLOWED_PARENT_LIST spec !! el_name tag) as [parents|] eqn:Hp;
      [|done].
    destruct (decide (el_parent tag ∈ parents)) as [Hpar|Hpar].
    + rewrite bool_decide_eq_true_2 by done. intros [= <-]. cbn. auto.
    + rewrite bool_decide_eq_false_2 by done. intros [= <-]. cbn.
      intros [?|[<- ->]]%elem_of_bucket_err_append; [by left|].
      right; right. eauto 10.
  - rewrite !bool_decide_eq_false_2 by done. intros [= <-]. cbn.
    intros [?|[<- ->]]%elem_of_bucket_err_append; [by left|].
    right; left. done.
Qed.

Section TagGrammarMore.
Variable RTE_FORMAT_TEXTANGULAR : str.
Variable RTE_TYPE_TEXTANGULAR RTE_TYPE_CKEDITOR : rte_content_spec.
Variable html_parser : str → BeautifulSoup.
Variable unescape_html : str → str.
Variable json_loads : str → result json.

Local Abbreviation spec_for :=
  (rte_spec_for RTE_FORMAT_TEXTANGULAR RTE_TYPE_TEXTANGULAR RTE_TYPE_CKEDITOR).
Local Abbreviation validate_soup :=
  (validate_soup_for_rte RTE_FORMAT_TEXTANGULAR RTE_TYPE_TEXTANGULAR
                         RTE_TYPE_CKEDITOR).
Local Abbreviation validate_format :=
  (validate_rte_format RTE_FORMAT_TEXTANGULAR RTE_TYPE_TEXTANGULAR
                       RTE_TYPE_CKEDITOR html_parser unescape_html json_loads).
Local Abbreviation validate_data :=
  (validate_html_data RTE_FORMAT_TEXTANGULAR RTE_TYPE_TEXTANGULAR
                      RTE_TYPE_CKEDITOR html_parser unescape_html json_loads).

(** X1: whenever [validate_soup_for_rte] returns, it returns
    "not invalid" exactly for the grammatical soups: no top-level node
    without a name, every tag allowed and under a permitted parent. *)
Theorem validate_soup_for_rte_verdict
    (soup : BeautifulSoup) (rte_format : str)
    (err_dict err_dict' : gmap str (list str)) (is_invalid : bool) :
  validate_soup soup rte_format err_dict = Ok (is_invalid, err_dict') →
  is_invalid = false ↔ grammatical (spec_for rte_format) soup.
Proof.
  unfold validate_soup_for_rte, grammatical.
  set (spec := spec_for rte_format). set (top := existsb _ _).
  assert (Htop : top = false ↔
                 Forall (λ c, name_is_truthy c = true) (soup_contents soup)).
  { unfold top. rewrite <- not_true_iff_false, existsb_exists, Forall_forall.
    split.
    - intros Hno c Hc. destruct (name_is_truthy c) eqn:Hn; [done|].
      destruct Hno. exists c. split; [by apply list_elem_of_In|by rewrite Hn].
    - intros Hall (c & Hc & Hn). apply list_elem_of_In, Hall in Hc.
      by rewrite Hc in Hn. }
  rewrite <- Htop. clear Htop. generalize top. clear top.
  generalize (findAll soup) as tags. intros tags. revert err_dict.
  induction tags as [|tag tags IH]; intros err_dict b Hrun.
  - injection Hrun as <- <-. split; [intros ->; by split|by intros [? _]].
  - cbn [for_each] in Hrun. apply bind_Ok in Hrun as ([b1 d1] & Hstep & Hrun).
    apply IH in Hrun. apply validate_tag_verdict in Hstep. cbn in Hstep.
    rewrite Hrun, Forall_cons, Hstep. clear. tauto.
Qed.

(** X2: every entry [validate_soup_for_rte] adds to the report is
    justified by an element of the soup, provided ["invalidTags"] is not
    itself an allowed tag name: a new entry under ["invalidTags"] is the
    name of a tag outside the allowed list, and a new entry under any
    other key is the parent of an allowed tag of that name which is
    outside the tag's allowed-parent set. *)
Theorem validate_soup_for_rte_entries_justified
    (soup : BeautifulSoup) (rte_format : str)
    (err_dict err_dict' : gmap str (list str)) (is_invalid : bool) :
  let spec := spec_for rte_format in
  invalid_tags_key ∉ ALLOWED_TAG_LIST spec →
  validate_soup soup rte_format err_dict = Ok (is_invalid, err_dict') →
  ∀ key x,
    x ∈ bucket key err_dict' →
    x ∈ bucket key err_dict ∨
    ∃ tag, tag ∈ findAll soup ∧
      ((key = invalid_tags_key ∧ x = el_name tag ∧
        el_name tag ∉ ALLOWED_TAG_LIST spec) ∨
       (key = el_name tag ∧ x = el_parent tag ∧
        el_name tag ∈ ALLOWED_TAG_LIST spec ∧
        ∃ parents, ALLOWED_PARENT_LIST spec !! el_name tag = Some parents ∧
                   el_parent tag ∉ parents)).
Proof.
  intros spec Hinv Hrun key x. unfold validate_soup_for_rte in Hrun.
  fold spec in Hrun. revert Hrun. set (st0 := (_, err_dict)).
  intros Hrun.
  change err_dict' with (is_invalid, err_dict').2.
  revert Hrun.
  apply (for_each_invariant
           (λ st : bool * gmap str (list str),
              x ∈ bucket key st.2 →
              x ∈ bucket key err_dict ∨
              ∃ tag, tag ∈ findAll soup ∧
                ((key = invalid_tags_key ∧ x = el_name tag ∧
                  el_name tag ∉ ALLOWED_TAG_LIST spec) ∨
                 (key = el_name tag ∧ x = el_parent tag ∧
                  el_name tag ∈ ALLOWED_TAG_LIST spec ∧
                  ∃ parents,
                    ALLOWED_PARENT_LIST spec !! el_name tag = Some parents ∧
                    el_parent tag ∉ parents)))).
  - intros tag st st' Hin Hst Hstep Hx.
    destruct (validate_tag_entry spec tag st st' key x Hinv Hstep Hx)
      as [Hold|Hnew]; [by apply Hst|].
    right. exists tag. split; [done|]. exact Hnew.
  - by left.
Qed.
End TagGrammarMore.


Section ValidateFormatMore.
Variable RTE_FORMAT_TEXTANGULAR : str.
Variable RTE_TYPE_TEXTANGULAR RTE_TYPE_CKEDITOR : rte_content_spec.
Variable html_parser : str → BeautifulSoup.
Variable unescape_html : str → str.
Variable json_loads : str → result json.

Local Abbreviation spec_for :=
  (rte_spec_for RTE_FORMAT_TEXTANGULAR RTE_TYPE_TEXTANGULAR RTE_TYPE_CKEDITOR).
Local Abbreviation validate_soup :=
  (validate_soup_for_rte RTE_FORMAT_TEXTANGULAR RTE_TYPE_TEXTANGULAR
                         RTE_TYPE_CKEDITOR).
Local Abbreviation validate_format :=
  (validate_rte_format RTE_FORMAT_TEXTANGULAR RTE_TYPE_TEXTANGULAR
                       RTE_TYPE_CKEDITOR html_parser unescape_html json_loads).
Local Abbreviation validate_data :=
  (validate_html_data RTE_FORMAT_TEXTANGULAR RTE_TYPE_TEXTANGULAR
                      RTE_TYPE_CKEDITOR html_parser unescape_html json_loads).

Lemma validate_soup_other_keys soup rte_format err_dict err_dict' is_invalid
    (key : str) :
  validate_soup soup rte_format err_dict = Ok (is_invalid, err_dict') →
  key ∉ ALLOWED_TAG_LIST (spec_for rte_format) → key ≠ invalid_tags_key →
  err_dict' !! key = err_dict !! key.
Proof.
  unfold validate_soup_for_rte. intros Hrun Hkey Hinv.
  change err_dict' with (is_invalid, err_dict').2.
  revert Hrun.
  apply (for_each_invariant
           (λ st : bool * gmap str (list str), st.2 !! key = err_dict !! key));
    [|done].
  intros tag st st' _ Hst Hstep.
  by rewrite (validate_tag_other_keys _ _ _ _ key Hstep).
Qed.

Section Strings.
Variable rte_format : str.
Variable html_list : list str.
Hypothesis strings_is_no_tag :
  py "strings" ∉ ALLOWED_TAG_LIST (spec_for rte_format).

Let from_inputs (err_dict : gmap str (list str)) : Prop :=
  ∀ x, x ∈ bucket (py "strings") err_dict → x ∈ html_list.

Lemma strings_append_from_inputs is_invalid html_data err_dict :
  html_data ∈ html_list → from_inputs err_dict →
  from_inputs (strings_append is_invalid html_data err_dict).
Proof.
  intros Hin Hd x. destruct is_invalid; [|apply Hd]. cbn.
  intros [?|[_ ->]]%elem_of_bucket_err_append; [by apply Hd|done].
Qed.

Lemma validate_soup_from_inputs soup err_dict err_dict' is_invalid :
  validate_soup soup rte_format err_dict = Ok (is_invalid, err_dict') →
  from_inputs err_dict → from_inputs err_dict'.
Proof.
  intros Hrun Hd x. unfold bucket.
  rewrite (validate_soup_other_keys _ _ _ _ _ (py "strings") Hrun); [|done..].
  apply Hd.
Qed.

Lemma validate_html_data_from_inputs html_data err_dict err_dict' :
  html_data ∈ html_list →
  validate_data rte_format html_data err_dict = Ok err_dict' →
  from_inputs err_dict → from_inputs err_dict'.
Proof.
  intros Hin. unfold validate_html_data. intros Hrun Hd.
  apply bind_Ok in Hrun as ([b d1] & Hsoup & Hrun).
  apply bind_Ok in Hrun as (d2 & Hcoll & Htabs).
  apply validate_soup_from_inputs in Hsoup; [|done].
  apply (strings_append_from_inputs b html_data) in Hsoup; [|done].
  revert Htabs. apply (for_each_invariant from_inputs).
  - intros tabs d d' _ Hfrom. unfold validate_tabs. intros Hstep.
    apply bind_Ok in Hstep as (value & _ & Hstep).
    apply bind_Ok in Hstep as (tab_content_list & _ & Hstep).
    apply bind_Ok in Hstep as (items & _ & Hstep).
    revert Hstep. apply (for_each_invariant from_inputs); [|done].
    intros tab d3 d4 _ Hd3. unfold validate_tab. intros Hstep.
    apply bind_Ok in Hstep as (content & _ & Hstep).
    apply bind_Ok in Hstep as (content_html & _ & Hstep).
    apply bind_Ok in Hstep as ([b' d5] & Hnested & [= <-]).
    apply strings_append_from_inputs; [done|].
    by eapply validate_soup_from_inputs.
  - revert Hcoll. apply (for_each_invariant from_inputs); [|done].
    intros collapsible d d' _ Hfrom. unfold validate_collapsible. intros Hstep.
    apply bind_Ok in Hstep as ([b' d3] & Hcheck & [= <-]).
    apply strings_append_from_inputs; [done|].
    destruct (_ || _).
    + by injection Hcheck as <- <-.
    + apply bind_Ok in Hcheck as (value & _ & Hcheck).
      apply bind_Ok in Hcheck as (decoded & _ & Hcheck).
      apply bind_Ok in Hcheck as (content_html & _ & Hcheck).
      by eapply validate_soup_from_inputs.
Qed.

Lemma validate_rte_format_from_inputs err_dict :
  validate_format html_list rte_format = Ok err_dict → from_inputs err_dict.
Proof.
  unfold validate_rte_format. intros Hrun.
  apply bind_Ok in Hrun as (d & Hloop & [= <-]).
  assert (Hd : from_inputs d).
  { revert Hloop. apply (for_each_invariant from_inputs).
    - intros html_data d1 d2 Hin Hd1 Hstep.
      by eapply validate_html_data_from_inputs.
    - intros x. unfold bucket. rewrite lookup_insert_eq. cbn.
      by intros ?%elem_of_nil. }
  intros x. unfold bucket. rewrite lookup_fmap.
  specialize (Hd x). unfold bucket in Hd.
  destruct (d !! py "strings") as [l|]; cbn in *; [|by intros ?%elem_of_nil].
  unfold list_set. rewrite elem_of_elements, elem_of_list_to_set. exact Hd.
Qed.
End Strings.

(** X3: provided ["strings"] is not itself an allowed tag name, every
    value [validate_rte_format] returns under ["strings"] is one of the
    input fragments. *)
Theorem validate_rte_format_strings_are_inputs
    (html_list : list str) (rte_format : str) (err_dict : gmap str (list str)) :
  py "strings" ∉ ALLOWED_TAG_LIST (spec_for rte_format) →
  validate_format html_list rte_format = Ok err_dict →
  ∀ html_data, html_data ∈ bucket (py "strings") err_dict →
               html_data ∈ html_list.
Proof.
  intros Hstrings Hrun html_data Hin.
  pose proof (validate_rte_format_from_inputs rte_format html_list Hstrings
                err_dict Hrun) as Hfrom.
  by apply Hfrom.
Qed.

(** X4: a tabs tag without the [tab_contents-with-value] attribute makes
    [validate_rte_format] raise: no report is returned for a list that
    holds a fragment with such a tag. *)
Theorem validate_rte_format_tabs_without_contents
    (html_list : list str) (rte_format html_data : str) (tabs : Element) :
  html_data ∈ html_list →
  tabs ∈ findAll_name tabs_tag_name
           (html_parser (str_replace br_open br_closed html_data)) →
  attr_get tab_contents_attr (el_attrs tabs) = None →
  ∃ e, validate_format html_list rte_format = Raise e.
Proof.
  intros Hin Htabs Hattr. unfold validate_rte_format.
  destruct (for_each_raises (validate_data rte_format) html_list html_data
              (<[py "strings" := []]> ∅) Hin) as [e He].
  - intros d. unfold validate_html_data.
    destruct (validate_soup _ _ _) as [[b d1]|e]; [|by exists e].
    rewrite result_bind_Ok.
    destruct (for_each _ (findAll_name (py "oppia-noninteractive-collapsible") _) _)
      as [d2|e]; [|by exists e].
    rewrite result_bind_Ok.
    apply (for_each_raises _ _ tabs); [exact Htabs|].
    intros d3. unfold validate_tabs, getitem. fold tab_contents_attr.
    rewrite Hattr. by eexists.
  - exists e. by rewrite He.
Qed.
End ValidateFormatMore.


Lemma validate_soup_for_rte_verdict_witness :
  validate_soup_for_rte sample_format sample_spec sample_spec
                        sample_soup sample_format ∅ = Ok (false, ∅) ∧
  (false = false ↔ grammatical sample_spec sample_soup) ∧
  validate_soup_for_rte sample_format sample_spec sample_spec
                        (Soup [NavigableString (py "x")]) sample_format ∅
  = Ok (true, ∅) ∧
  ¬ grammatical sample_spec (Soup [NavigableString (py "x")]).
Proof.
  assert (H1 : validate_soup_for_rte sample_format sample_spec sample_spec
                 sample_soup sample_format ∅ = Ok (false, ∅))
    by (vm_compute; reflexivity).
  assert (H2 : validate_soup_for_rte sample_format sample_spec sample_spec
                 (Soup [NavigableString (py "x")]) sample_format ∅
               = Ok (true, ∅))
    by (vm_compute; reflexivity).
  split; [exact H1|]. split.
  - exact (validate_soup_for_rte_verdict sample_format sample_spec sample_spec
             sample_soup sample_format ∅ ∅ false H1).
  - split; [exact H2|].
    intros Hg.
    apply (validate_soup_for_rte_verdict sample_format sample_spec sample_spec
             _ sample_format ∅ ∅ true H2) in Hg.
    discriminate Hg.
Defined.

Lemma validate_soup_for_rte_entries_justified_witness :
  let soup := Soup [leaf "foo"] in
  let err_dict' : gmap str (list str) := <[invalid_tags_key := [py "foo"]]> ∅ in
  (invalid_tags_key ∉ ALLOWED_TAG_LIST sample_spec) ∧
  validate_soup_for_rte sample_format sample_spec sample_spec
                        soup sample_format ∅ = Ok (true, err_dict') ∧
  ∀ key x,
    x ∈ bucket key err_dict' →
    x ∈ bucket key (∅ : gmap str (list str)) ∨
    ∃ tag, tag ∈ findAll soup ∧
      ((key = invalid_tags_key ∧ x = el_name tag ∧
        el_name tag ∉ ALLOWED_TAG_LIST sample_spec) ∨
       (key = el_name tag ∧ x = el_parent tag ∧
        el_name tag ∈ ALLOWED_TAG_LIST sample_spec ∧
        ∃ parents,
          ALLOWED_PARENT_LIST sample_spec !! el_name tag = Some parents ∧
          el_parent tag ∉ parents)).
Proof.
  intros soup err_dict'.
  assert (Hinv : invalid_tags_key ∉ ALLOWED_TAG_LIST sample_spec)
    by (cbn; not_in_list).
  assert (Hrun : validate_soup_for_rte sample_format sample_spec sample_spec
                   soup sample_format ∅ = Ok (true, err_dict'))
    by (vm_compute; reflexivity).
  split; [exact Hinv|]. split; [exact Hrun|].
  exact (validate_soup_for_rte_entries_justified sample_format sample_spec
           sample_spec soup sample_format ∅ err_dict' true Hinv Hrun).
Defined.

Lemma validate_rte_format_strings_are_inputs_witness :
  let parser := sample_parser sample_documents in
  let html_list := [bare_collapsible_html; sample_html] in
  let err_dict : gmap str (list str) :=
    <[py "strings" := [bare_collapsible_html]]> ∅ in
  (py "strings" ∉ ALLOWED_TAG_LIST sample_spec) ∧
  validate_rte_format sample_format sample_spec sample_spec parser id
                      sample_json_loads html_list sample_format = Ok err_dict ∧
  ∀ html_data, html_data ∈ bucket (py "strings") err_dict →
               html_data ∈ html_list.
Proof.
  intros parser html_list err_dict.
  assert (Hstrings : py "strings" ∉ ALLOWED_TAG_LIST sample_spec)
    by (cbn; not_in_list).
  assert (Hrun : validate_rte_format sample_format sample_spec sample_spec parser
                   id sample_json_loads html_list sample_format = Ok err_dict)
    by (vm_compute; reflexivity).
  split; [exact Hstrings|]. split; [exact Hrun|].
  exact (validate_rte_format_strings_are_inputs sample_format sample_spec
           sample_spec parser id sample_json_loads html_list sample_format
           err_dict Hstrings Hrun).
Defined.

Lemma validate_rte_format_tabs_without_contents_witness :
  let parser := sample_parser tabs_documents in
  let tabs := MkElement tabs_tag_name [] [] document_name in
  tabs ∈ findAll_name tabs_tag_name
           (parser (str_replace br_open br_closed bare_tabs_html)) ∧
  validate_rte_format sample_format sample_spec sample_spec parser id
                      sample_json_loads [sample_html; bare_tabs_html]
                      sample_format
  = Raise (KeyError tab_contents_attr) ∧
  ∃ e, validate_rte_format sample_format sample_spec sample_spec parser id
                           sample_json_loads [sample_html; bare_tabs_html]
                           sample_format = Raise e.
Proof.
  intros parser tabs.
  assert (Htabs : tabs ∈ findAll_name tabs_tag_name
                    (parser (str_replace br_open br_closed bare_tabs_html))).
  { replace (findAll_name _ _) with [tabs] by (vm_compute; reflexivity).
    by left. }
  split; [exact Htabs|]. split; [vm_compute; reflexivity|].
  apply (validate_rte_format_tabs_without_contents sample_format sample_spec
           sample_spec parser id sample_json_loads
           [sample_html; bare_tabs_html] sample_format bare_tabs_html tabs).
  - right. by left.
  - exact Htabs.
  - reflexivity.
Defined.


(** ** Character repair: what the rule chain guarantees *)

Lemma startswith_length (old s : str) :
  startswith old s = true → length old ≤ length s.
Proof.
  revert s; induction old as [|o old IH]; intros s; cbn; [lia|].
  destruct s as [|c s]; [done|]. destruct (N.eqb o c); [|done].
  intros Hs. apply IH in Hs. cbn. lia.
Qed.

Lemma length_replace_from (old new : str) (k : nat) (s : str) :
  length new ≤ length old →
  length (replace_from old new k s) + k `min` length s ≤ length s.
Proof.
  intros Hlen. revert k; induction s as [|c s IH]; intros k.
  - cbn. lia.
  - cbn [replace_from]. destruct k as [|k].
    + destruct (startswith old (c :: s)) eqn:Hs.
      * apply startswith_length in Hs. cbn [length] in *.
        specialize (IH (length old - 1)). rewrite length_app. lia.
      * specialize (IH 0). cbn [length]. lia.
    + specialize (IH k). cbn [length]. lia.
Qed.

Lemma char_mapping_tuples_shrinking :
  forallb shrinking char_mapping_tuples = true.
Proof. vm_compute. reflexivity. Qed.

Lemma length_apply_mappings rules s :
  forallb shrinking rules = true → length (apply_mappings rules s) ≤ length s.
Proof.
  revert s; induction rules as [|[old new] rules IH]; intros s Hr; [done|].
  cbn [forallb] in Hr. apply andb_true_iff in Hr as [Hrule Hr].
  unfold apply_mappings. cbn [fold_left].
  etrans; [apply (IH _ Hr)|].
  unfold shrinking in Hrule. cbn [fst snd] in Hrule.
  destruct old as [|o old]; [done|]. apply bool_decide_eq_true in Hrule.
  cbn [str_replace].
  pose proof (length_replace_from (o :: old) new 0 s Hrule). lia.
Qed.

(** X5: the repaired string is never longer (in characters) than the
    string given. *)
Theorem replace_incorrectly_encoded_chars_never_longer (html_string : str) :
  length (replace_incorrectly_encoded_chars html_string) ≤ length html_string.
Proof.
  unfold replace_incorrectly_encoded_chars.
  apply length_apply_mappings, char_mapping_tuples_shrinking.
Qed.

Lemma replace_closing s :
  ∃ t, replace_incorrectly_encoded_chars s = plain_repair t.
Proof.
  unfold replace_incorrectly_encoded_chars.
  destruct char_mapping_tuples_split as (rules & -> & _).
  rewrite apply_mappings_app, apply_closing_rules. by eexists.
Qed.

Lemma plain_repair_no_entity t : has_match (py "&nbsp;") (plain_repair t) = false.
Proof.
  unfold plain_repair. destruct nbsp_chars as [-> ->].
  apply replace_from_leaves_no_match; [done|].
  intros Hin. repeat (apply elem_of_cons in Hin as [?|Hin]; [done|]).
  by apply elem_of_nil in Hin.
Qed.

(** X6: whatever the input, the repaired string holds no tab, no
    newline, no U+00A0 and no occurrence of ["&nbsp;"]. *)
Theorem replace_incorrectly_encoded_chars_strips_whitespace
    (html_string : str) :
  let repaired := replace_incorrectly_encoded_chars html_string in
  (9%N ∉ repaired) ∧ (10%N ∉ repaired) ∧ (160%N ∉ repaired) ∧
  has_match (py "&nbsp;") repaired = false.
Proof.
  cbv zeta. destruct (replace_closing html_string) as [t ->].
  split; [|split; [|split]].
  - by intros [?|(_ & ? & _ & _)]%elem_of_plain_repair.
  - by intros [?|(_ & _ & ? & _)]%elem_of_plain_repair.
  - by intros [?|(_ & _ & _ & ?)]%elem_of_plain_repair.
  - apply plain_repair_no_entity.
Qed.

(** X7: a string without lead characters of mis-encoded sequences,
    without tab, newline and U+00A0 and without ["&nbsp;"] is returned
    as it is. *)
Theorem replace_incorrectly_encoded_chars_keeps_clean_text (html_string : str) :
  free_of_lead_chars html_string →
  9%N ∉ html_string → 10%N ∉ html_string → 160%N ∉ html_string →
  has_match (py "&nbsp;") html_string = false →
  replace_incorrectly_encoded_chars html_string = html_string.
Proof.
  intros Hfree H9 H10 H160 Hnbsp. rewrite replace_plain by done.
  unfold plain_repair.
  rewrite (filter_all (λ x, x ≠ 9%N))
    by (apply Forall_forall; intros x Hx ->; done).
  rewrite (filter_all (λ x, x ≠ 10%N))
    by (apply Forall_forall; intros x Hx ->; done).
  rewrite fmap_fixed.
  - destruct nbsp_chars as [Hn ->]. rewrite Hn in *.
    by apply replace_from_no_match.
  - apply Forall_forall. intros x Hx. rewrite decide_False; [done|].
    by intros ->.
Qed.

Lemma replace_incorrectly_encoded_chars_keeps_clean_text_witness :
  free_of_lead_chars (py "<p>x " ++ [0x3b1]%N ++ py " &amp; tea</p>") ∧
  replace_incorrectly_encoded_chars
    (py "<p>x " ++ [0x3b1]%N ++ py " &amp; tea</p>")
  = py "<p>x " ++ [0x3b1]%N ++ py " &amp; tea</p>".
Proof.
  set (s := py "<p>x " ++ [0x3b1]%N ++ py " &amp; tea</p>").
  assert (Hfree : free_of_lead_chars s).
  { apply (bool_decide_eq_true_1 (Forall (λ c, c ∉ lead_chars) s)).
    vm_compute. reflexivity. }
  split; [exact Hfree|].
  apply (replace_incorrectly_encoded_chars_keeps_clean_text s Hfree).
  - apply (bool_decide_eq_true_1 (9%N ∉ s)). vm_compute. reflexivity.
  - apply (bool_decide_eq_true_1 (10%N ∉ s)). vm_compute. reflexivity.
  - apply (bool_decide_eq_true_1 (160%N ∉ s)). vm_compute. reflexivity.
  - vm_compute. reflexivity.
Defined.


(** ** The structural transformer *)

Lemma map_result_fixed {A : Type} (f : A → result A) (l : list A) :
  Forall (λ a, f a = Ok a) l → map_result f l = Ok l.
Proof. induction 1 as [|a l Ha _ IH]; [done|]. cbn. by rewrite Ha, IH. Qed.

Lemma map_result_raises {A B : Type} (f : A → result B) (l : list A) (a : A) :
  a ∈ l → (∃ e, f a = Raise e) → ∃ e, map_result f l = Raise e.
Proof.
  intros Hin [e He]. induction l as [|b l IH]; [by apply elem_of_nil in Hin|].
  cbn. apply elem_of_cons in Hin as [<-|Hin].
  - rewrite He. by exists e.
  - destruct (f b) as [b'|e']; [|by exists e']. cbn.
    destruct (IH Hin) as [e'' ->]. by exists e''.
Qed.

Lemma map_result_Ok_lookup {A B : Type} (f : A → result B) (l : list A)
    (l' : list B) (a : A) :
  map_result f l = Ok l' → a ∈ l → ∃ b, f a = Ok b ∧ b ∈ l'.
Proof.
  revert l'; induction l as [|c l IH]; intros l' Hrun Hin.
  - by apply elem_of_nil in Hin.
  - cbn in Hrun. apply bind_Ok in Hrun as (c' & Hc & Hrun).
    apply bind_Ok in Hrun as (l'' & Hl & [= <-]).
    apply elem_of_cons in Hin as [->|Hin].
    + exists c'. split; [done|by left].
    + destruct (IH _ Hl Hin) as (b & Hb & Hbin). exists b. split; [done|by right].
Qed.

Lemma update_tags_Tag name body tag_name attrs contents :
  update_tags name body (Tag tag_name attrs contents) =
  attrs' ← (if decide (tag_name = name) then body attrs else Ok attrs);
  contents' ← map_result (update_tags name body) contents;
  Ok (Tag tag_name attrs' contents').
Proof.
  cbn [update_tags]. destruct (if decide _ then _ else _) as [attrs'|e]; [|done].
  rewrite !result_bind_Ok. f_equal.
  induction contents as [|c contents IH]; [done|]. cbn. by rewrite IH.
Qed.

Lemma elements_of_children parent name attrs contents tag c :
  c ∈ contents → tag ∈ elements_of name c →
  tag ∈ elements_of parent (Tag name attrs contents).
Proof.
  intros Hc Hin. rewrite elements_of_Tag. right.
  apply list_elem_of_In, in_flat_map. exists c.
  split; by apply list_elem_of_In.
Qed.

(** A pass whose body leaves the attributes of every tag it visits as
    they are returns the tree unchanged. *)
Lemma update_tags_fixed name body n parent :
  (∀ tag, tag ∈ elements_of parent n → el_name tag = name →
          body (el_attrs tag) = Ok (el_attrs tag)) →
  update_tags name body n = Ok n.
Proof.
  revert parent.
  induction n as [text|tag_name attrs contents IH] using Node_ind_nested;
    intros parent Hbody; [done|].
  rewrite update_tags_Tag.
  assert (Hattrs : (if decide (tag_name = name) then body attrs else Ok attrs)
                   = Ok attrs).
  { destruct (decide (tag_name = name)) as [Hn|]; [|done].
    apply (Hbody (MkElement tag_name attrs contents parent)); [|done].
    rewrite elements_of_Tag. by left. }
  rewrite Hattrs, result_bind_Ok, map_result_fixed; [done|].
  rewrite Forall_forall in IH. apply Forall_forall. intros c Hc.
  apply (IH c Hc tag_name). intros tag Hin. apply Hbody.
  by eapply elements_of_children.
Qed.

(** A pass raises when its body raises on some tag it visits. *)
Lemma update_tags_raises name body n parent tag :
  tag ∈ elements_of parent n → el_name tag = name →
  (∃ e, body (el_attrs tag) = Raise e) →
  ∃ e, update_tags name body n = Raise e.
Proof.
  intros Hin Hname Hraise. revert parent Hin.
  induction n as [text|tag_name attrs contents IH] using Node_ind_nested;
    intros parent Hin.
  - by apply elem_of_nil in Hin.
  - rewrite update_tags_Tag. rewrite elements_of_Tag in Hin.
    apply elem_of_cons in Hin as [Htag|Hin].
    + subst tag. cbn in Hname, Hraise. destruct Hraise as [e He].
      rewrite decide_True, He by done. by exists e.
    + destruct (if decide _ then _ else _) as [attrs'|e]; [|by exists e].
      rewrite result_bind_Ok.
      apply list_elem_of_In, in_flat_map in Hin as (c & Hc & Hin).
      apply list_elem_of_In in Hc, Hin.
      destruct (map_result_raises (update_tags name body) contents c Hc)
        as [e He].
      * rewrite Forall_forall in IH. by apply (IH c Hc tag_name).
      * rewrite He. by exists e.
Qed.

(** A pass keeps the tags of other names, with their attributes. *)
Lemma update_tags_keeps name body n n' parent tag :
  update_tags name body n = Ok n' →
  tag ∈ elements_of parent n → el_name tag ≠ name →
  ∃ tag', tag' ∈ elements_of parent n' ∧
          el_name tag' = el_name tag ∧ el_attrs tag' = el_attrs tag.
Proof.
  intros Hrun Hin Hname. revert n' parent Hrun Hin.
  induction n as [text|tag_name attrs contents IH] using Node_ind_nested;
    intros n' parent Hrun Hin.
  - by apply elem_of_nil in Hin.
  - rewrite update_tags_Tag in Hrun.
    apply bind_Ok in Hrun as (attrs' & Hattrs & Hrun).
    apply bind_Ok in Hrun as (contents' & Hcontents & [= <-]).
    rewrite elements_of_Tag in Hin.
    apply elem_of_cons in Hin as [Htag|Hin].
    + subst tag. cbn in Hname. rewrite decide_False in Hattrs by done.
      injection Hattrs as <-.
      eexists. split; [rewrite elements_of_Tag; by left|done].
    + apply list_elem_of_In, in_flat_map in Hin as (c & Hc & Hin).
      apply list_elem_of_In in Hc, Hin.
      destruct (map_result_Ok_lookup _ _ _ c Hcontents Hc) as (c' & Hc' & Hcin).
      rewrite Forall_forall in IH.
      destruct (IH c Hc c' tag_name Hc' Hin) as (tag' & Hin' & Heq).
      exists tag'. split; [|done]. by eapply elements_of_children.
Qed.

Section TransformerFacts.
Variable html_parser : str → BeautifulSoup.
Variable serialize : BeautifulSoup → str.
Variable unescape_html escape_html : str → str.
Variable json_loads : str → result json.
Variable json_dumps : json → str.

Local Abbreviation process :=
  (_process_string_with_components html_parser unescape_html escape_html
                                   json_loads json_dumps).
Local Abbreviation fix_chars :=
  (fix_incorrectly_encoded_chars html_parser serialize unescape_html
                                 escape_html json_loads json_dumps).


(** X9: a tabs tag without the [tab_contents-with-value] attribute makes
    the transformer raise, whatever the conversion function is; so
    [fix_incorrectly_encoded_chars] returns nothing for a document with
    such a tag. *)
Theorem process_string_tabs_without_contents
    (conversion_fn : BeautifulSoup → str) (html_string : str) (tabs : Element) :
  tabs ∈ findAll_name tabs_tag_name (html_parser html_string) →
  attr_get tab_contents_attr (el_attrs tabs) = None →
  (∃ e, process conversion_fn html_string = Raise e) ∧
  (∃ e, fix_chars html_string = Raise e).
Proof.
  intros Hin Hattr.
  assert (Hprocess : ∀ fn, ∃ e, process fn html_string = Raise e).
  { intros fn. unfold _process_string_with_components.
    apply list_elem_of_filter in Hin as [Hname Hin].
    unfold findAll, elements_below in Hin.
    apply list_elem_of_In, in_flat_map in Hin as (c & Hc & Hin).
    apply list_elem_of_In in Hc, Hin.
    destruct (map_result _ (soup_contents _)) as [contents'|e] eqn:Hfirst;
      [|by exists e].
    rewrite result_bind_Ok.
    destruct (map_result_Ok_lookup _ _ _ c Hfirst Hc) as (c' & Hc' & Hcin).
    destruct (update_tags_keeps _ _ _ _ document_name tabs Hc' Hin)
      as (tabs' & Hin' & Hname' & Hattrs'); [by rewrite Hname|].
    destruct (map_result_raises
                (update_tags tabs_tag_name
                   (process_tabs html_parser unescape_html escape_html json_loads
                                 json_dumps fn))
                contents' c' Hcin) as [e He].
    - apply (update_tags_raises _ _ _ document_name tabs' Hin');
        [by rewrite Hname'|].
      unfold process_tabs, getitem. rewrite Hattrs', Hattr. by eexists.
    - rewrite He. by exists e. }
  split; [apply Hprocess|]. unfold fix_incorrectly_encoded_chars. apply Hprocess.
Qed.
End TransformerFacts.


Lemma process_string_tabs_without_contents_witness :
  let parser := sample_parser tabs_documents in
  let tabs := MkElement tabs_tag_name [] [] document_name in
  tabs ∈ findAll_name tabs_tag_name (parser bare_tabs_html) ∧
  fix_incorrectly_encoded_chars parser sample_serialize id id sample_json_loads
    sample_json_dumps bare_tabs_html = Raise (KeyError tab_contents_attr) ∧
  ∃ e, fix_incorrectly_encoded_chars parser sample_serialize id id
         sample_json_loads sample_json_dumps bare_tabs_html = Raise e.
Proof.
  intros parser tabs.
  assert (Htabs : tabs ∈ findAll_name tabs_tag_name (parser bare_tabs_html)).
  { replace (findAll_name _ _) with [tabs] by (vm_compute; reflexivity).
    by left. }
  split; [exact Htabs|]. split; [vm_compute; reflexivity|].
  apply (process_string_tabs_without_contents parser sample_serialize id id
           sample_json_loads sample_json_dumps sample_serialize bare_tabs_html
           tabs Htabs).
  reflexivity.
Defined.


(** ** The conversion of svgdiagram tags to image tags *)

Lemma attr_get_attr_set_ne (key key' value : str) attrs :
  key ≠ key' → attr_get key (attr_set key' value attrs) = attr_get key attrs.
Proof.
  intros Hne. induction attrs as [|[k v] attrs IH]; cbn.
  - by rewrite decide_False.
  - destruct (decide (k = key')) as [->|Hk]; cbn.
    + by rewrite !decide_False by done.
    + destruct (decide (k = key)); [done|exact IH].
Qed.

Lemma map_result_Raise {A B : Type} (f : A → result B) (l : list A) (e : exn) :
  map_result f l = Raise e → ∃ a, a ∈ l ∧ f a = Raise e.
Proof.
  induction l as [|a l IH]; [done|]. cbn.
  destruct (f a) as [b|e'] eqn:Ha.
  - rewrite result_bind_Ok. destruct (map_result f l) as [l'|e'']; [done|].
    intros [= ->]. destruct IH as (a' & Hin & Ha'); [done|].
    exists a'. split; [by right|done].
  - intros [= ->]. exists a. split; [by left|done].
Qed.

Lemma map_result_Ok_all {A B : Type} (f : A → result B) (l : list A) :
  Forall (λ a, ∃ b, f a = Ok b) l → ∃ l', map_result f l = Ok l'.
Proof.
  induction 1 as [|a l [b Hb] _ [l' IH]]; [by exists []|].
  exists (b :: l'). cbn. by rewrite Hb, IH.
Qed.

Lemma convert_svg_diagram_node_Tag escape_html name attrs contents :
  convert_svg_diagram_node escape_html (Tag name attrs contents) =
  '(name', attrs') ←
    (if decide (name = svgdiagram_tag_name)
     then attrs' ← convert_svg_diagram_attrs escape_html attrs;
          Ok (image_tag_name, attrs')
     else Ok (name, attrs));
  contents' ← map_result (convert_svg_diagram_node escape_html) contents;
  Ok (Tag name' attrs' contents').
Proof.
  cbn [convert_svg_diagram_node].
  destruct (if decide _ then _ else _) as [[name' attrs']|e]; [|done].
  rewrite !result_bind_Ok. f_equal.
  induction contents as [|c contents IH]; [done|]. cbn. by rewrite IH.
Qed.

Lemma convert_svg_diagram_attrs_Raise escape_html attrs e :
  convert_svg_diagram_attrs escape_html attrs = Raise e →
  e = KeyError svg_filename_attr ∧ attr_get svg_filename_attr attrs = None.
Proof.
  unfold convert_svg_diagram_attrs, getitem.
  destruct (attr_get svg_filename_attr attrs); [done|]. by intros [= <-].
Qed.

Section SvgDiagram.
Variable escape_html : str → str.

Local Abbreviation convert_node := (convert_svg_diagram_node escape_html).
Local Abbreviation convert_soup := (convert_svg_diagram_soup escape_html).

Lemma convert_node_fixed n parent :
  (∀ tag, tag ∈ elements_of parent n → el_name tag ≠ svgdiagram_tag_name) →
  convert_node n = Ok n.
Proof.
  revert parent.
  induction n as [text|name attrs contents IH] using Node_ind_nested;
    intros parent Hno; [done|].
  rewrite convert_svg_diagram_node_Tag, decide_False.
  - rewrite result_bind_Ok, map_result_fixed; [done|].
    rewrite Forall_forall in IH. apply Forall_forall. intros c Hc.
    apply (IH c Hc name). intros tag Hin. apply Hno.
    by eapply elements_of_children.
  - apply (Hno (MkElement name attrs contents parent)).
    rewrite elements_of_Tag. by left.
Qed.

Lemma convert_nodes_names l l' parent parent' :
  Forall (λ n, ∀ n' p p',
            convert_node n = Ok n' →
            el_name <$> elements_of p' n'
            = converted_name <$> (el_name <$> elements_of p n)) l →
  map_result convert_node l = Ok l' →
  el_name <$> elements_below parent' l'
  = converted_name <$> (el_name <$> elements_below parent l).
Proof.
  intros Hall. revert l'. induction Hall as [|c l Hc _ IH]; intros l' Hrun.
  - by injection Hrun as <-.
  - cbn in Hrun. apply bind_Ok in Hrun as (c' & Hc' & Hrun).
    apply bind_Ok in Hrun as (l'' & Hl'' & [= <-]).
    unfold elements_below in *. cbn [flat_map].
    rewrite !fmap_app, (Hc c' parent parent' Hc'). f_equal. by apply IH.
Qed.

Lemma convert_node_names n n' parent parent' :
  convert_node n = Ok n' →
  el_name <$> elements_of parent' n'
  = converted_name <$> (el_name <$> elements_of parent n).
Proof.
  revert n' parent parent'.
  induction n as [text|name attrs contents IH] using Node_ind_nested;
    intros n' parent parent' Hrun.
  - by injection Hrun as <-.
  - rewrite convert_svg_diagram_node_Tag in Hrun.
    apply bind_Ok in Hrun as ([name' attrs'] & Hhead & Hrun).
    apply bind_Ok in Hrun as (contents' & Hcontents & [= <-]).
    rewrite !elements_of_Tag, !fmap_cons. cbn [el_name]. f_equal.
    + unfold converted_name.
      destruct (decide (name = svgdiagram_tag_name)).
      * apply bind_Ok in Hhead as (? & _ & [= <- _]). done.
      * by injection Hhead as <- _.
    + by apply convert_nodes_names.
Qed.

Lemma convert_node_Raise n parent e :
  convert_node n = Raise e →
  e = KeyError svg_filename_attr ∧
  ∃ tag, tag ∈ elements_of parent n ∧ el_name tag = svgdiagram_tag_name ∧
         attr_get svg_filename_attr (el_attrs tag) = None.
Proof.
  revert parent.
  induction n as [text|name attrs contents IH] using Node_ind_nested;
    intros parent Hrun; [done|].
  rewrite convert_svg_diagram_node_Tag in Hrun.
  destruct (decide (name = svgdiagram_tag_name)) as [Hname|Hname].
  - destruct (convert_svg_diagram_attrs escape_html attrs) as [attrs'|e'] eqn:Ha.
    + rewrite !result_bind_Ok in Hrun.
      destruct (map_result convert_node contents) as [contents'|e'] eqn:Hc;
        [done|]. injection Hrun as ->.
      apply map_result_Raise in Hc as (c & Hc & Hraise).
      rewrite Forall_forall in IH.
      destruct (IH c Hc name Hraise) as (-> & tag & Hin & Htag).
      split; [done|]. exists tag. split; [|done].
      by eapply elements_of_children.
    + injection Hrun as ->.
      apply convert_svg_diagram_attrs_Raise in Ha as [-> Hnone].
      split; [done|]. exists (MkElement name attrs contents parent).
      split; [rewrite elements_of_Tag; by left|done].
  - rewrite result_bind_Ok in Hrun.
    destruct (map_result convert_node contents) as [contents'|e'] eqn:Hc;
      [done|]. injection Hrun as ->.
    apply map_result_Raise in Hc as (c & Hc & Hraise).
    rewrite Forall_forall in IH.
    destruct (IH c Hc name Hraise) as (-> & tag & Hin & Htag).
    split; [done|]. exists tag. split; [|done].
    by eapply elements_of_children.
Qed.

Lemma convert_node_raises n parent tag :
  tag ∈ elements_of parent n → el_name tag = svgdiagram_tag_name →
  attr_get svg_filename_attr (el_attrs tag) = None →
  convert_node n = Raise (KeyError svg_filename_attr).
Proof.
  intros Hin Hname Hnone.
  destruct (convert_node n) as [n'|e] eqn:Hrun.
  - exfalso. revert parent n' Hin Hrun.
    induction n as [text|name attrs contents IH] using Node_ind_nested;
      intros parent n' Hin Hrun.
    + by apply elem_of_nil in Hin.
    + rewrite convert_svg_diagram_node_Tag in Hrun.
      apply bind_Ok in Hrun as ([name' attrs'] & Hhead & Hrun).
      apply bind_Ok in Hrun as (contents' & Hcontents & _).
      rewrite elements_of_Tag in Hin.
      apply elem_of_cons in Hin as [Htag|Hin].
      * subst tag. cbn [el_name el_attrs] in Hname, Hnone.
        rewrite decide_True in Hhead by done.
        unfold convert_svg_diagram_attrs, getitem in Hhead.
        by rewrite Hnone in Hhead.
      * apply list_elem_of_In, in_flat_map in Hin as (c & Hc & Hin).
        apply list_elem_of_In in Hc, Hin.
        destruct (map_result_Ok_lookup _ _ _ c Hcontents Hc) as (c' & Hc' & _).
        rewrite Forall_forall in IH. by apply (IH c Hc name c').
  - by apply (convert_node_Raise _ parent) in Hrun as [-> _].
Qed.

Lemma elem_of_findAll soup tag :
  tag ∈ findAll soup ↔
  ∃ c, c ∈ soup_contents soup ∧ tag ∈ elements_of document_name c.
Proof.
  unfold findAll, elements_below. rewrite list_elem_of_In, in_flat_map.
  split; intros (c & Hc & Hin); exists c; split; by apply list_elem_of_In.
Qed.

(** X10: the conversion keeps the number and the order of the tags and
    changes no name but [oppia-noninteractive-svgdiagram], which becomes
    [oppia-noninteractive-image]; so [check_for_svgdiagram_component]
    finds nothing in a converted document, and converting it once more
    returns it unchanged. *)
Theorem convert_svg_diagram_soup_renames
    (soup soup' : BeautifulSoup) :
  convert_soup soup = Ok soup' →
  el_name <$> findAll soup' = converted_name <$> (el_name <$> findAll soup) ∧
  soup_has_svgdiagram soup' = false ∧
  convert_soup soup' = Ok soup'.
Proof.
  unfold convert_svg_diagram_soup. intros Hrun.
  apply bind_Ok in Hrun as (contents' & Hcontents & [= <-]).
  assert (Hnames : el_name <$> findAll (Soup contents')
                   = converted_name <$> (el_name <$> findAll soup)).
  { unfold findAll. cbn [soup_contents].
    apply convert_nodes_names; [|done].
    apply Forall_forall. intros n _ n' p p'. apply convert_node_names. }
  assert (Hnone : ∀ tag, tag ∈ findAll (Soup contents') →
                         el_name tag ≠ svgdiagram_tag_name).
  { intros tag Hin Hname.
    assert (Hn : el_name tag ∈ el_name <$> findAll (Soup contents'))
      by (apply list_elem_of_fmap; eauto).
    rewrite Hnames in Hn. apply list_elem_of_fmap in Hn as (x & Hx & _).
    rewrite Hname in Hx. unfold converted_name in Hx.
    destruct (decide (x = svgdiagram_tag_name)); [discriminate Hx|].
    by subst x. }
  split; [exact Hnames|]. split.
  - unfold soup_has_svgdiagram. by rewrite findAll_name_nil.
  - cbn [soup_contents]. rewrite map_result_fixed; [done|].
    apply Forall_forall. intros c Hc.
    apply (convert_node_fixed c document_name). intros tag Hin.
    apply Hnone. apply elem_of_findAll. eauto.
Qed.

Lemma convert_soup_Raise soup e :
  convert_soup soup = Raise e →
  e = KeyError svg_filename_attr ∧
  ∃ tag, tag ∈ findAll_name svgdiagram_tag_name soup ∧
         attr_get svg_filename_attr (el_attrs tag) = None.
Proof.
  unfold convert_svg_diagram_soup.
  destruct (map_result _ _) as [contents'|e'] eqn:Hc; [done|].
  intros [= ->]. apply map_result_Raise in Hc as (c & Hc & Hrun).
  apply (convert_node_Raise _ document_name) in Hrun
    as (-> & tag & Hin & Hname & Hnone).
  split; [done|]. exists tag. split; [|done].
  apply list_elem_of_filter. split; [done|]. apply elem_of_findAll. eauto.
Qed.

Lemma convert_soup_raises soup tag :
  tag ∈ findAll_name svgdiagram_tag_name soup →
  attr_get svg_filename_attr (el_attrs tag) = None →
  convert_soup soup = Raise (KeyError svg_filename_attr).
Proof.
  intros Hin Hnone. apply list_elem_of_filter in Hin as [Hname Hin].
  apply elem_of_findAll in Hin as (c & Hc & Hin).
  unfold convert_svg_diagram_soup.
  destruct (map_result _ _) as [contents'|e] eqn:Hrun.
  - destruct (map_result_Ok_lookup _ _ _ c Hrun Hc) as (c' & Hc' & _).
    by rewrite (convert_node_raises c document_name tag Hin Hname Hnone) in Hc'.
  - apply map_result_Raise in Hrun as (c0 & _ & Hrun).
    by apply (convert_node_Raise _ document_name) in Hrun as [-> _].
Qed.

Lemma convert_soup_returns soup :
  (∀ tag, tag ∈ findAll_name svgdiagram_tag_name soup →
          is_Some (attr_get svg_filename_attr (el_attrs tag))) →
  ∃ soup', convert_soup soup = Ok soup'.
Proof.
  intros Hall. destruct (convert_soup soup) as [soup'|e] eqn:Hrun; [eauto|].
  destruct (convert_soup_Raise soup e Hrun) as (_ & tag & Hin & Hnone).
  destruct (Hall tag Hin) as [v Hv]. congruence.
Qed.

(** X11: the conversion returns exactly when every svgdiagram tag
    carries [svg_filename-with-value]: it returns when they all do, a
    svgdiagram tag that lacks it makes the conversion raise the
    [KeyError] for that attribute, and the conversion raises nothing
    else. *)
Theorem convert_svg_diagram_soup_needs_filename (soup : BeautifulSoup) :
  ((∃ soup', convert_soup soup = Ok soup') ↔
   (∀ tag, tag ∈ findAll_name svgdiagram_tag_name soup →
           is_Some (attr_get svg_filename_attr (el_attrs tag)))) ∧
  (∀ e, convert_soup soup = Raise e → e = KeyError svg_filename_attr).
Proof.
  split; [split|].
  - intros [soup' Hrun] tag Hin.
    destruct (attr_get svg_filename_attr (el_attrs tag)) as [v|] eqn:Hv;
      [eauto|].
    by rewrite (convert_soup_raises soup tag Hin Hv) in Hrun.
  - apply convert_soup_returns.
  - intros e He. by apply convert_soup_Raise in He as [-> _].
Qed.

(** X12: what the conversion does to the attributes of a svgdiagram
    tag: the value of [svg_filename-with-value] moves to
    [filepath-with-value], [caption-with-value] is set to the escaped
    empty JSON string, both replacing any value the tag had under these
    names, [svg_filename-with-value] is gone and every other attribute
    keeps its value. *)
Theorem convert_svg_diagram_attrs_moves_filename
    (attrs attrs' : list (str * str)) :
  convert_svg_diagram_attrs escape_html attrs = Ok attrs' →
  attr_get filepath_attr attrs' = attr_get svg_filename_attr attrs ∧
  is_Some (attr_get svg_filename_attr attrs) ∧
  attr_get caption_attr attrs' = Some (escape_html [quote; quote]) ∧
  attr_get svg_filename_attr attrs' = None ∧
  ∀ key, key ≠ svg_filename_attr → key ≠ filepath_attr → key ≠ caption_attr →
         attr_get key attrs' = attr_get key attrs.
Proof.
  unfold convert_svg_diagram_attrs, getitem.
  destruct (attr_get svg_filename_attr attrs) as [value|] eqn:Hv; [|done].
  rewrite result_bind_Ok. intros [= <-].
  split; [|split; [eauto|split; [|split]]].
  - rewrite attr_get_attr_set_ne by done. apply attr_get_attr_set.
  - apply attr_get_attr_set.
  - rewrite !attr_get_attr_set_ne by done. apply attr_get_attr_del.
  - intros key H1 H2 H3. rewrite !attr_get_attr_set_ne by done.
    by apply attr_get_attr_del_ne.
Qed.
End SvgDiagram.

Section SvgDiagramStrings.
Variable html_parser : str → BeautifulSoup.
Variable serialize : BeautifulSoup → str.
Variable unescape_html escape_html : str → str.
Variable json_loads : str → result json.
Variable json_dumps : json → str.

Local Abbreviation convert_tags :=
  (convert_svg_diagram_tags_to_image_tags html_parser serialize unescape_html
     escape_html json_loads json_dumps).

Lemma process_string_with_components_flat
    (conversion_fn : BeautifulSoup → result str) (html_string : str) :
  (∀ tag, tag ∈ findAll (html_parser html_string) →
          el_name tag ≠ tabs_tag_name ∧
          (el_name tag = collapsible_tag_name →
           has_attr content_attr (el_attrs tag) = false)) →
  process_string_with_components html_parser unescape_html escape_html
    json_loads json_dumps conversion_fn html_string
  = conversion_fn (html_parser html_string).
Proof.
  intros Htags. unfold process_string_with_components.
  destruct (html_parser html_string) as [contents] eqn:Hsoup.
  cbn [soup_contents].
  assert (Hin : ∀ c tag, c ∈ contents → tag ∈ elements_of document_name c →
                         tag ∈ findAll (Soup contents))
    by (intros c tag Hc Htag; apply elem_of_findAll; eauto).
  rewrite map_result_fixed.
  - rewrite result_bind_Ok, map_result_fixed; [done|].
    apply Forall_forall. intros c Hc.
    apply (update_tags_fixed _ _ _ document_name). intros tag Htag Hname.
    destruct (Htags tag (Hin c tag Hc Htag)) as [Hno _]. done.
  - apply Forall_forall. intros c Hc.
    apply (update_tags_fixed _ _ _ document_name). intros tag Htag Hname.
    destruct (Htags tag (Hin c tag Hc Htag)) as [_ Hattr].
    unfold process_collapsible_raising. by rewrite (Hattr Hname).
Qed.

End SvgDiagramStrings.

Lemma convert_svg_diagram_soup_renames_witness :
  convert_svg_diagram_soup id svgdiagram_soup = Ok converted_svgdiagram_soup ∧
  el_name <$> findAll converted_svgdiagram_soup = [py "p"; image_tag_name] ∧
  soup_has_svgdiagram converted_svgdiagram_soup = false.
Proof.
  assert (Hrun : convert_svg_diagram_soup id svgdiagram_soup
                 = Ok converted_svgdiagram_soup) by (vm_compute; reflexivity).
  destruct (convert_svg_diagram_soup_renames id svgdiagram_soup
              converted_svgdiagram_soup Hrun) as (Hnames & Hnone & _).
  split; [exact Hrun|]. split; [|exact Hnone].
  rewrite Hnames. vm_compute. reflexivity.
Defined.

Lemma convert_svg_diagram_attrs_moves_filename_witness :
  let attrs := [(svg_filename_attr, py "a.svg"); (py "alt-with-value", py "x")] in
  let attrs' := [(py "alt-with-value", py "x"); (filepath_attr, py "a.svg");
                 (caption_attr, [quote; quote])] in
  convert_svg_diagram_attrs id attrs = Ok attrs' ∧
  attr_get filepath_attr attrs' = attr_get svg_filename_attr attrs ∧
  attr_get svg_filename_attr attrs' = None.
Proof.
  intros attrs attrs'.
  assert (Hrun : convert_svg_diagram_attrs id attrs = Ok attrs')
    by (vm_compute; reflexivity).
  destruct (convert_svg_diagram_attrs_moves_filename id attrs attrs' Hrun)
    as (Hpath & _ & _ & Hgone & _).
  split; [exact Hrun|]. split; [exact Hpath|exact Hgone].
Defined.



(** ** The math tag validators and the migration *)

Lemma fold_left_report {A : Type} (check : list A → A → list A)
    (bad : A → bool) (l : list A) (acc : list A) :
  (∀ acc a, check acc a = if bad a then acc ++ [a] else acc) →
  fold_left check l acc = acc ++ filter (λ a, bad a) l.
Proof.
  intros Hcheck. revert acc. induction l as [|a l IH]; intros acc.
  - cbn. by rewrite app_nil_r.
  - cbn [fold_left]. rewrite IH, Hcheck, filter_cons.
    destruct (bad a); cbn.
    + rewrite decide_True by done. by rewrite <- app_assoc.
    + rewrite decide_False by (by intros []). done.
Qed.

Section MathValidatorFacts.
Variable html_parser : str → BeautifulSoup.
Variable unescape_html : str → str.
Variable json_loads : str → result json.
Variable UnicodeString_normalize : json → result str.

Local Abbreviation decode_legacy :=
  (decode_raw_latex unescape_html json_loads UnicodeString_normalize).
Local Abbreviation decode_content :=
  (decode_math_content unescape_html json_loads UnicodeString_normalize).

Lemma soup_invalid_math_tags_filter soup :
  soup_invalid_math_tags unescape_html json_loads UnicodeString_normalize soup
  = filter (λ tag, raises (decode_legacy (el_attrs tag)))
           (findAll_name math_tag_name soup).
Proof.
  unfold soup_invalid_math_tags.
  rewrite (fold_left_report _
             (λ tag, raises (decode_legacy (el_attrs tag)))); [done|].
  intros acc tag. unfold check_legacy_math_tag.
  destruct (has_attr raw_latex_attr (el_attrs tag)) eqn:Hattr;
    [by destruct (decode_legacy _)|].
  apply has_attr_false in Hattr. unfold decode_raw_latex, getitem.
  by rewrite Hattr.
Qed.

Lemma soup_invalid_math_content_tags_filter soup :
  soup_invalid_math_content_tags unescape_html json_loads
    UnicodeString_normalize soup
  = filter (λ tag, raises (decode_content (el_attrs tag)))
           (findAll_name math_tag_name soup).
Proof.
  unfold soup_invalid_math_content_tags.
  rewrite (fold_left_report _
             (λ tag, raises (decode_content (el_attrs tag)))); [done|].
  intros acc tag. unfold check_math_content_tag.
  destruct (has_attr math_content_attr (el_attrs tag)) eqn:Hattr;
    [by destruct (decode_content _)|].
  apply has_attr_false in Hattr. unfold decode_math_content, getitem.
  by rewrite Hattr.
Qed.

(** X14: [validate_math_tags_in_html] returns, in document order, the
    math tags whose legacy attribute cannot be decoded: a math tag is
    reported exactly when reading, decoding or normalizing
    [raw_latex-with-value] raises, which a tag without the attribute
    always does.  No other tag is reported and none is reported twice
    over. *)
Theorem validate_math_tags_in_html_reports (html_string : str) :
  let math_tags := findAll_name math_tag_name (html_parser html_string) in
  let reported :=
    validate_math_tags_in_html html_parser unescape_html json_loads
                               UnicodeString_normalize html_string in
  reported `sublist_of` math_tags ∧
  (∀ tag, tag ∈ reported ↔
          tag ∈ math_tags ∧ ∃ e, decode_legacy (el_attrs tag) = Raise e) ∧
  (∀ tag, tag ∈ math_tags →
          attr_get raw_latex_attr (el_attrs tag) = None → tag ∈ reported).
Proof.
  cbv zeta. unfold validate_math_tags_in_html.
  rewrite soup_invalid_math_tags_filter.
  split; [apply sublist_filter|]. split.
  - intros tag. rewrite list_elem_of_filter.
    destruct (decode_legacy (el_attrs tag)) as [v|e]; cbn.
    + split; [by intros [[] _]|by intros [_ [e He]]].
    + split; [intros [_ Hin]; eauto|by intros [Hin _]].
  - intros tag Hin Hnone. apply list_elem_of_filter. split; [|done].
    unfold decode_raw_latex, getitem. by rewrite Hnone.
Qed.

(** X15: [validate_math_tags_in_html_with_attribute_math_content]
    returns, in document order, the math tags whose new attribute cannot
    be decoded: a math tag is reported exactly when reading or decoding
    [math_content-with-value], reading one of its two fields or
    normalizing one of them raises.  A math tag that carries neither
    attribute is reported by this validator and by the legacy one. *)
Theorem validate_math_tags_with_math_content_reports (html_string : str) :
  let math_tags := findAll_name math_tag_name (html_parser html_string) in
  let reported :=
    validate_math_tags_in_html_with_attribute_math_content html_parser
      unescape_html json_loads UnicodeString_normalize html_string in
  reported `sublist_of` math_tags ∧
  (∀ tag, tag ∈ reported ↔
          tag ∈ math_tags ∧ ∃ e, decode_content (el_attrs tag) = Raise e) ∧
  (∀ tag, tag ∈ math_tags →
          attr_get math_content_attr (el_attrs tag) = None →
          tag ∈ reported ∧
          (attr_get raw_latex_attr (el_attrs tag) = None →
           tag ∈ validate_math_tags_in_html html_parser unescape_html
                   json_loads UnicodeString_normalize html_string)).
Proof.
  cbv zeta.
  unfold validate_math_tags_in_html_with_attribute_math_content,
    validate_math_tags_in_html.
  rewrite soup_invalid_math_content_tags_filter, soup_invalid_math_tags_filter.
  split; [apply sublist_filter|]. split.
  - intros tag. rewrite list_elem_of_filter.
    destruct (decode_content (el_attrs tag)) as [v|e]; cbn.
    + split; [by intros [[] _]|by intros [_ [e He]]].
    + split; [intros [_ Hin]; eauto|by intros [Hin _]].
  - intros tag Hin Hnone. split.
    + apply list_elem_of_filter. split; [|done].
      unfold decode_math_content, getitem. by rewrite Hnone.
    + intros Hraw. apply list_elem_of_filter. split; [|done].
      unfold decode_raw_latex, getitem. by rewrite Hraw.
Qed.

Section AfterMigration.
Variable escape_html : str → str.
Variable json_dumps : json → str.
Variable MathExpressionContent_normalize : json → result json.
Variable destroyed_tag_access : option exn.

Local Abbreviation step :=
  (migrate_math_tag unescape_html escape_html json_loads json_dumps
                    UnicodeString_normalize MathExpressionContent_normalize).
Local Abbreviation soup_pass :=
  (add_math_content_to_soup unescape_html escape_html json_loads json_dumps
     UnicodeString_normalize MathExpressionContent_normalize
     destroyed_tag_access).

(** X16: the legacy validator rejects a migrated document wholesale:
    after a migration that returned, [validate_math_tags_in_html]'s
    check reports every math tag that is left, since none carries the
    legacy attribute any more. *)
Theorem migrated_document_fails_legacy_validation
    (soup soup' : BeautifulSoup) :
  soup_pass soup = Ok soup' →
  soup_invalid_math_tags unescape_html json_loads UnicodeString_normalize soup'
  = findAll_name math_tag_name soup'.
Proof.
  intros Hrun. rewrite soup_invalid_math_tags_filter. apply filter_all.
  apply Forall_forall. intros tag Hin.
  unfold add_math_content_to_soup in Hrun.
  apply bind_Ok in Hrun as (contents & Hc & [= <-]).
  apply list_elem_of_filter in Hin as [Hname Hin].
  assert (Hs : attrs_settled (el_attrs tag) = true).
  { eapply settled_math_tags; [|exact Hin|exact Hname].
    eapply nodes_pass_settles; [|exact Hc].
    apply Forall_forall. intros n _ ns. apply node_pass_settles. }
  unfold attrs_settled in Hs. apply andb_true_iff in Hs as [Hraw _].
  apply negb_true_iff, has_attr_false in Hraw.
  unfold decode_raw_latex, getitem. by rewrite Hraw.
Qed.

(** X17: the loop body of the migration touches three attributes only.
    On a tag it keeps, every attribute other than
    [raw_latex-with-value], [svg_filename-with-value] and
    [math_content-with-value] has the value it had.  When the tag
    carried the legacy attribute, the file name attribute is gone too
    and the new attribute is the freshly encoded content, whatever
    value the tag had there before: the legacy attribute takes
    precedence.  A tag without the legacy attribute is kept as it is. *)
Theorem migrate_math_tag_touches_three_attributes
    (attrs attrs' : list (str * str)) :
  step attrs = Ok (Kept attrs') →
  (∀ key, key ≠ raw_latex_attr → key ≠ svg_filename_attr →
          key ≠ math_content_attr →
          attr_get key attrs' = attr_get key attrs) ∧
  (has_attr raw_latex_attr attrs = true →
   attr_get raw_latex_attr attrs' = None ∧
   attr_get svg_filename_attr attrs' = None ∧
   ∃ raw_latex svg_filename content,
     MathExpressionContent_normalize (math_content_dict raw_latex svg_filename)
     = Ok content ∧
     attr_get math_content_attr attrs'
     = Some (escape_html (json_dumps content))) ∧
  (has_attr raw_latex_attr attrs = false → attrs' = attrs).
Proof.
  unfold migrate_math_tag.
  destruct (has_attr raw_latex_attr attrs) eqn:Hraw.
  - intros Hrun. apply bind_Ok in Hrun as (value & _ & Hrun).
    destruct value as [|c value]; [done|].
    apply bind_Ok in Hrun as (raw_latex & _ & Hrun).
    apply bind_Ok in Hrun as (normalized & _ & Hrun).
    apply bind_Ok in Hrun as ([content attrs0] & Hsvg & Hrun).
    apply bind_Ok in Hrun as (normalized_content & Hcontent & [= <-]).
    assert (Hattrs0 : (∀ key, key ≠ svg_filename_attr →
                              attr_get key attrs0 = attr_get key attrs) ∧
                      attr_get svg_filename_attr attrs0 = None ∧
                      ∃ svg_filename,
                        content = math_content_dict normalized svg_filename).
    { destruct (has_attr svg_filename_attr attrs) eqn:Hhas.
      - apply bind_Ok in Hsvg as (svg_value & _ & Hsvg).
        apply bind_Ok in Hsvg as (svg_filename & _ & Hsvg).
        apply bind_Ok in Hsvg as (normalized_svg & _ & [= <- <-]).
        split; [|split; [apply attr_get_attr_del|eauto]].
        intros key Hkey. by apply attr_get_attr_del_ne.
      - injection Hsvg as <- <-.
        split; [done|]. split; [by apply has_attr_false|eauto]. }
    destruct Hattrs0 as (Hother & Hnone & svg_filename & ->).
    split; [|split; [|done]].
    + intros key H1 H2 H3.
      rewrite attr_get_attr_del_ne, attr_get_attr_set_ne by done.
      by apply Hother.
    + intros _. split; [apply attr_get_attr_del|]. split.
      * by rewrite attr_get_attr_del_ne, attr_get_attr_set_ne.
      * exists normalized, svg_filename, normalized_content.
        split; [done|].
        rewrite attr_get_attr_del_ne by done. apply attr_get_attr_set.
  - destruct (has_attr math_content_attr attrs); [|done].
    intros [= <-]. done.
Qed.
End AfterMigration.
End MathValidatorFacts.

Lemma migrated_document_fails_legacy_validation_witness :
  let soup' :=
    Soup [Tag (py "p") []
            [NavigableString (py "a");
             Tag math_tag_name
                 [(math_content_attr,
                   sample_json_dumps (math_content_dict (py "x^2") []))] []]] in
  add_math_content_to_soup id id sample_json_loads sample_json_dumps
    sample_normalize sample_content_normalize None legacy_math_soup = Ok soup' ∧
  soup_invalid_math_tags id sample_json_loads sample_normalize soup'
  = findAll_name math_tag_name soup'.
Proof.
  intros soup'.
  assert (Hrun : add_math_content_to_soup id id sample_json_loads
                   sample_json_dumps sample_normalize sample_content_normalize
                   None legacy_math_soup = Ok soup')
    by (vm_compute; reflexivity).
  split; [exact Hrun|].
  exact (migrated_document_fails_legacy_validation id sample_json_loads
           sample_normalize id sample_json_dumps sample_content_normalize None
           legacy_math_soup soup' Hrun).
Defined.

Lemma migrate_math_tag_touches_three_attributes_witness :
  let step := migrate_math_tag id id sample_json_loads sample_json_dumps
                               sample_normalize sample_content_normalize in
  step mixed_math_attrs = Ok (Kept migrated_mixed_math_attrs) ∧
  attr_get (py "alt-with-value") migrated_mixed_math_attrs
  = attr_get (py "alt-with-value") mixed_math_attrs ∧
  attr_get svg_filename_attr migrated_mixed_math_attrs = None.
Proof.
  intros step.
  assert (Hrun : step mixed_math_attrs = Ok (Kept migrated_mixed_math_attrs))
    by (vm_compute; reflexivity).
  destruct (migrate_math_tag_touches_three_attributes id sample_json_loads
              sample_normalize id sample_json_dumps sample_content_normalize
              mixed_math_attrs migrated_mixed_math_attrs Hrun)
    as (Hother & Hlegacy & _).
  split; [exact Hrun|]. split.
  - apply Hother; discriminate.
  - apply Hlegacy. reflexivity.
Defined.


(** ** The checks of the new math attribute *)

Section MathContentFacts.
Variable html_parser : str → BeautifulSoup.
Variable unescape_html : str → str.
Variable json_loads : str → result json.
Variable UnicodeString_normalize : json → result str.
Variable tag_str : Element → str.
Variable isfile : str → str → str → result bool.
Variable Math_validate : json → validation.

Local Abbreviation validate_files :=
  (validate_svg_filenames_in_math_rich_text html_parser unescape_html
     json_loads UnicodeString_normalize tag_str isfile).
Local Abbreviation extract_files :=
  (extract_svg_filenames_in_math_rte_components html_parser unescape_html
     json_loads UnicodeString_normalize).
Local Abbreviation validate_content :=
  (validate_math_content_attribute_in_html html_parser unescape_html
     json_loads tag_str Math_validate).
Local Abbreviation check_file :=
  (check_svg_filename unescape_html json_loads UnicodeString_normalize
     tag_str isfile).
Local Abbreviation extract_file :=
  (extract_svg_filename unescape_html json_loads UnicodeString_normalize).
Local Abbreviation check_content :=
  (check_math_content unescape_html json_loads tag_str Math_validate).

Lemma check_file_passes entity_type entity_id tag error_list :
  check_file entity_type entity_id tag error_list = Ok [] →
  error_list = [] ∧
  ∀ filenames, ∃ new,
    extract_file tag filenames = Ok (filenames ++ new) ∧
    ∀ f, f ∈ new →
         isfile entity_type entity_id (py "image/" ++ f) = Ok true.
Proof.
  unfold check_svg_filename, extract_svg_filename. intros Hrun.
  apply bind_Ok in Hrun as (value & Hvalue & Hrun).
  apply bind_Ok in Hrun as (dict & Hdict & Hrun).
  apply bind_Ok in Hrun as (raw & Hraw & Hrun).
  apply bind_Ok in Hrun as (svg_filename & Hnorm & Hrun).
  destruct svg_filename as [|c svg_filename].
  { injection Hrun as Hrun. by destruct error_list. }
  apply bind_Ok in Hrun as (found & Hfile & Hrun).
  destruct found; cbn in Hrun.
  - injection Hrun as ->. split; [done|]. intros filenames.
    rewrite Hvalue, result_bind_Ok, Hdict, result_bind_Ok, Hraw, result_bind_Ok.
    destruct (is_empty_string raw).
    + exists []. split; [by rewrite app_nil_r|]. by intros f Hf%elem_of_nil.
    + rewrite Hnorm, result_bind_Ok. eexists. split; [done|].
      by intros f ->%list_elem_of_singleton.
  - injection Hrun as Hrun. by destruct error_list.
Qed.

Lemma check_file_grows entity_type entity_id tag error_list error_list' :
  check_file entity_type entity_id tag error_list = Ok error_list' →
  length error_list ≤ length error_list'.
Proof.
  unfold check_svg_filename. intros Hrun.
  apply bind_Ok in Hrun as (value & _ & Hrun).
  apply bind_Ok in Hrun as (dict & _ & Hrun).
  apply bind_Ok in Hrun as (raw & _ & Hrun).
  apply bind_Ok in Hrun as (svg_filename & _ & Hrun).
  destruct svg_filename as [|c svg_filename].
  { injection Hrun as <-. rewrite length_app. lia. }
  apply bind_Ok in Hrun as (found & _ & Hrun).
  destruct found; cbn in Hrun; injection Hrun as <-;
    [done|rewrite length_app; lia].
Qed.

(** X18: when [validate_svg_filenames_in_math_rich_text] returns the
    empty list, [extract_svg_filenames_in_math_rte_components] returns
    on the same string, and every file name it returns names a file
    that exists under [image/] for that entity. *)
Theorem validated_svg_filenames_exist
    (entity_type entity_id html_string : str) :
  validate_files entity_type entity_id html_string = Ok [] →
  ∃ filenames,
    extract_files html_string = Ok filenames ∧
    ∀ f, f ∈ filenames →
         isfile entity_type entity_id (py "image/" ++ f) = Ok true.
Proof.
  unfold validate_svg_filenames_in_math_rich_text,
    extract_svg_filenames_in_math_rte_components,
    soup_invalid_svg_filenames, soup_svg_filenames.
  generalize (findAll_name math_tag_name (html_parser html_string)).
  intros tags.
  assert (Hgen : ∀ error_list filenames,
            for_each (check_file entity_type entity_id) tags error_list
              = Ok [] →
            (∀ f, f ∈ filenames →
                  isfile entity_type entity_id (py "image/" ++ f) = Ok true) →
            ∃ filenames',
              for_each extract_file tags filenames = Ok filenames' ∧
              ∀ f, f ∈ filenames' →
                   isfile entity_type entity_id (py "image/" ++ f) = Ok true).
  { induction tags as [|tag tags IH]; intros error_list filenames Hrun Hold.
    - exists filenames. done.
    - cbn [for_each] in *.
      apply bind_Ok in Hrun as (error_list' & Htag & Hrest).
      assert (error_list' = []) as ->.
      { assert (Hlen : length error_list' ≤ length (@nil str)).
        { eapply (for_each_invariant (λ errs, length error_list' ≤ length errs));
            [|done|exact Hrest].
          intros a s s' _ Hs Hbody. apply check_file_grows in Hbody. lia. }
        destruct error_list'; [done|cbn in Hlen; lia]. }
      destruct (check_file_passes _ _ _ _ Htag) as [_ Hextract].
      destruct (Hextract filenames) as (new & -> & Hnew).
      rewrite result_bind_Ok. apply (IH []); [done|].
      intros f [Hf|Hf]%elem_of_app; auto. }
  intros Hrun. apply (Hgen [] []); [done|]. by intros f Hf%elem_of_nil.
Qed.

(** X19: a math tag without [math_content-with-value] makes
    [validate_svg_filenames_in_math_rich_text],
    [validate_math_content_attribute_in_html] and
    [extract_svg_filenames_in_math_rte_components] raise, where
    [validate_math_tags_in_html_with_attribute_math_content] returns a
    list that holds the tag. *)
Theorem math_tag_without_content_raises
    (entity_type entity_id html_string : str) (tag : Element) :
  tag ∈ findAll_name math_tag_name (html_parser html_string) →
  attr_get math_content_attr (el_attrs tag) = None →
  (∃ e, validate_files entity_type entity_id html_string = Raise e) ∧
  (∃ e, validate_content html_string = Raise e) ∧
  (∃ e, extract_files html_string = Raise e) ∧
  tag ∈ validate_math_tags_in_html_with_attribute_math_content html_parser
          unescape_html json_loads UnicodeString_normalize html_string.
Proof.
  intros Hin Hnone. split; [|split; [|split]].
  - apply (for_each_raises _ _ tag); [done|]. intros error_list.
    unfold check_svg_filename, getitem. rewrite Hnone. by eexists.
  - apply (for_each_raises _ _ tag); [done|]. intros error_list.
    unfold check_math_content, getitem. rewrite Hnone. by eexists.
  - apply (for_each_raises _ _ tag); [done|]. intros filenames.
    unfold extract_svg_filename, getitem. rewrite Hnone. by eexists.
  - unfold validate_math_tags_in_html_with_attribute_math_content.
    rewrite soup_invalid_math_content_tags_filter.
    apply list_elem_of_filter. split; [|done].
    unfold decode_math_content, getitem. by rewrite Hnone.
Qed.

(** X20: when [validate_math_content_attribute_in_html] returns, the
    attribute of every math tag was read and decoded, and the list holds
    one entry for each math tag whose content [Math.validate] rejected
    with a [ValidationError], in document order: the entry pairs
    [str(tag)] with the message.  Tags that validate leave no entry. *)
Theorem validate_math_content_attribute_entries
    (html_string : str) (error_list : list math_error) :
  validate_content html_string = Ok error_list →
  ∃ verdicts : list (Element * json * validation),
    verdicts.*1.*1 = findAll_name math_tag_name (html_parser html_string) ∧
    Forall (λ '(tag, content, verdict),
              (∃ value, attr_get math_content_attr (el_attrs tag) = Some value ∧
                        json_loads (unescape_html value) = Ok content) ∧
              Math_validate (JObject [(math_content_attr, content)]) = verdict)
           verdicts ∧
    error_list =
      omap (λ '(tag, content, verdict),
              match verdict with
              | ValidationError msg => Some (MathError (tag_str tag) msg)
              | _ => None
              end) verdicts.
Proof.
  unfold validate_math_content_attribute_in_html, soup_math_content_errors.
  generalize (findAll_name math_tag_name (html_parser html_string)).
  intros tags.
  assert (Hgen : ∀ acc,
            for_each check_content tags acc = Ok error_list →
            ∃ verdicts : list (Element * json * validation),
              verdicts.*1.*1 = tags ∧
              Forall (λ '(tag, content, verdict),
                        (∃ value,
                           attr_get math_content_attr (el_attrs tag)
                             = Some value ∧
                           json_loads (unescape_html value) = Ok content) ∧
                        Math_validate (JObject [(math_content_attr, content)])
                          = verdict)
                     verdicts ∧
              error_list =
                acc ++
                omap (λ '(tag, content, verdict),
                        match verdict with
                        | ValidationError msg =>
                            Some (MathError (tag_str tag) msg)
                        | _ => None
                        end) verdicts).
  { induction tags as [|tag tags IH]; intros acc Hrun.
    - injection Hrun as <-. exists []. by rewrite app_nil_r.
    - cbn [for_each] in Hrun.
      apply bind_Ok in Hrun as (acc' & Htag & Hrest).
      destruct (IH acc' Hrest) as (verdicts & Htags & Hall & ->).
      unfold check_math_content, getitem in Htag.
      destruct (attr_get math_content_attr (el_attrs tag)) as [value|] eqn:Hv;
        [|done].
      rewrite result_bind_Ok in Htag.
      apply bind_Ok in Htag as (content & Hcontent & Htag).
      exists ((tag, content,
               Math_validate (JObject [(math_content_attr, content)]))
              :: verdicts).
      split; [by rewrite !fmap_cons, Htags|]. split.
      + constructor; [|done]. split; [eauto|done].
      + cbn [omap].
        destruct (Math_validate _) as [|msg|e]; cbn.
        * by injection Htag as <-.
        * injection Htag as <-. by rewrite <- app_assoc.
        * done. }
  intros Hrun. destruct (Hgen [] Hrun) as (verdicts & H1 & H2 & H3). eauto.
Qed.
End MathContentFacts.


(** ** A clean SVG report *)

Lemma flat_map_nil {A B : Type} (f : A → list B) (l : list A) :
  flat_map f l = [] ↔ ∀ x, x ∈ l → f x = [].
Proof.
  induction l as [|a l IH]; cbn.
  - split; [by intros _ x Hx%elem_of_nil|done].
  - split.
    + intros [Ha Hl]%app_eq_nil x [->|Hx]%elem_of_cons; [done|].
      by apply IH.
    + intros Hall. rewrite (Hall a) by left. apply IH.
      intros x Hx. apply Hall. by right.
Qed.

Lemma filter_nil_iff {A : Type} (P : A → Prop) `{∀ x, Decision (P x)}
    (l : list A) :
  filter P l = [] ↔ ∀ x, x ∈ l → ¬ P x.
Proof.
  split.
  - intros Hnil x Hx HP.
    assert (Hin : x ∈ filter P l) by (by apply list_elem_of_filter).
    rewrite Hnil in Hin. by apply elem_of_nil in Hin.
  - intros Hall. induction l as [|a l IH]; [done|].
    rewrite filter_cons_False by (apply Hall; left).
    apply IH. intros x Hx. apply Hall. by right.
Qed.

Section SvgReport.
Variable html_parser : str → BeautifulSoup.
Variable SVG_ATTRS_ALLOWLIST : gmap str (list str).
Variable lower : str → str.

(** X21: [get_invalid_svg_tags_and_attrs] returns two empty lists
    exactly when the lower-cased name of every element of the document
    is a key of the allowlist and the lower-cased name of each of its
    attributes is in the list kept under that key.  The first list has
    one entry for each element with an unknown name, so it is never
    longer than the document has elements. *)
Theorem get_invalid_svg_tags_and_attrs_clean (svg_string : str) :
  let report :=
    get_invalid_svg_tags_and_attrs html_parser SVG_ATTRS_ALLOWLIST lower
                                   svg_string in
  let elements := findAll (html_parser svg_string) in
  (report = ([], []) ↔
   ∀ element, element ∈ elements →
     ∃ allowed,
       SVG_ATTRS_ALLOWLIST !! lower (el_name element) = Some allowed ∧
       ∀ attr, attr ∈ (el_attrs element).*1 → lower attr ∈ allowed) ∧
  report.1
  = el_name <$>
    filter (λ element, SVG_ATTRS_ALLOWLIST !! lower (el_name element) = None)
           elements ∧
  length report.1 ≤ length elements.
Proof.
  cbv zeta.
  unfold get_invalid_svg_tags_and_attrs, soup_invalid_svg_tags_and_attrs.
  rewrite check_elements_loop. cbn [fst snd app].
  generalize (findAll (html_parser svg_string)). intros elements.
  assert (Hnames :
            flat_map (spec_invalid_element SVG_ATTRS_ALLOWLIST lower) elements
            = el_name <$>
              filter (λ element,
                        SVG_ATTRS_ALLOWLIST !! lower (el_name element) = None)
                     elements).
  { induction elements as [|element elements IH]; [done|].
    cbn [flat_map]. rewrite filter_cons, IH. unfold spec_invalid_element.
    destruct (SVG_ATTRS_ALLOWLIST !! lower (el_name element)) eqn:Hk.
    - by rewrite decide_False.
    - by rewrite decide_True. }
  split; [|split; [exact Hnames|]].
  - split.
    + intros [= Helements Hattrs] element Hin.
      pose proof (proj1 (flat_map_nil _ _) Helements element Hin) as He.
      pose proof (proj1 (flat_map_nil _ _) Hattrs element Hin) as Ha.
      unfold spec_invalid_element in He. unfold spec_invalid_attrs in Ha.
      destruct (SVG_ATTRS_ALLOWLIST !! lower (el_name element)) as [allowed|];
        [|done].
      exists allowed. split; [done|]. intros attr Hattr.
      apply fmap_nil_inv in Ha.
      apply dec_stable. by apply (proj1 (filter_nil_iff _ _) Ha attr).
    + intros Hall. f_equal.
      * apply flat_map_nil. intros element Hin.
        destruct (Hall element Hin) as (allowed & Hk & _).
        unfold spec_invalid_element. by rewrite Hk.
      * apply flat_map_nil. intros element Hin.
        destruct (Hall element Hin) as (allowed & Hk & Hattrs).
        unfold spec_invalid_attrs. rewrite Hk.
        rewrite (proj2 (filter_nil_iff _ _)); [done|].
        intros attr Hattr Hnot. by apply Hnot, Hattrs.
  - rewrite Hnames, length_fmap. apply length_filter.
Qed.
End SvgReport.

Lemma get_invalid_svg_tags_and_attrs_clean_witness :
  let parser := sample_parser [(sample_svg_html, sample_svg_soup)] in
  let report :=
    get_invalid_svg_tags_and_attrs parser sample_svg_allowlist sample_lower
                                   sample_svg_html in
  report ≠ ([], []) ∧ report.1 = [py "script"] ∧
  length report.1 ≤ length (findAll (parser sample_svg_html)).
Proof.
  intros parser report.
  destruct (get_invalid_svg_tags_and_attrs_clean parser sample_svg_allowlist
              sample_lower sample_svg_html) as (_ & Hnames & Hlen).
  split; [discriminate|]. split; [|exact Hlen].
  unfold report. rewrite Hnames. vm_compute. reflexivity.
Defined.


(** ** Customization arguments *)

Section CustomizationFacts.
Variable html_parser : str → BeautifulSoup.
Variable unescape_html : str → str.
Variable json_loads : str → result json.
Variable parse_non_string : json → result BeautifulSoup.
Variable INLINE_COMPONENT_TAG_NAMES BLOCK_COMPONENT_TAG_NAMES : list str.
Variable simple_component_tag_names : list str.
Variable component_types_to_component_classes
  : gmap str (list (str * json) → result ()).
Variable exn_str : exn → str.
Variable same_tag : Element → Element → bool.

Local Abbreviation in_tag :=
  (validate_customization_args_in_tag html_parser unescape_html json_loads
     parse_non_string simple_component_tag_names
     component_types_to_component_classes exn_str).
Local Abbreviation try_block :=
  (validate_value_dict html_parser parse_non_string simple_component_tag_names
     component_types_to_component_classes).
Local Abbreviation tabs_loop :=
  (validate_tab_contents html_parser parse_non_string
     simple_component_tag_names).
Local Abbreviation decode := (decode_attrs unescape_html json_loads).
Local Abbreviation validate_args :=
  (validate_customization_args html_parser unescape_html json_loads
     parse_non_string INLINE_COMPONENT_TAG_NAMES BLOCK_COMPONENT_TAG_NAMES
     simple_component_tag_names component_types_to_component_classes exn_str
     same_tag).
Local Abbreviation errors_loop :=
  (record_errors html_parser unescape_html json_loads parse_non_string
     simple_component_tag_names component_types_to_component_classes exn_str).

Lemma component_tags_names names soup tag :
  tag ∈ component_tags names soup → el_name tag ∈ names.
Proof.
  unfold component_tags. intros Hin.
  apply list_elem_of_In, in_flat_map in Hin as (name & Hname & Hin).
  apply list_elem_of_In in Hname, Hin.
  apply list_elem_of_filter in Hin as [-> _]. done.
Qed.

Lemma yield_from_ext (f g : Element → option (result (list str))) tags :
  (∀ tag, tag ∈ tags → f tag = g tag ∧ is_Some (g tag)) →
  yield_from f tags = yield_from g tags ∧ is_Some (yield_from g tags).
Proof.
  induction tags as [|tag tags IH]; intros Hext; [by split; [|eexists]|].
  cbn [yield_from]. destruct (Hext tag) as [-> [r Hr]]; [by left|].
  rewrite Hr. destruct r as [msgs|e]; [|by split; [|eexists]].
  destruct IH as [-> [[msgs' e'] ->]]; [intros t Ht; apply Hext; by right|].
  by split; [|eexists].
Qed.

Lemma tabs_loop_ext (f g : Element → option (result (list str))) items :
  (∀ tag, el_name tag ∈ simple_component_tag_names →
          f tag = g tag ∧ is_Some (g tag)) →
  tabs_loop f items = tabs_loop g items ∧ is_Some (tabs_loop g items).
Proof.
  intros Hext. induction items as [|item items IH]; [by split; [|eexists]|].
  cbn [validate_tab_contents].
  destruct (_ ≫= _) as [soup|e]; [|by split; [|eexists]].
  destruct (yield_from_ext f g
              (component_tags simple_component_tag_names soup))
    as [-> [[msgs e] ->]].
  { intros tag Htag. apply Hext. by eapply component_tags_names. }
  cbn. destruct e as [e|]; [by split; [|eexists]|].
  destruct IH as [-> [[msgs' e'] ->]]. by split; [|eexists].
Qed.

Lemma try_block_ext (f g : Element → option (result (list str)))
    tag_name value_dict :
  (∀ tag, el_name tag ∈ simple_component_tag_names →
          f tag = g tag ∧ is_Some (g tag)) →
  try_block f tag_name value_dict = try_block g tag_name value_dict ∧
  is_Some (try_block g tag_name value_dict).
Proof.
  intros Hext. unfold validate_value_dict.
  destruct (match component_types_to_component_classes !! tag_name with
            | Some validate => validate value_dict
            | None => Raise (KeyError tag_name)
            end) as [[]|e]; [|by split; [|eexists]].
  destruct (decide (tag_name = collapsible_tag_name)) as [Hc|Hc].
  - destruct (_ ≫= _) as [soup|e]; [|by split; [|eexists]].
    apply yield_from_ext. intros tag Htag. apply Hext.
    by eapply component_tags_names.
  - destruct (decide (tag_name = tabs_tag_name)) as [Ht|Ht];
      [|by split; [|eexists]].
    destruct (_ ≫= _) as [items|e]; [|by split; [|eexists]].
    by apply tabs_loop_ext.
Qed.

Lemma in_tag_simple fuel tag :
  el_name tag ≠ collapsible_tag_name → el_name tag ≠ tabs_tag_name →
  in_tag (S fuel) tag = in_tag 1 tag ∧ is_Some (in_tag 1 tag).
Proof.
  intros Hc Ht. cbn [validate_customization_args_in_tag].
  destruct (decode (el_attrs tag)) as [value_dict|e]; [|by split; [|eexists]].
  unfold validate_value_dict.
  destruct (match component_types_to_component_classes !! el_name tag with
            | Some validate => validate value_dict
            | None => Raise (KeyError (el_name tag))
            end) as [[]|e]; [|by split; [|eexists]].
  rewrite !decide_False by done. by split; [|eexists].
Qed.

Lemma in_tag_fuel fuel tag :
  collapsible_tag_name ∉ simple_component_tag_names →
  tabs_tag_name ∉ simple_component_tag_names →
  in_tag (S (S fuel)) tag = in_tag 2 tag ∧ is_Some (in_tag 2 tag).
Proof.
  intros Hc Ht.
  assert (Hnested : ∀ n tag, el_name tag ∈ simple_component_tag_names →
                             in_tag (S n) tag = in_tag 1 tag ∧
                             is_Some (in_tag 1 tag)).
  { intros n t Hname.
    apply in_tag_simple; intros Heq; by rewrite Heq in Hname. }
  change (in_tag (S (S fuel)) tag)
    with (match decode (el_attrs tag) with
          | Raise e => Some (Raise e)
          | Ok value_dict =>
              '(err_msgs, e) ←
                try_block (in_tag (S fuel)) (el_name tag) value_dict;
              Some (Ok (err_msgs ++ match e with
                                    | Some e => [exn_str e]
                                    | None => []
                                    end))
          end).
  change (in_tag 2 tag)
    with (match decode (el_attrs tag) with
          | Raise e => Some (Raise e)
          | Ok value_dict =>
              '(err_msgs, e) ← try_block (in_tag 1) (el_name tag) value_dict;
              Some (Ok (err_msgs ++ match e with
                                    | Some e => [exn_str e]
                                    | None => []
                                    end))
          end).
  destruct (decode (el_attrs tag)) as [value_dict|e]; [|by split; [|eexists]].
  destruct (try_block_ext (in_tag (S fuel)) (in_tag 1) (el_name tag) value_dict
              (Hnested fuel)) as [-> [[msgs e] ->]].
  by split; [|eexists].
Qed.

(** X22: the generator calls itself on component tags with a simple
    name only.  So when neither the collapsible nor the tabs component
    is among the simple ones, the calls are never more than two deep:
    two units of fuel give a result for every tag and every list of
    strings, and more fuel gives the same result. *)
Theorem validate_customization_args_depth
    (fuel : nat) (tag : Element) (html_list : list str) :
  collapsible_tag_name ∉ simple_component_tag_names →
  tabs_tag_name ∉ simple_component_tag_names →
  2 ≤ fuel →
  in_tag fuel tag = in_tag 2 tag ∧ is_Some (in_tag 2 tag) ∧
  validate_args fuel html_list = validate_args 2 html_list ∧
  is_Some (validate_args 2 html_list).
Proof.
  intros Hc Ht Hfuel.
  destruct fuel as [|[|fuel]]; [lia|lia|clear Hfuel].
  destruct (in_tag_fuel fuel tag Hc Ht) as [Heq Hsome].
  split; [exact Heq|]. split; [exact Hsome|].
  unfold validate_customization_args.
  generalize (fold_left
                (collect_tags html_parser INLINE_COMPONENT_TAG_NAMES
                              BLOCK_COMPONENT_TAG_NAMES same_tag)
                html_list []).
  generalize (∅ : gmap str (list str)).
  intros err_dict tags. revert err_dict.
  induction tags as [|[t html_string] tags IH]; intros err_dict;
    [by split; [|eexists]|].
  cbn [record_errors].
  destruct (in_tag_fuel fuel t Hc Ht) as [-> [r ->]].
  destruct r as [msgs|e]; [apply IH|by split; [|eexists]].
Qed.

Lemma tags_setitem_values (P : str → Prop) tag html_string tags :
  P html_string → Forall (λ kv, P kv.2) tags →
  Forall (λ kv, P kv.2) (tags_setitem same_tag tag html_string tags).
Proof.
  intros Hnew. induction 1 as [|[key value] tags Hkv Htags IH]; cbn.
  - by constructor.
  - destruct (same_tag key tag); constructor; done.
Qed.

Lemma collect_tags_values (P : str → Prop) tags html_string :
  P html_string → Forall (λ kv, P kv.2) tags →
  Forall (λ kv, P kv.2)
         (collect_tags html_parser INLINE_COMPONENT_TAG_NAMES
                       BLOCK_COMPONENT_TAG_NAMES same_tag tags html_string).
Proof.
  intros Hnew. unfold collect_tags.
  generalize (component_tags
                (INLINE_COMPONENT_TAG_NAMES ++ BLOCK_COMPONENT_TAG_NAMES)
                (html_parser html_string)).
  intros found. revert tags.
  induction found as [|tag found IH]; intros tags Htags; [done|].
  cbn [fold_left]. apply IH. by apply tags_setitem_values.
Qed.

Local Abbreviation entries_ok html_list :=
  (map_Forall (M := gmap str (list str))
     (λ (msg : str) (html_strings : list str),
        msg ≠ [] ∧ html_strings ≠ [] ∧ NoDup html_strings ∧
        ∀ s, s ∈ html_strings → s ∈ html_list)).

Lemma record_error_entries (html_list : list str) html_string err_dict err_msg :
  html_string ∈ html_list →
  entries_ok html_list err_dict →
  entries_ok html_list (record_error html_string err_dict err_msg).
Proof.
  intros Hin Hinv. unfold record_error.
  destruct err_msg as [|c err_msg]; [done|].
  destruct (err_dict !! (c :: err_msg)) as [html_strings|] eqn:Hk.
  - destruct (Hinv _ _ Hk) as (_ & _ & Hnodup & Hall).
    case_bool_decide as Hmem; [done|].
    apply map_Forall_insert_2; [|done].
    split; [done|]. split; [by destruct html_strings|]. split.
    + apply NoDup_app. split; [done|]. split; [|apply NoDup_singleton].
      intros s Hs ->%list_elem_of_singleton. done.
    + intros s [Hs| ->%list_elem_of_singleton]%elem_of_app; auto.
  - apply map_Forall_insert_2; [|done].
    split; [done|]. split; [done|]. split; [apply NoDup_singleton|].
    by intros s ->%list_elem_of_singleton.
Qed.

Lemma record_error_list_entries (html_list : list str) html_string msgs
    err_dict :
  html_string ∈ html_list →
  entries_ok html_list err_dict →
  entries_ok html_list (fold_left (record_error html_string) msgs err_dict).
Proof.
  intros Hin. revert err_dict.
  induction msgs as [|msg msgs IH]; intros err_dict Hinv; [done|].
  cbn [fold_left]. apply IH. by apply record_error_entries.
Qed.

Lemma collected_tags_values (html_list l : list str) tags :
  (∀ s, s ∈ l → s ∈ html_list) →
  Forall (λ kv : Element * str, kv.2 ∈ html_list) tags →
  Forall (λ kv : Element * str, kv.2 ∈ html_list)
         (fold_left
            (collect_tags html_parser INLINE_COMPONENT_TAG_NAMES
                          BLOCK_COMPONENT_TAG_NAMES same_tag)
            l tags).
Proof.
  revert tags. induction l as [|html_string l IH]; intros tags Hl Htags;
    [done|].
  cbn [fold_left]. apply IH; [intros s Hs; apply Hl; by right|].
  apply (collect_tags_values (λ s, s ∈ html_list)); [|done].
  apply Hl. by left.
Qed.

(** X23: in the dictionary [validate_customization_args] returns no
    key is the empty message, and the list under a key is not empty,
    holds no string twice and holds strings of the input list only. *)
Theorem validate_customization_args_entries
    (fuel : nat) (html_list : list str) (err_dict : gmap str (list str))
    (err_msg : str) (html_strings : list str) :
  validate_customization_args html_parser unescape_html json_loads
    parse_non_string INLINE_COMPONENT_TAG_NAMES BLOCK_COMPONENT_TAG_NAMES
    simple_component_tag_names component_types_to_component_classes exn_str
    same_tag fuel html_list = Some (Ok err_dict) →
  err_dict !! err_msg = Some html_strings →
  err_msg ≠ [] ∧ html_strings ≠ [] ∧ NoDup html_strings ∧
  ∀ s, s ∈ html_strings → s ∈ html_list.
Proof.
  unfold validate_customization_args. intros Hrun Hentry.
  pose proof (collected_tags_values html_list html_list []
                (λ s Hs, Hs) (Forall_nil_2 _)) as Htags.
  revert Hrun Htags.
  generalize (fold_left
                (collect_tags html_parser INLINE_COMPONENT_TAG_NAMES
                              BLOCK_COMPONENT_TAG_NAMES same_tag)
                html_list []).
  assert (Hempty : entries_ok html_list ∅) by apply map_Forall_empty.
  revert Hempty. generalize (∅ : gmap str (list str)).
  intros acc Hacc tags. revert acc Hacc.
  induction tags as [|[tag html_string] tags IH]; intros acc Hacc Hrun Htags.
  - injection Hrun as <-. exact (Hacc _ _ Hentry).
  - cbn [record_errors] in Hrun.
    destruct (in_tag fuel tag) as [[msgs|e]|]; [|done|done].
    apply Forall_cons in Htags as [Hin Htags].
    eapply IH; [|exact Hrun|exact Htags].
    by apply record_error_list_entries.
Qed.

(** X24: the generator raises only while it decodes the attributes of
    the tag it was given: if one of them fails to decode it raises that
    exception, and once they are decoded it never raises.  What goes
    wrong later ends as a message: a tag whose component is unknown or
    rejects the values yields [str(e)] and nothing else, and so does a
    collapsible whose content starts with a simple component tag that
    has an attribute which fails to decode. *)
Theorem validate_customization_args_in_tag_errors
    (fuel : nat) (tag : Element) :
  (∀ e, decode (el_attrs tag) = Raise e →
        in_tag (S fuel) tag = Some (Raise e)) ∧
  (∀ value_dict e, decode (el_attrs tag) = Ok value_dict →
                   in_tag fuel tag ≠ Some (Raise e)) ∧
  (∀ value_dict e,
     decode (el_attrs tag) = Ok value_dict →
     match component_types_to_component_classes !! el_name tag with
     | Some validate => validate value_dict
     | None => Raise (KeyError (el_name tag))
     end = Raise e →
     in_tag (S fuel) tag = Some (Ok [exn_str e])) ∧
  (∀ value_dict validate content_html soup inner rest e,
     el_name tag = collapsible_tag_name →
     decode (el_attrs tag) = Ok value_dict →
     component_types_to_component_classes !! el_name tag = Some validate →
     validate value_dict = Ok () →
     fields_get content_attr value_dict = Some content_html →
     parse_value html_parser parse_non_string content_html = Ok soup →
     component_tags simple_component_tag_names soup = inner :: rest →
     decode (el_attrs inner) = Raise e →
     in_tag (S (S fuel)) tag = Some (Ok [exn_str e])).
Proof.
  split; [|split; [|split]].
  - intros e He. cbn [validate_customization_args_in_tag]. by rewrite He.
  - intros value_dict e Hdecode. destruct fuel as [|fuel]; [done|].
    cbn [validate_customization_args_in_tag]. rewrite Hdecode.
    by destruct (try_block _ _ _) as [[msgs e']|].
  - intros value_dict e Hdecode Hvalidate.
    cbn [validate_customization_args_in_tag]. rewrite Hdecode.
    unfold validate_value_dict. by rewrite Hvalidate.
  - intros value_dict validate content_html soup inner rest e
      Hname Hdecode Hclass Hvalidate Hcontent Hparse Htags Hinner.
    change (in_tag (S (S fuel)) tag)
      with (match decode (el_attrs tag) with
            | Raise e => Some (Raise e)
            | Ok value_dict =>
                '(err_msgs, e) ←
                  try_block (in_tag (S fuel)) (el_name tag) value_dict;
                Some (Ok (err_msgs ++ match e with
                                      | Some e => [exn_str e]
                                      | None => []
                                      end))
            end).
    rewrite Hdecode. unfold validate_value_dict.
    rewrite Hclass, Hvalidate, decide_True by done.
    unfold value_dict_getitem. rewrite Hcontent, result_bind_Ok, Hparse, Htags.
    cbn [yield_from validate_customization_args_in_tag]. by rewrite Hinner.
Qed.
End CustomizationFacts.


(** Concrete runs, with the stand-in collaborators. *)

Lemma convert_svg_diagram_soup_needs_filename_witness :
  (∀ tag, tag ∈ findAll_name svgdiagram_tag_name svgdiagram_soup →
          is_Some (attr_get svg_filename_attr (el_attrs tag))) ∧
  (∃ soup', convert_svg_diagram_soup id svgdiagram_soup = Ok soup') ∧
  ¬ ∃ soup', convert_svg_diagram_soup id bare_svgdiagram_soup = Ok soup'.
Proof.
  assert (Hall : ∀ tag, tag ∈ findAll_name svgdiagram_tag_name svgdiagram_soup →
                        is_Some (attr_get svg_filename_attr (el_attrs tag))).
  { intros tag Hin. apply list_elem_of_filter in Hin as [Hname Hin].
    cbn in Hin.
    apply elem_of_cons in Hin as [->|Hin]; [discriminate Hname|].
    apply elem_of_cons in Hin as [->|Hin]; [by eexists|].
    by apply elem_of_nil in Hin. }
  split; [exact Hall|]. split.
  - exact (proj2 (proj1 (convert_svg_diagram_soup_needs_filename id
                           svgdiagram_soup)) Hall).
  - intros Hrun.
    pose proof (proj1 (proj1 (convert_svg_diagram_soup_needs_filename id
                                bare_svgdiagram_soup)) Hrun
                  (MkElement svgdiagram_tag_name [(py "alt-with-value", py "x")]
                             [] document_name)) as Hsome.
    destruct Hsome as [v Hv]; [|discriminate Hv].
    vm_compute. left.
Defined.

Lemma validate_math_tags_in_html_reports_witness :
  let parser := sample_parser math_documents in
  let tag := MkElement math_tag_name undecodable_math_attrs [] (py "p") in
  tag ∈ findAll_name math_tag_name (parser undecodable_math_html) ∧
  decode_raw_latex id sample_json_loads sample_normalize (el_attrs tag)
  = Raise ValueError ∧
  tag ∈ validate_math_tags_in_html parser id sample_json_loads sample_normalize
          undecodable_math_html.
Proof.
  intros parser tag.
  assert (Hin : tag ∈ findAll_name math_tag_name (parser undecodable_math_html)).
  { replace (findAll_name math_tag_name (parser undecodable_math_html))
      with [MkElement math_tag_name legacy_math_attrs [] document_name; tag]
      by (vm_compute; reflexivity).
    right. left. }
  assert (Hraise : decode_raw_latex id sample_json_loads sample_normalize
                     (el_attrs tag) = Raise ValueError)
    by (vm_compute; reflexivity).
  split; [exact Hin|]. split; [exact Hraise|].
  destruct (validate_math_tags_in_html_reports parser id sample_json_loads
              sample_normalize undecodable_math_html) as (_ & Hiff & _).
  apply Hiff. split; [exact Hin|]. eexists. exact Hraise.
Defined.

Lemma validate_math_tags_with_math_content_reports_witness :
  let parser := sample_parser content_documents in
  let tag := MkElement math_tag_name [] [] document_name in
  tag ∈ findAll_name math_tag_name (parser bare_math_html) ∧
  tag ∈ validate_math_tags_in_html_with_attribute_math_content parser id
          sample_json_loads sample_normalize bare_math_html ∧
  tag ∈ validate_math_tags_in_html parser id sample_json_loads sample_normalize
          bare_math_html.
Proof.
  intros parser tag.
  assert (Hin : tag ∈ findAll_name math_tag_name (parser bare_math_html)).
  { replace (findAll_name math_tag_name (parser bare_math_html)) with [tag]
      by (vm_compute; reflexivity).
    left. }
  split; [exact Hin|].
  destruct (validate_math_tags_with_math_content_reports parser id
              sample_json_loads sample_normalize bare_math_html)
    as (_ & _ & Hbare).
  destruct (Hbare tag Hin eq_refl) as [Hnew Hlegacy].
  split; [exact Hnew|exact (Hlegacy eq_refl)].
Defined.

Lemma validated_svg_filenames_exist_witness :
  let parser := sample_parser content_documents in
  validate_svg_filenames_in_math_rich_text parser id sample_content_loads
    sample_normalize sample_tag_str sample_isfile (py "exploration") (py "e1")
    content_math_html = Ok [] ∧
  ∃ filenames,
    extract_svg_filenames_in_math_rte_components parser id sample_content_loads
      sample_normalize content_math_html = Ok filenames ∧
    ∀ f, f ∈ filenames →
         sample_isfile (py "exploration") (py "e1") (py "image/" ++ f) = Ok true.
Proof.
  intros parser.
  assert (Hrun : validate_svg_filenames_in_math_rich_text parser id
                   sample_content_loads sample_normalize sample_tag_str
                   sample_isfile (py "exploration") (py "e1")
                   content_math_html = Ok [])
    by (vm_compute; reflexivity).
  split; [exact Hrun|].
  exact (validated_svg_filenames_exist parser id sample_content_loads
           sample_normalize sample_tag_str sample_isfile (py "exploration")
           (py "e1") content_math_html Hrun).
Defined.

Lemma math_tag_without_content_raises_witness :
  let parser := sample_parser content_documents in
  let tag := MkElement math_tag_name [] [] document_name in
  tag ∈ findAll_name math_tag_name (parser bare_math_html) ∧
  (∃ e, validate_svg_filenames_in_math_rich_text parser id sample_content_loads
          sample_normalize sample_tag_str sample_isfile (py "exploration")
          (py "e1") bare_math_html = Raise e) ∧
  (∃ e, extract_svg_filenames_in_math_rte_components parser id
          sample_content_loads sample_normalize bare_math_html = Raise e).
Proof.
  intros parser tag.
  assert (Hin : tag ∈ findAll_name math_tag_name (parser bare_math_html)).
  { replace (findAll_name math_tag_name (parser bare_math_html)) with [tag]
      by (vm_compute; reflexivity).
    left. }
  split; [exact Hin|].
  destruct (math_tag_without_content_raises parser id sample_content_loads
              sample_normalize sample_tag_str sample_isfile (λ _, Valid)
              (py "exploration") (py "e1") bare_math_html tag Hin eq_refl)
    as (Hfiles & _ & Hextract & _).
  split; [exact Hfiles|exact Hextract].
Defined.

Lemma validate_math_content_attribute_entries_witness :
  let parser := sample_parser content_documents in
  let Math_validate := λ _ : json, ValidationError (py "Invalid SVG") in
  let error_list := [MathError math_tag_name (py "Invalid SVG")] in
  validate_math_content_attribute_in_html parser id sample_content_loads
    sample_tag_str Math_validate content_math_html = Ok error_list ∧
  ∃ verdicts : list (Element * json * validation),
    verdicts.*1.*1 = findAll_name math_tag_name (parser content_math_html) ∧
    error_list =
      omap (λ '(tag, content, verdict),
              match verdict with
              | ValidationError msg => Some (MathError (sample_tag_str tag) msg)
              | _ => None
              end) verdicts.
Proof.
  intros parser Math_validate error_list.
  assert (Hrun : validate_math_content_attribute_in_html parser id
                   sample_content_loads sample_tag_str Math_validate
                   content_math_html = Ok error_list)
    by (vm_compute; reflexivity).
  split; [exact Hrun|].
  destruct (validate_math_content_attribute_entries parser id
              sample_content_loads sample_tag_str Math_validate
              content_math_html error_list Hrun)
    as (verdicts & Htags & _ & Hlist).
  exists verdicts. split; [exact Htags|exact Hlist].
Defined.

Lemma validate_customization_args_depth_witness :
  let parser := sample_parser customization_documents in
  let simple := [math_tag_name] in
  let tag :=
    MkElement collapsible_tag_name
              [(content_attr, quote :: nested_math_html ++ [quote])] []
              document_name in
  (collapsible_tag_name ∉ simple) ∧ (tabs_tag_name ∉ simple) ∧
  validate_customization_args_in_tag parser id sample_json_loads
    (λ _, Raise TypeError) simple sample_classes sample_exn_str 3 tag
  = Some (Ok [py "error"]) ∧
  is_Some (validate_customization_args parser id sample_json_loads
             (λ _, Raise TypeError) [math_tag_name] [collapsible_tag_name]
             simple sample_classes sample_exn_str sample_same_tag 2
             [collapsible_html]).
Proof.
  intros parser simple tag.
  assert (Hc : collapsible_tag_name ∉ simple) by not_in_list.
  assert (Ht : tabs_tag_name ∉ simple) by not_in_list.
  split; [exact Hc|]. split; [exact Ht|].
  destruct (validate_customization_args_depth parser id sample_json_loads
              (λ _, Raise TypeError) [math_tag_name] [collapsible_tag_name]
              simple sample_classes sample_exn_str sample_same_tag 3 tag
              [collapsible_html] Hc Ht) as (Heq & _ & _ & Hsome); [lia|].
  split; [|exact Hsome]. rewrite Heq. vm_compute. reflexivity.
Defined.

Lemma validate_customization_args_entries_witness :
  let parser := sample_parser customization_documents in
  let err_dict : gmap str (list str) := {[ py "error" := [collapsible_html] ]} in
  validate_customization_args parser id sample_json_loads
    (λ _, Raise TypeError) [math_tag_name] [collapsible_tag_name]
    [math_tag_name] sample_classes sample_exn_str sample_same_tag 2
    [collapsible_html; collapsible_html] = Some (Ok err_dict) ∧
  NoDup [collapsible_html] ∧
  ∀ s, s ∈ [collapsible_html] → s ∈ [collapsible_html; collapsible_html].
Proof.
  intros parser err_dict.
  assert (Hrun : validate_customization_args parser id sample_json_loads
                   (λ _, Raise TypeError) [math_tag_name] [collapsible_tag_name]
                   [math_tag_name] sample_classes sample_exn_str sample_same_tag
                   2 [collapsible_html; collapsible_html] = Some (Ok err_dict))
    by (vm_compute; reflexivity).
  split; [exact Hrun|].
  destruct (validate_customization_args_entries parser id sample_json_loads
              (λ _, Raise TypeError) [math_tag_name] [collapsible_tag_name]
              [math_tag_name] sample_classes sample_exn_str sample_same_tag 2
              [collapsible_html; collapsible_html] err_dict (py "error")
              [collapsible_html] Hrun)
    as (_ & _ & Hnodup & Hall); [vm_compute; reflexivity|].
  split; [exact Hnodup|exact Hall].
Defined.

Lemma validate_customization_args_in_tag_errors_witness :
  let parser := sample_parser customization_documents in
  let attrs := [(content_attr, quote :: nested_math_html ++ [quote])] in
  let tag := MkElement collapsible_tag_name attrs [] document_name in
  let inner := MkElement math_tag_name undecodable_math_attrs [] document_name in
  decode_attrs id sample_json_loads attrs
  = Ok [(content_attr, JString nested_math_html)] ∧
  decode_attrs id sample_json_loads (el_attrs inner) = Raise ValueError ∧
  validate_customization_args_in_tag parser id sample_json_loads
    (λ _, Raise TypeError) [math_tag_name] sample_classes sample_exn_str 2 inner
  = Some (Raise ValueError) ∧
  validate_customization_args_in_tag parser id sample_json_loads
    (λ _, Raise TypeError) [math_tag_name] sample_classes sample_exn_str 2 tag
  = Some (Ok [sample_exn_str ValueError]).
Proof.
  intros parser attrs tag inner.
  assert (Hdecode : decode_attrs id sample_json_loads (el_attrs tag)
                    = Ok [(content_attr, JString nested_math_html)])
    by (vm_compute; reflexivity).
  assert (Hinner : decode_attrs id sample_json_loads (el_attrs inner)
                   = Raise ValueError) by (vm_compute; reflexivity).
  split; [exact Hdecode|]. split; [exact Hinner|].
  split.
  - exact (proj1 (validate_customization_args_in_tag_errors parser id
                    sample_json_loads (λ _, Raise TypeError) [math_tag_name]
                    sample_classes sample_exn_str 1 inner) ValueError Hinner).
  - apply (proj2 (proj2 (proj2
             (validate_customization_args_in_tag_errors parser id
                sample_json_loads (λ _, Raise TypeError) [math_tag_name]
                sample_classes sample_exn_str 0 tag)))
             [(content_attr, JString nested_math_html)] sample_validate
             (JString nested_math_html) nested_math_soup inner [] ValueError);
      first [exact Hdecode | exact Hinner | vm_compute; reflexivity].
Defined.

